(** * Subagent coordinator: guardrails, topology policy, isolation,
      shared-context ledger and phase gates

    A shallow embedding of the subagent extension
    (packages/coding-agent/examples/extensions/subagent) and the
    properties its specification states about it.

    Conventions of the embedding.
    - JavaScript strings are [string]; a character is read as a Latin-1
      code point, which fixes white space and case mapping.
    - JavaScript numbers that the code only uses as integers (token
      counts, depths, timestamps, exit codes, limits) are [Z].
    - A [Set<string>] is a duplicate-free list in insertion order, which
      is what [Array.from] observes.
    - [process.env] is a [gmap string string].
    - A function that mutates an argument returns the new value of that
      argument next to its result; a function that may throw returns a
      [Completion]. *)

From Stdlib Require Import ZArith List String Ascii Bool Lia.
From Stdlib Require Import DecimalString DecimalPos DecimalFacts.
From stdpp Require Import base option list strings gmap.

Set Warnings "-register-all".

Local Open Scope Z_scope.
Local Open Scope string_scope.

(** ** Completions: a returned value or a thrown [Error] *)

Inductive Completion (A : Type) : Type :=
  | Return (value : A)
  | Throw (message : string).
Arguments Return {A} value.
Arguments Throw {A} message.

Definition isThrow {A} (c : Completion A) : bool :=
  match c with Throw _ => true | Return _ => false end.

#[global] Instance Completion_ret : MRet Completion := fun A x => Return x.
#[global] Instance Completion_bind : MBind Completion := fun A B f c =>
  match c with
  | Return x => f x
  | Throw message => Throw message
  end.

(** ** The parts of the JavaScript string library the code relies on *)

Module Js.

Definition code (c : ascii) : N := N_of_ascii c.

(** White space as [\s] and [String.prototype.trim] see it: TAB, LF, VT,
    FF, CR, SPACE and NO-BREAK SPACE. *)
Definition isWhiteSpace (c : ascii) : bool :=
  let n := code c in
  ((9 <=? n) && (n <=? 13) || (n =? 32) || (n =? 160))%N.

Definition isUpper (c : ascii) : bool :=
  let n := code c in
  ((65 <=? n) && (n <=? 90)
   || (192 <=? n) && (n <=? 222) && negb (n =? 215))%N.

Definition toLowerCaseChar (c : ascii) : ascii :=
  if isUpper c then ascii_of_N (code c + 32) else c.

Fixpoint toLowerCase (s : string) : string :=
  match s with
  | EmptyString => EmptyString
  | String c r => String (toLowerCaseChar c) (toLowerCase r)
  end.

Fixpoint trimStart (s : string) : string :=
  match s with
  | String c r => if isWhiteSpace c then trimStart r else s
  | EmptyString => EmptyString
  end.

Fixpoint isBlank (s : string) : bool :=
  match s with
  | EmptyString => true
  | String c r => isWhiteSpace c && isBlank r
  end.

Fixpoint trimEnd (s : string) : string :=
  match s with
  | EmptyString => EmptyString
  | String c r => if isBlank s then EmptyString else String c (trimEnd r)
  end.

Definition trim (s : string) : string := trimEnd (trimStart s).

(** [s.replace(/\s+/g, " ")]: every maximal run of white space becomes
    one space. *)
Fixpoint collapseFrom (inRun : bool) (s : string) : string :=
  match s with
  | EmptyString => EmptyString
  | String c r =>
      if isWhiteSpace c
      then (if inRun then collapseFrom true r else String " " (collapseFrom true r))
      else String c (collapseFrom false r)
  end.

Definition collapseWhiteSpace (s : string) : string := collapseFrom false s.

Fixpoint startsWith (p s : string) : bool :=
  match p, s with
  | EmptyString, _ => true
  | String a p', String b s' => if Ascii.eqb a b then startsWith p' s' else false
  | String _ _, EmptyString => false
  end.

(** [s.includes(p)], also the test of a regular expression that is one
    literal. *)
Fixpoint includes (p s : string) : bool :=
  startsWith p s ||
  match s with
  | EmptyString => false
  | String _ r => includes p r
  end.

(** The text [p] occurs in the text [s]. *)
Definition occursIn (p s : string) : Prop := exists a b, s = a +:+ p +:+ b.

(** [s.slice(0, n)] for [n >= 0]. *)
Fixpoint take (n : nat) (s : string) : string :=
  match n, s with
  | S n', String c r => String c (take n' r)
  | _, _ => EmptyString
  end.

Fixpoint drop (n : nat) (s : string) : string :=
  match n, s with
  | S n', String _ r => drop n' r
  | _, _ => s
  end.

Definition join (sep : string) (l : list string) : string := String.concat sep l.

(** The replacement text of [String.prototype.replace] for a pattern
    without capture groups: [$$], [$&], [$`] and [$'] are special. *)
Fixpoint substitution (replacement matched before after : string) : string :=
  match replacement with
  | EmptyString => EmptyString
  | String c r =>
      if negb (code c =? 36)%N then String c (substitution r matched before after)
      else
        match r with
        | String d r' =>
            if (code d =? 36)%N then String d (substitution r' matched before after)
            else if (code d =? 38)%N then matched +:+ substitution r' matched before after
            else if (code d =? 96)%N then before +:+ substitution r' matched before after
            else if (code d =? 39)%N then after +:+ substitution r' matched before after
            else String c (substitution r matched before after)
        | EmptyString => String c EmptyString
        end
  end.

(** [s.replace(/p/g, replacement)] for a literal, non-empty [p]; [skip]
    counts the characters of a match still to be passed over and
    [before] is the text already passed. *)
Fixpoint replaceFrom (p replacement : string) (skip : nat) (before s : string) : string :=
  match s with
  | EmptyString => EmptyString
  | String c r =>
      let before' := before +:+ String c EmptyString in
      match skip with
      | S k => replaceFrom p replacement k before' r
      | O =>
          if startsWith p s then
            substitution replacement p before (drop (String.length p) s)
            +:+ replaceFrom p replacement (String.length p - 1) before' r
          else String c (replaceFrom p replacement O before' r)
      end
  end.

Definition replaceAll (p replacement s : string) : string :=
  replaceFrom p replacement O EmptyString s.

(** [String(n)] for an integer. *)
Definition Number_toString (n : Z) : string := NilZero.string_of_int (Z.to_int n).

Definition digit (c : ascii) : option Z :=
  let n := code c in
  if ((48 <=? n) && (n <=? 57))%N then Some (Z.of_N n - 48) else None.

Fixpoint digits (acc : Z) (s : string) : Z :=
  match s with
  | String c r => match digit c with Some d => digits (10 * acc + d) r | None => acc end
  | EmptyString => acc
  end.

Definition unsignedInt (s : string) : option Z :=
  match s with
  | String c _ => match digit c with Some _ => Some (digits 0 s) | None => None end
  | EmptyString => None
  end.

(** [Number.parseInt(s, 10)]; [None] is [NaN]. *)
Definition parseInt (s : string) : option Z :=
  match trimStart s with
  | String "-" r => Z.opp <$> unsignedInt r
  | String "+" r => unsignedInt r
  | t => unsignedInt t
  end.

End Js.

(** ** JSON.stringify and JSON.parse

    The platform's JSON codec, on the character model of this file.  A
    number keeps its lexeme.  An escape [\uXXXX] above U+00FF has no
    character here and makes [parse] fail. *)

Module Json.

Inductive value :=
  | JNull
  | JBool (b : bool)
  | JNumber (lexeme : string)
  | JString (s : string)
  | JArray (items : list value)
  | JObject (fields : list (string * value)).

Definition hexDigit (n : N) : ascii :=
  ascii_of_N (if (n <? 10)%N then 48 + n else 87 + n).

Definition quoteChar (c : ascii) : string :=
  let n := Js.code c in
  if (n =? 34)%N then String "\" (String c EmptyString) else
  if (n =? 92)%N then "\\" else
  if (n =? 8)%N then "\b" else
  if (n =? 12)%N then "\f" else
  if (n =? 10)%N then "\n" else
  if (n =? 13)%N then "\r" else
  if (n =? 9)%N then "\t" else
  if (n <? 32)%N then
    String "\" (String "u" (String "0" (String "0"
      (String (hexDigit (n / 16)) (String (hexDigit (n mod 16)) EmptyString)))))
  else String c EmptyString.

Fixpoint quoteChars (s : string) : string :=
  match s with
  | EmptyString => EmptyString
  | String c r => quoteChar c +:+ quoteChars r
  end.

Definition DQUOTE : ascii := ascii_of_N 34.

Definition quote (s : string) : string :=
  String DQUOTE (quoteChars s +:+ String DQUOTE EmptyString).

Fixpoint stringify (v : value) : string :=
  match v with
  | JNull => "null"
  | JBool true => "true"
  | JBool false => "false"
  | JNumber lexeme => lexeme
  | JString s => quote s
  | JArray items =>
      "[" +:+ Js.join "," ((fix each (l : list value) : list string :=
                              match l with
                              | [] => []
                              | x :: r => stringify x :: each r
                              end) items) +:+ "]"
  | JObject fields =>
      "{" +:+ Js.join "," ((fix each (l : list (string * value)) : list string :=
                              match l with
                              | [] => []
                              | (k, x) :: r => (quote k +:+ ":" +:+ stringify x) :: each r
                              end) fields) +:+ "}"
  end.

(** Parsing. *)

Definition isJsonSpace (c : ascii) : bool :=
  let n := Js.code c in ((n =? 32) || (n =? 9) || (n =? 10) || (n =? 13))%N.

Fixpoint skipSpace (s : string) : string :=
  match s with
  | String c r => if isJsonSpace c then skipSpace r else s
  | EmptyString => EmptyString
  end.

Definition hexValue (c : ascii) : option N :=
  let n := Js.code c in
  if ((48 <=? n) && (n <=? 57))%N then Some (n - 48)%N
  else if ((97 <=? n) && (n <=? 102))%N then Some (n - 87)%N
  else if ((65 <=? n) && (n <=? 70))%N then Some (n - 55)%N
  else None.

Definition unicodeEscape (a b c d : ascii) : option ascii :=
  match hexValue a, hexValue b, hexValue c, hexValue d with
  | Some 0%N, Some 0%N, Some x, Some y => Some (ascii_of_N (16 * x + y))
  | _, _, _, _ => None
  end.

Definition simpleEscape (e : ascii) : option ascii :=
  let n := Js.code e in
  if (n =? 34)%N || (n =? 92)%N || (n =? 47)%N then Some e else
  if (n =? 98)%N then Some (ascii_of_N 8) else
  if (n =? 102)%N then Some (ascii_of_N 12) else
  if (n =? 110)%N then Some (ascii_of_N 10) else
  if (n =? 114)%N then Some (ascii_of_N 13) else
  if (n =? 116)%N then Some (ascii_of_N 9) else None.

(** The characters of a string literal after its opening quote, up to
    and including the closing quote. *)
Fixpoint parseChars (s : string) : option (string * string) :=
  match s with
  | EmptyString => None
  | String c r =>
      if (Js.code c =? 34)%N then Some (EmptyString, r)
      else if (Js.code c =? 92)%N then
        match r with
        | String e r1 =>
            if (Js.code e =? 117)%N then
              match r1 with
              | String h1 (String h2 (String h3 (String h4 r2))) =>
                  match unicodeEscape h1 h2 h3 h4 with
                  | Some x =>
                      match parseChars r2 with
                      | Some (t, rest) => Some (String x t, rest)
                      | None => None
                      end
                  | None => None
                  end
              | _ => None
              end
            else
              match simpleEscape e with
              | Some x =>
                  match parseChars r1 with
                  | Some (t, rest) => Some (String x t, rest)
                  | None => None
                  end
              | None => None
              end
        | EmptyString => None
        end
      else if (Js.code c <? 32)%N then None
      else
        match parseChars r with
        | Some (t, rest) => Some (String c t, rest)
        | None => None
        end
  end.

Definition isDigit (c : ascii) : bool :=
  let n := Js.code c in ((48 <=? n) && (n <=? 57))%N.

Fixpoint spanDigits (s : string) : string * string :=
  match s with
  | String c r =>
      if isDigit c then let '(d, rest) := spanDigits r in (String c d, rest)
      else (EmptyString, s)
  | EmptyString => (EmptyString, EmptyString)
  end.

(** A number: an optional minus, an integer part without a leading
    zero, an optional fraction, an optional exponent. *)
Definition parseNumber (s : string) : option (string * string) :=
  let '(sign, s1) :=
    match s with String "-" r => ("-", r) | _ => ("", s) end in
  let '(int, s2) := spanDigits s1 in
  match int with
  | EmptyString => None
  | String "0" (String _ _) => None
  | _ =>
      let fraction :=
        match s2 with
        | String "." r =>
            let '(f, s3) := spanDigits r in
            match f with
            | EmptyString => None
            | _ => Some ("." +:+ f, s3)
            end
        | _ => Some ("", s2)
        end in
      match fraction with
      | None => None
      | Some (frac, s3) =>
          let exponent :=
            match s3 with
            | String e r =>
                if (Js.code e =? 101)%N || (Js.code e =? 69)%N then
                  let '(esign, r1) :=
                    match r with
                    | String "+" r' => ("+", r')
                    | String "-" r' => ("-", r')
                    | _ => ("", r)
                    end in
                  let '(ds, s4) := spanDigits r1 in
                  match ds with
                  | EmptyString => None
                  | _ => Some (String e (esign +:+ ds), s4)
                  end
                else Some ("", s3)
            | EmptyString => Some ("", s3)
            end in
          match exponent with
          | None => None
          | Some (ex, s4) => Some (sign +:+ int +:+ frac +:+ ex, s4)
          end
      end
  end.

Definition expect (word : string) (v : value) (s : string) : option (value * string) :=
  if Js.startsWith word s then Some (v, Js.drop (String.length word) s) else None.

Definition isCode (c : ascii) (n : N) : bool := (Js.code c =? n)%N.

Fixpoint parseValue (fuel : nat) (s : string) : option (value * string) :=
  match fuel with
  | O => None
  | S fuel =>
      match skipSpace s with
      | EmptyString => None
      | String c r as t =>
          if isCode c 110 then expect "null" JNull t
          else if isCode c 116 then expect "true" (JBool true) t
          else if isCode c 102 then expect "false" (JBool false) t
          else if isCode c 34 then
            match parseChars r with
            | Some (str, rest) => Some (JString str, rest)
            | None => None
            end
          else if isCode c 91 then
            match skipSpace r with
            | String "]" rest => Some (JArray [], rest)
            | _ =>
                match parseElements fuel r with
                | Some (items, rest) => Some (JArray items, rest)
                | None => None
                end
            end
          else if isCode c 123 then
            match skipSpace r with
            | String "}" rest => Some (JObject [], rest)
            | _ =>
                match parseMembers fuel r with
                | Some (fields, rest) => Some (JObject fields, rest)
                | None => None
                end
            end
          else
            match parseNumber t with
            | Some (lexeme, rest) => Some (JNumber lexeme, rest)
            | None => None
            end
      end
  end
with parseElements (fuel : nat) (s : string) : option (list value * string) :=
  match fuel with
  | O => None
  | S fuel =>
      match parseValue fuel s with
      | Some (v, rest) =>
          match skipSpace rest with
          | String "," r =>
              match parseElements fuel r with
              | Some (vs, rest') => Some (v :: vs, rest')
              | None => None
              end
          | String "]" r => Some ([v], r)
          | _ => None
          end
      | None => None
      end
  end
with parseMembers (fuel : nat) (s : string) : option (list (string * value) * string) :=
  match fuel with
  | O => None
  | S fuel =>
      match skipSpace s with
      | EmptyString => None
      | String c r =>
          if isCode c 34 then
            match parseChars r with
            | Some (key, r1) =>
                match skipSpace r1 with
                | String ":" r2 =>
                    match parseValue fuel r2 with
                    | Some (v, rest) =>
                        match skipSpace rest with
                        | String "," r3 =>
                            match parseMembers fuel r3 with
                            | Some (fs, rest') => Some ((key, v) :: fs, rest')
                            | None => None
                            end
                        | String "}" r3 => Some ([(key, v)], r3)
                        | _ => None
                        end
                    | None => None
                    end
                | _ => None
                end
            | None => None
            end
          else None
      end
  end.

(** [JSON.parse(text)]; [None] is a thrown [SyntaxError]. *)
Definition parse (text : string) : option value :=
  match parseValue (2 * String.length text + 2) text with
  | Some (v, rest) =>
      match skipSpace rest with
      | EmptyString => Some v
      | _ => None
      end
  | None => None
  end.

(** [v.key] for a parsed value: the last member of that name of an
    object, [undefined] ([None]) otherwise. *)
Fixpoint lookupLast (key : string) (fields : list (string * value)) : option value :=
  match fields with
  | [] => None
  | (k, v) :: r =>
      match lookupLast key r with
      | Some w => Some w
      | None => if String.eqb k key then Some v else None
      end
  end.

Definition getProp (v : value) (key : string) : option value :=
  match v with
  | JObject fields => lookupLast key fields
  | _ => None
  end.

End Json.

(** ** The texts that [JSON.stringify] writes for the objects of this
       program *)

Module JsonText.

Import Json.

Definition digitsOnly (s : string) : Prop :=
  Forall (fun c => isDigit c = true) (list_ascii_of_string s).

(** A text that does not go on with a digit. *)
Definition noDigitAhead (rest : string) : Prop :=
  match rest with String c _ => isDigit c = false | EmptyString => True end.

(** What may follow a value inside a JSON text. *)
Definition delimited (rest : string) : Prop :=
  match rest with
  | EmptyString => True
  | String c _ => c = ","%char \/ c = "]"%char \/ c = "}"%char
  end.

(** A text that opens with a character that is no white space and does
    not close an array or an object. *)
Definition startsValue (s : string) : Prop :=
  exists c r, s = String c r /\ isJsonSpace c = false
              /\ c <> "]"%char /\ c <> "}"%char.

(** The values [JSON.stringify] prints from the objects of this program:
    every number is an integer in its decimal notation. *)
Fixpoint canonical (v : value) : Prop :=
  match v with
  | JNumber lexeme => exists n : Z, lexeme = Js.Number_toString n
  | JArray items =>
      (fix all (l : list value) : Prop :=
         match l with [] => True | x :: r => canonical x /\ all r end) items
  | JObject fields =>
      (fix all (l : list (string * value)) : Prop :=
         match l with [] => True | (_, x) :: r => canonical x /\ all r end) fields
  | _ => True
  end.

(** The fuel that parsing the text of a value takes. *)
Fixpoint need (v : value) : nat :=
  match v with
  | JArray items =>
      S ((fix sum (l : list value) : nat :=
            match l with [] => O | x :: r => S (need x + sum r) end) items)
  | JObject fields =>
      S ((fix sum (l : list (string * value)) : nat :=
            match l with [] => O | (_, x) :: r => S (need x + sum r) end) fields)
  | _ => 1%nat
  end.

Definition needs (items : list value) : nat :=
  list_sum (map (fun x => S (need x)) items).

Definition needsOf (fields : list (string * value)) : nat :=
  list_sum (map (fun kv => S (need kv.2)) fields).

(** The text of one member of an object. *)
Definition member (kv : string * value) : string := quote kv.1 +:+ ":" +:+ stringify kv.2.

(** Parsing the text of [v], with enough fuel and whatever may follow
    it, gives [v] and what follows. *)
Definition parses (v : value) : Prop :=
  forall fuel rest, (need v <= fuel)%nat -> delimited rest ->
  parseValue fuel (stringify v +:+ rest) = Some (v, rest).

End JsonText.

(** ** policy.ts *)

Module Policy.

Inductive TopologyMode := single | parallel | chain.
Inductive TopologyPolicy := advisory | auto.

Record ExecutionTaskItem := {
  agent : string;
  task : string;
  cwd : option string;
}.

Record ExecutionPlan := {
  mode : TopologyMode;
  p_single : option ExecutionTaskItem;
  p_tasks : option (list ExecutionTaskItem);
  p_chain : option (list ExecutionTaskItem);
  notes : list string;
}.

Record ExecutionPlanInput := {
  requestedMode : TopologyMode;
  policy : TopologyPolicy;
  recommendedMode : TopologyMode;
  i_single : option ExecutionTaskItem;
  i_tasks : option (list ExecutionTaskItem);
  i_chain : option (list ExecutionTaskItem);
}.

Definition parseTopologyPolicy (value : option string) (fallback : TopologyPolicy)
  : TopologyPolicy :=
  match value with
  | Some "auto" => auto
  | Some "advisory" => advisory
  | _ => fallback
  end.

(** [/\{previous\}/.test(text)] *)
Definition hasPrevious (text : string) : bool := Js.includes "{previous}" text.

(** [Omit<ExecutionPlan, "notes">] *)
Record RequestedPlan := {
  n_mode : TopologyMode;
  n_single : option ExecutionTaskItem;
  n_tasks : option (list ExecutionTaskItem);
  n_chain : option (list ExecutionTaskItem);
}.

Definition normalizeRequestedPlan (mode : TopologyMode)
    (single : option ExecutionTaskItem)
    (tasks chain : option (list ExecutionTaskItem)) : RequestedPlan :=
  match mode with
  | chain =>
      {| n_mode := mode; n_single := None; n_tasks := None;
         n_chain := Some (default [] chain) |}
  | parallel =>
      {| n_mode := mode; n_single := None;
         n_tasks := Some (default [] tasks); n_chain := None |}
  | single =>
      {| n_mode := mode; n_single := single; n_tasks := None; n_chain := None |}
  end.

(** [{ ...normalized, notes }] *)
Definition withNotes (normalized : RequestedPlan) (notes : list string) : ExecutionPlan :=
  {| mode := normalized.(n_mode);
     p_single := normalized.(n_single);
     p_tasks := normalized.(n_tasks);
     p_chain := normalized.(n_chain);
     notes := notes |}.

Definition NOTE_NO_SAFE_CONVERSION : string :=
  "auto mode: no safe topology conversion available; using requested mode".

Definition isMode (a b : TopologyMode) : bool :=
  match a, b with
  | single, single | parallel, parallel | chain, chain => true
  | _, _ => false
  end.

(** The three [case] arms of the [switch]; [None] is the [break] that
    leaves the switch for the statements after it. *)
Definition recommendChain (normalized : RequestedPlan) : option ExecutionPlan :=
  if isMode normalized.(n_mode) chain then
    Some (withNotes normalized ["auto mode: recommended topology already chain"])
  else if isMode normalized.(n_mode) parallel then
    Some {| mode := chain; p_single := None; p_tasks := None;
            p_chain := Some (default [] normalized.(n_tasks));
            notes := ["auto mode: switched parallel -> chain for higher coupling/risk"] |}
  else if isMode normalized.(n_mode) single then
    Some {| mode := chain; p_single := None; p_tasks := None;
            p_chain := Some (match normalized.(n_single) with
                             | Some s => [s]
                             | None => []
                             end);
            notes := ["auto mode: switched single -> chain for higher coupling/risk"] |}
  else None.

Definition recommendParallel (normalized : RequestedPlan) : option ExecutionPlan :=
  if isMode normalized.(n_mode) parallel then
    Some (withNotes normalized ["auto mode: recommended topology already parallel"])
  else if isMode normalized.(n_mode) chain then
    let chain := default [] normalized.(n_chain) in
    let containsPrevious := existsb (fun item => hasPrevious item.(task)) chain in
    if negb containsPrevious && (1 <? length chain)%nat then
      Some {| mode := parallel; p_single := None;
              p_tasks := Some chain; p_chain := None;
              notes := ["auto mode: switched chain -> parallel (no {previous} dependencies)"] |}
    else None
  else None.

Definition optLength (l : option (list ExecutionTaskItem)) : nat :=
  match l with Some l => length l | None => 0%nat end.

Definition recommendSingle (normalized : RequestedPlan) : option ExecutionPlan :=
  if isMode normalized.(n_mode) single then
    Some (withNotes normalized ["auto mode: recommended topology already single"])
  else if isMode normalized.(n_mode) parallel && (optLength normalized.(n_tasks) =? 1)%nat then
    Some {| mode := single;
            p_single := normalized.(n_tasks) ≫= head;
            p_tasks := None; p_chain := None;
            notes := ["auto mode: switched parallel -> single (single task)"] |}
  else if isMode normalized.(n_mode) chain && (optLength normalized.(n_chain) =? 1)%nat then
    match normalized.(n_chain) ≫= head with
    | Some first =>
        if negb (hasPrevious first.(task)) then
          Some {| mode := single; p_single := Some first;
                  p_tasks := None; p_chain := None;
                  notes := ["auto mode: switched chain -> single (single independent step)"] |}
        else None
    | None => None
    end
  else None.

Definition buildExecutionPlan (input : ExecutionPlanInput) : ExecutionPlan :=
  let normalized :=
    normalizeRequestedPlan input.(requestedMode) input.(i_single)
                           input.(i_tasks) input.(i_chain) in
  match input.(policy) with
  | advisory => withNotes normalized ["advisory mode: requested topology kept"]
  | auto =>
      let converted :=
        match input.(recommendedMode) with
        | chain => recommendChain normalized
        | parallel => recommendParallel normalized
        | single => recommendSingle normalized
        end in
      match converted with
      | Some plan => plan
      | None => withNotes normalized [NOTE_NO_SAFE_CONVERSION]
      end
  end.

End Policy.

(** ** agents.ts: the agent configuration, as far as this code reads it *)

Module Agents.

Inductive AgentSource := user | project.

Record AgentConfig := {
  name : string;
  tools : option (list string);
  model : option string;
  systemPrompt : string;
  source : AgentSource;
}.

End Agents.

(** ** context-memory.ts *)

Module ContextMemory.

Inductive SharedContextMode := isolated | shared_read | shared_write.

Definition modeText (m : SharedContextMode) : string :=
  match m with
  | isolated => "isolated"
  | shared_read => "shared-read"
  | shared_write => "shared-write"
  end.

Definition topologyText (m : Policy.TopologyMode) : string :=
  match m with
  | Policy.single => "single"
  | Policy.parallel => "parallel"
  | Policy.chain => "chain"
  end.

Record TaskHandoffEnvelope := {
  runId : string;
  taskId : string;
  parentTaskId : option string;
  agent : string;
  task : string;
  mode : Policy.TopologyMode;
  depth : Z;
  createdAtMs : Z;
}.

Inductive Status := success | error.

Definition statusText (s : Status) : string :=
  match s with success => "success" | error => "error" end.

(** [SharedContextEntry]: the three kinds over the common base
    [entryId], [runId], [createdAtMs]. *)
Inductive SharedContextEntry :=
  | DispatchEntry (entryId runId : string) (createdAtMs : Z)
      (envelope : TaskHandoffEnvelope) (contextMode : SharedContextMode)
  | ObservationEntry (entryId runId : string) (createdAtMs : Z)
      (taskId agent : string) (status : Status) (summary : string)
  | DecisionEntry (entryId runId : string) (createdAtMs : Z)
      (taskId coordinator decision : string).

Definition num (n : Z) : Json.value := Json.JNumber (Js.Number_toString n).

(** The object literals of the source, members in the order they are
    written; a member whose value is [undefined] is not serialised. *)
Definition envelopeJson (e : TaskHandoffEnvelope) : Json.value :=
  Json.JObject
    ([ ("runId", Json.JString e.(runId)); ("taskId", Json.JString e.(taskId)) ]
     ++ match e.(parentTaskId) with
        | Some p => [ ("parentTaskId", Json.JString p) ]
        | None => []
        end
     ++ [ ("agent", Json.JString e.(agent));
          ("task", Json.JString e.(task));
          ("mode", Json.JString (topologyText e.(mode)));
          ("depth", num e.(depth));
          ("createdAtMs", num e.(createdAtMs)) ]).

Definition entryJson (entry : SharedContextEntry) : Json.value :=
  match entry with
  | DispatchEntry entryId runId createdAtMs envelope contextMode =>
      Json.JObject
        [ ("type", Json.JString "dispatch");
          ("envelope", envelopeJson envelope);
          ("contextMode", Json.JString (modeText contextMode));
          ("entryId", Json.JString entryId);
          ("runId", Json.JString runId);
          ("createdAtMs", num createdAtMs) ]
  | ObservationEntry entryId runId createdAtMs taskId agent status summary =>
      Json.JObject
        [ ("type", Json.JString "observation");
          ("taskId", Json.JString taskId);
          ("agent", Json.JString agent);
          ("status", Json.JString (statusText status));
          ("summary", Json.JString summary);
          ("entryId", Json.JString entryId);
          ("runId", Json.JString runId);
          ("createdAtMs", num createdAtMs) ]
  | DecisionEntry entryId runId createdAtMs taskId coordinator decision =>
      Json.JObject
        [ ("type", Json.JString "decision");
          ("taskId", Json.JString taskId);
          ("coordinator", Json.JString coordinator);
          ("decision", Json.JString decision);
          ("entryId", Json.JString entryId);
          ("runId", Json.JString runId);
          ("createdAtMs", num createdAtMs) ]
  end.

(** The ledger file as the store sees it: its text, and whether reading
    or appending currently fails (both failures are caught by the
    source). *)
Record LedgerFile := {
  content : string;
  readFails : bool;
  appendFails : bool;
}.

Inductive SharedContextStore :=
  | NoopSharedContextStore
  | FileSharedContextStore (runId ledgerPath : string).

Definition getLedgerPath (store : SharedContextStore) : string :=
  match store with
  | NoopSharedContextStore => "(disabled)"
  | FileSharedContextStore _ ledgerPath => ledgerPath
  end.

Definition LF : ascii := ascii_of_N 10.

(** [content.split(LF)] *)
Fixpoint splitLines (s : string) : list string :=
  match s with
  | EmptyString => [EmptyString]
  | String c r =>
      if Ascii.eqb c LF then EmptyString :: splitLines r
      else match splitLines r with
           | line :: lines => String c line :: lines
           | [] => [String c EmptyString]
           end
  end.

(** [entries.slice(-k)] for an integer [k >= 1] *)
Definition sliceLast {A} (k : Z) (l : list A) : list A :=
  drop (length l - Z.to_nat k) l.

Definition belongsTo (runId : string) (parsed : Json.value) : bool :=
  match Json.getProp parsed "runId" with
  | Some (Json.JString r) => String.eqb r runId
  | _ => false
  end.

(** The body of the loop over the lines: a line that does not parse, or
    parses to [null] (whose member access throws), is skipped. *)
Definition keepLine (runId : string) (line : string) : option Json.value :=
  match Json.parse line with
  | Some parsed => if belongsTo runId parsed then Some parsed else None
  | None => None
  end.

Definition readRecent (store : SharedContextStore) (file : LedgerFile) (limit : Z)
  : list Json.value :=
  match store with
  | NoopSharedContextStore => []
  | FileSharedContextStore runId _ =>
      let boundedLimit := Z.max 1 (Z.min 100 limit) in
      if file.(readFails) then []
      else
        let lines := filter (fun line => negb (Js.isBlank line)) (splitLines file.(content)) in
        let entries := omap (keepLine runId) lines in
        sliceLast boundedLimit entries
  end.

Definition append (store : SharedContextStore) (file : LedgerFile)
    (entry : SharedContextEntry) : LedgerFile :=
  match store with
  | NoopSharedContextStore => file
  | FileSharedContextStore _ _ =>
      if file.(appendFails) then file
      else {| content := file.(content) +:+ Json.stringify (entryJson entry) +:+ String LF EmptyString;
              readFails := file.(readFails);
              appendFails := file.(appendFails) |}
  end.

Definition storeRunId (store : SharedContextStore) : string :=
  match store with
  | NoopSharedContextStore => EmptyString
  | FileSharedContextStore runId _ => runId
  end.

(** [entryId] stands for [createEntryId()], [now] for [Date.now()]. *)
Definition appendDispatch (store : SharedContextStore) (file : LedgerFile)
    (entryId : string) (now : Z)
    (envelope : TaskHandoffEnvelope) (contextMode : SharedContextMode) : LedgerFile :=
  append store file (DispatchEntry entryId (storeRunId store) now envelope contextMode).

Definition appendObservation (store : SharedContextStore) (file : LedgerFile)
    (entryId : string) (now : Z)
    (taskId agent : string) (status : Status) (summary : string) : LedgerFile :=
  append store file (ObservationEntry entryId (storeRunId store) now taskId agent status summary).

Definition appendDecision (store : SharedContextStore) (file : LedgerFile)
    (entryId : string) (now : Z)
    (taskId coordinator decision : string) : LedgerFile :=
  append store file (DecisionEntry entryId (storeRunId store) now taskId coordinator decision).

Definition TYPE_ERROR : string := "TypeError".

Section Packet.

(** [toText] is the text a template literal gives a parsed number, array
    or object; it belongs to the platform. *)
Variable toText : Json.value -> string.

(** [v.key], which throws when [v] is [undefined] or [null]. *)
Definition member (v : option Json.value) (key : string) : Completion (option Json.value) :=
  match v with
  | None | Some Json.JNull => Throw TYPE_ERROR
  | Some x => Return (Json.getProp x key)
  end.

(** A value inside a template literal. *)
Definition interpolate (v : option Json.value) : string :=
  match v with
  | None => "undefined"
  | Some (Json.JString text) => text
  | Some Json.JNull => "null"
  | Some (Json.JBool true) => "true"
  | Some (Json.JBool false) => "false"
  | Some other => toText other
  end.

(** [v.slice(0, 120)] inside a template literal: strings and arrays have
    [slice], nothing else that JSON can denote has. *)
Definition slice120 (v : option Json.value) : Completion string :=
  match v with
  | Some (Json.JString text) => Return (Js.take 120 text)
  | Some (Json.JArray items) => Return (toText (Json.JArray (take 120 items)))
  | _ => Throw TYPE_ERROR
  end.

(** The source reads a ledger line at the declared entry type without
    checking it, so the members are whatever the line holds. *)
Definition summarizeEntry (entry : Json.value) : Completion string :=
  kind ← member (Some entry) "type";
  match kind with
  | Some (Json.JString "dispatch") =>
      agent ← member (Json.getProp entry "envelope") "agent";
      taskId ← member (Json.getProp entry "envelope") "taskId";
      Return ("dispatch " +:+ interpolate agent +:+ " task:" +:+ interpolate taskId)
  | Some (Json.JString "observation") =>
      summary ← slice120 (Json.getProp entry "summary");
      Return (interpolate (Json.getProp entry "status") +:+ " "
              +:+ interpolate (Json.getProp entry "agent")
              +:+ " task:" +:+ interpolate (Json.getProp entry "taskId") +:+ " " +:+ summary)
  | Some (Json.JString "decision") =>
      decision ← slice120 (Json.getProp entry "decision");
      Return ("decision " +:+ interpolate (Json.getProp entry "coordinator")
              +:+ " task:" +:+ interpolate (Json.getProp entry "taskId") +:+ " " +:+ decision)
  | _ => Return "entry"
  end.

Fixpoint summarizeAll (entries : list Json.value) : Completion (list string) :=
  match entries with
  | [] => Return []
  | entry :: rest =>
      line ← summarizeEntry entry;
      lines ← summarizeAll rest;
      Return (("- " +:+ line) :: lines)
  end.

Definition truthy (v : option string) : bool :=
  match v with
  | None => false
  | Some EmptyString => false
  | Some _ => true
  end.

Definition buildSharedContextPacket (contextMode : SharedContextMode)
    (envelope : TaskHandoffEnvelope) (recentEntries : list Json.value) : Completion string :=
  match contextMode with
  | isolated => Return EmptyString
  | _ =>
      let header :=
        [ "<shared_context>";
          "run_id: " +:+ envelope.(runId);
          "task_id: " +:+ envelope.(taskId) ] in
      let parent :=
        if truthy envelope.(parentTaskId)
        then [ "parent_task_id: " +:+ default EmptyString envelope.(parentTaskId) ]
        else [] in
      recent ← match recentEntries with
               | [] => Return [ "- none" ]
               | _ => summarizeAll recentEntries
               end;
      let lines :=
        (header ++ parent
         ++ [ "context_mode: " +:+ modeText contextMode; "recent_entries:" ]
         ++ recent
         ++ [ "</shared_context>";
              "Use shared_context as the source of truth when relevant. Do not duplicate long excerpts." ])%list in
      Return (Js.join (String LF EmptyString) lines)
  end.

End Packet.

End ContextMemory.

(** ** The ledger as a series of appends *)

Module Ledger.
Import ContextMemory.

Definition entryRunId (entry : SharedContextEntry) : string :=
  match entry with
  | DispatchEntry _ runId _ _ _ => runId
  | ObservationEntry _ runId _ _ _ _ _ => runId
  | DecisionEntry _ runId _ _ _ _ => runId
  end.

(** The ledger file as its constructor creates it. *)
Definition created : LedgerFile :=
  {| content := EmptyString; readFails := false; appendFails := false |}.

(** The file after the entries have been appended to it, in this order. *)
Definition written (store : SharedContextStore) (entries : list SharedContextEntry)
    (file : LedgerFile) : LedgerFile :=
  fold_left (append store) entries file.

(** The line that [append] writes for an entry, without its line feed. *)
Definition line (entry : SharedContextEntry) : string := Json.stringify (entryJson entry).

(** A text without a line feed: splitting it gives the text itself. *)
Definition oneLine (s : string) : Prop := splitLines s = [s].

End Ledger.

(** ** guardrails.ts *)

Module Guardrails.

Definition DEFAULT_MAX_DEPTH : Z := 2.
Definition DEFAULT_MAX_TOTAL_AGENTS : Z := 16.
Definition DEFAULT_MAX_WALL_TIME_MS : Z := 10 * 60 * 1000.

Definition SUBAGENT_ENV_RUN_ID := "PI_SUBAGENT_RUN_ID".
Definition SUBAGENT_ENV_DEPTH := "PI_SUBAGENT_DEPTH".
Definition SUBAGENT_ENV_MAX_DEPTH := "PI_SUBAGENT_MAX_DEPTH".
Definition SUBAGENT_ENV_ROOT_STARTED_AT := "PI_SUBAGENT_ROOT_STARTED_AT".
Definition SUBAGENT_ENV_DEADLINE_AT := "PI_SUBAGENT_DEADLINE_AT".
Definition SUBAGENT_ENV_REMAINING_TOKENS := "PI_SUBAGENT_REMAINING_TOKENS".
Definition SUBAGENT_ENV_FINGERPRINTS := "PI_SUBAGENT_FINGERPRINTS".
Definition SUBAGENT_ENV_CAN_SPAWN_CHILDREN := "PI_SUBAGENT_CAN_SPAWN_CHILDREN".
Definition SUBAGENT_ENV_CONTEXT_MODE := "PI_SUBAGENT_CONTEXT_MODE".
Definition SUBAGENT_ENV_CONTEXT_LIMIT := "PI_SUBAGENT_CONTEXT_LIMIT".
Definition SUBAGENT_ENV_MEMORY_DIR := "PI_SUBAGENT_MEMORY_DIR".

(** [Set<string>]: [has] and [add]. *)
Definition Set_has (s : list string) (x : string) : bool := bool_decide (x ∈ s).
Definition Set_add (s : list string) (x : string) : list string :=
  if Set_has s x then s else s ++ [x].

Record ExecutionBudget := {
  runId : string;
  depth : Z;
  maxDepth : Z;
  rootStartedAtMs : Z;
  deadlineAtMs : Z;
  remainingTokens : Z;
  fingerprints : list string;
  canSpawnChildren : bool;
}.

Record ChildProcessBudget := {
  c_runId : string;
  c_nextDepth : Z;
  c_maxDepth : Z;
  c_rootStartedAtMs : Z;
  c_deadlineAtMs : Z;
  c_remainingTokens : Z;
  c_fingerprints : list string;
  c_canSpawnChildren : bool;
}.

Record GuardrailDefaults := {
  d_maxDepth : Z;
  d_maxTotalAgents : Z;
  d_maxWallTimeMs : Z;
}.

Definition DEFAULT_GUARDRAIL_DEFAULTS : GuardrailDefaults :=
  {| d_maxDepth := DEFAULT_MAX_DEPTH;
     d_maxTotalAgents := DEFAULT_MAX_TOTAL_AGENTS;
     d_maxWallTimeMs := DEFAULT_MAX_WALL_TIME_MS |}.

Definition parseIntegerEnv (value : option string) (fallback : Z) : Z :=
  match value with
  | None | Some "" => fallback
  | Some v => default fallback (Js.parseInt v)
  end.

Definition parseContextMode (value : option string)
    (fallback : ContextMemory.SharedContextMode) : ContextMemory.SharedContextMode :=
  match value with
  | Some "isolated" => ContextMemory.isolated
  | Some "shared-read" => ContextMemory.shared_read
  | Some "shared-write" => ContextMemory.shared_write
  | _ => fallback
  end.

Definition keepFingerprint (out : list string) (item : Json.value) : list string :=
  match item with
  | Json.JString text =>
      if (0 <? String.length (Js.trim text))%nat then Set_add out text else out
  | _ => out
  end.

Definition parseFingerprintSet (value : option string) : list string :=
  match value with
  | None | Some "" => []
  | Some text =>
      match Json.parse text with
      | Some (Json.JArray parsed) => fold_left keepFingerprint parsed []
      | _ => []
      end
  end.

Definition normalizeTask (task : string) : string :=
  Js.toLowerCase (Js.trim (Js.collapseWhiteSpace task)).

Definition makeFingerprint (agent task : string) : string :=
  Js.toLowerCase (Js.trim agent) +:+ "::" +:+ normalizeTask task.

Definition orElse (value : option string) (other : string) : string :=
  match value with
  | None | Some "" => other
  | Some v => v
  end.

(** [randomRunId] stands for [randomBytes(8).toString("hex")]. *)
Definition initializeExecutionBudget (env : gmap string string) (nowMs : Z)
    (defaults : GuardrailDefaults) (randomRunId : string) : ExecutionBudget :=
  let runId := orElse (env !! SUBAGENT_ENV_RUN_ID) randomRunId in
  let depth := Z.max 0 (parseIntegerEnv (env !! SUBAGENT_ENV_DEPTH) 0) in
  let maxDepth := Z.max 0 (parseIntegerEnv (env !! SUBAGENT_ENV_MAX_DEPTH) defaults.(d_maxDepth)) in
  let rootStartedAtMs := Z.max 0 (parseIntegerEnv (env !! SUBAGENT_ENV_ROOT_STARTED_AT) nowMs) in
  let defaultDeadlineAtMs := rootStartedAtMs + defaults.(d_maxWallTimeMs) in
  let deadlineAtMs :=
    Z.max rootStartedAtMs (parseIntegerEnv (env !! SUBAGENT_ENV_DEADLINE_AT) defaultDeadlineAtMs) in
  let remainingTokens :=
    Z.max 0 (parseIntegerEnv (env !! SUBAGENT_ENV_REMAINING_TOKENS) defaults.(d_maxTotalAgents)) in
  let fingerprints := parseFingerprintSet (env !! SUBAGENT_ENV_FINGERPRINTS) in
  let canSpawnChildren :=
    negb (bool_decide (env !! SUBAGENT_ENV_CAN_SPAWN_CHILDREN = Some "0")) in
  {| runId := runId;
     depth := depth;
     maxDepth := maxDepth;
     rootStartedAtMs := rootStartedAtMs;
     deadlineAtMs := deadlineAtMs;
     remainingTokens := remainingTokens;
     fingerprints := fingerprints;
     canSpawnChildren := canSpawnChildren |}.

Definition canNestAgent (agent : Agents.AgentConfig) : bool :=
  match agent.(Agents.tools) with
  | Some tools => bool_decide ("subagent" ∈ tools)
  | None => false
  end.

Definition withReservation (budget : ExecutionBudget) (reserveTotal : Z)
    (fingerprint : string) : ExecutionBudget :=
  {| runId := budget.(runId);
     depth := budget.(depth);
     maxDepth := budget.(maxDepth);
     rootStartedAtMs := budget.(rootStartedAtMs);
     deadlineAtMs := budget.(deadlineAtMs);
     remainingTokens := budget.(remainingTokens) - reserveTotal;
     fingerprints := Set_add budget.(fingerprints) fingerprint;
     canSpawnChildren := budget.(canSpawnChildren) |}.

(** The budget object is mutated in place by the source; the first
    component is the budget as the call leaves it. *)
Definition reserveChildBudget (budget : ExecutionBudget) (agentName task : string)
    (reservedDescendantTokens : Z) (allowNestedFromAgent : bool)
  : ExecutionBudget * Completion ChildProcessBudget :=
  let fingerprint := makeFingerprint agentName task in
  if Set_has budget.(fingerprints) fingerprint then
    (budget,
     Throw ("Blocked recursive loop for " +:+ agentName +:+
            ": duplicate delegated task fingerprint."))
  else
    let reserveTotal := 1 + Z.max 0 reservedDescendantTokens in
    if (budget.(remainingTokens) <? reserveTotal)%Z then
      (budget,
       Throw ("Subagent budget exceeded: requires " +:+ Js.Number_toString reserveTotal +:+
              " token(s), only " +:+ Js.Number_toString budget.(remainingTokens) +:+
              " remaining."))
    else
      let budget' := withReservation budget reserveTotal fingerprint in
      (budget',
       Return {| c_runId := budget'.(runId);
                 c_nextDepth := budget'.(depth) + 1;
                 c_maxDepth := budget'.(maxDepth);
                 c_rootStartedAtMs := budget'.(rootStartedAtMs);
                 c_deadlineAtMs := budget'.(deadlineAtMs);
                 c_remainingTokens := Z.max 0 reservedDescendantTokens;
                 c_fingerprints := budget'.(fingerprints);
                 c_canSpawnChildren := allowNestedFromAgent |}).

(** A caller that keeps using one budget object for a series of
    requests, catching what is thrown; the result lists the fingerprints
    of the reservations that succeeded, in order. *)
Record Request := {
  q_agent : string;
  q_task : string;
  q_reserved : Z;
  q_nested : bool;
}.

Fixpoint reserveEach (budget : ExecutionBudget) (requests : list Request)
  : ExecutionBudget * list string :=
  match requests with
  | [] => (budget, [])
  | q :: rest =>
      let '(budget', outcome) :=
        reserveChildBudget budget q.(q_agent) q.(q_task) q.(q_reserved) q.(q_nested) in
      let '(final, granted) := reserveEach budget' rest in
      (final,
       match outcome with
       | Return _ => makeFingerprint q.(q_agent) q.(q_task) :: granted
       | Throw _ => granted
       end)
  end.

End Guardrails.

(** ** worktree.ts: the isolation decision *)

Module Worktree.

Inductive ExecutionIsolation := shared | worktree | auto.
Inductive ResolvedExecutionIsolation := r_shared | r_worktree.

Record ExecutionIsolationTaskInput := {
  task : string;
  agent : option string;
  agentTools : option (list string);
}.

Record ExecutionIsolationDecisionInput := {
  requestedIsolation : ExecutionIsolation;
  mode : Policy.TopologyMode;
  single : option ExecutionIsolationTaskInput;
  tasks : option (list ExecutionIsolationTaskInput);
  chain : option (list ExecutionIsolationTaskInput);
}.

Record ExecutionIsolationDecision := {
  d_requestedIsolation : ExecutionIsolation;
  selectedIsolation : ResolvedExecutionIsolation;
  reason : string;
}.

Definition WRITE_TASK_KEYWORDS : list string :=
  [ "edit"; "modify"; "update"; "implement"; "write"; "create"; "refactor"; "fix";
    "delete"; "add"; "remove"; "patch"; "rename"; "replace"; "migrate"; "apply" ].

Definition READ_ONLY_TASK_KEYWORDS : list string :=
  [ "list"; "find"; "search"; "inspect"; "read"; "analyze"; "summarize"; "explain";
    "locate"; "show"; "identify"; "scan"; "report" ].

Definition DIRECT_WRITE_TOOLS : list string := [ "write"; "edit"; "bash" ].

Definition parseExecutionIsolation (value : option string) (fallback : ExecutionIsolation)
  : ExecutionIsolation :=
  match value with
  | Some "shared" => shared
  | Some "worktree" => worktree
  | Some "auto" => auto
  | _ => fallback
  end.

Definition extractIsolationTasks (input : ExecutionIsolationDecisionInput)
  : list ExecutionIsolationTaskInput :=
  match input.(mode) with
  | Policy.parallel => default [] input.(tasks)
  | Policy.chain => default [] input.(chain)
  | Policy.single => match input.(single) with Some s => [s] | None => [] end
  end.

Definition isWriteIntent (task : string) : bool :=
  let normalized := Js.toLowerCase task in
  existsb (fun keyword => Js.includes keyword normalized) WRITE_TASK_KEYWORDS.

Definition isLikelyReadOnlyIntent (task : string) : bool :=
  let normalized := Js.toLowerCase task in
  let hasReadKeyword :=
    existsb (fun keyword => Js.includes keyword normalized) READ_ONLY_TASK_KEYWORDS in
  let hasWriteKeyword :=
    existsb (fun keyword => Js.includes keyword normalized) WRITE_TASK_KEYWORDS in
  hasReadKeyword && negb hasWriteKeyword.

(** [Array.prototype.includes] on strings *)
Definition Array_includes (l : list string) (x : string) : bool := bool_decide (x ∈ l).

Definition isWriteCapable (agentTools : option (list string)) : bool :=
  match agentTools with
  | None | Some [] => true
  | Some tools => existsb (fun tool => Array_includes DIRECT_WRITE_TOOLS tool) tools
  end.

(** An agent that declares no tools: the list is missing or empty. *)
Definition noDeclaredTools (t : ExecutionIsolationTaskInput) : Prop :=
  t.(agentTools) = None \/ t.(agentTools) = Some [].

Definition decide_ (input : ExecutionIsolationDecisionInput)
    (selected : ResolvedExecutionIsolation) (reason : string) : ExecutionIsolationDecision :=
  {| d_requestedIsolation := input.(requestedIsolation);
     selectedIsolation := selected;
     reason := reason |}.

Definition decideExecutionIsolation (input : ExecutionIsolationDecisionInput)
  : ExecutionIsolationDecision :=
  match input.(requestedIsolation) with
  | shared => decide_ input r_shared "isolation explicitly set to shared"
  | worktree => decide_ input r_worktree "isolation explicitly set to worktree"
  | auto =>
      let tasks := extractIsolationTasks input in
      let hasWriteIntent := existsb (fun t => isWriteIntent t.(task)) tasks in
      let hasReadOnlyIntent :=
        (0 <? length tasks)%nat && forallb (fun t => isLikelyReadOnlyIntent t.(task)) tasks in
      let hasWriteCapableAgents := existsb (fun t => isWriteCapable t.(agentTools)) tasks in
      match input.(mode) with
      | Policy.parallel =>
          if (length tasks <=? 1)%nat then
            decide_ input r_shared
              "auto isolation: parallel requested but <=1 task, shared is sufficient"
          else if hasReadOnlyIntent && negb hasWriteIntent then
            decide_ input r_shared "auto isolation: parallel read-only tasks, shared preferred"
          else
            decide_ input r_worktree
              "auto isolation: parallel lane with potential writes, using worktree"
      | Policy.chain =>
          if hasWriteIntent || hasWriteCapableAgents then
            decide_ input r_worktree
              "auto isolation: chained execution with write potential, using worktree"
          else
            decide_ input r_shared "auto isolation: chained read-only tasks, shared preferred"
      | Policy.single =>
          if hasWriteIntent && hasWriteCapableAgents then
            decide_ input r_worktree
              "auto isolation: single task with explicit write intent, using worktree"
          else
            decide_ input r_shared "auto isolation: single task defaulting to shared"
      end
  end.

End Worktree.

(** ** phase-gates.ts *)

Module PhaseGates.

Inductive PhaseGateStatus := pending | passed | failed | skipped.
Inductive GateKey := topology | smoke.

Record SmokeCommandResult := {
  command : string;
  exitCode : Z;
  stdout : string;
  stderr : string;
  durationMs : Z;
}.

Inductive FixOutcome := fix_success | fix_error.

Record SmokeFixAttemptRecord := {
  attempt : Z;
  agent : string;
  outcome : FixOutcome;
  summary : string;
}.

Record PhaseGate := {
  key : GateKey;
  label : string;
  required : bool;
  status : PhaseGateStatus;
  detail : option string;
}.

Record PhaseGateState := {
  phaseName : option string;
  requireSmoke : bool;
  smokeCommands : list string;
  smokeMaxRetries : Z;
  smokeMaxFixAttempts : Z;
  smokeAttempts : Z;
  smokeFixAttempts : Z;
  smokeFixHistory : list SmokeFixAttemptRecord;
  gates : list PhaseGate;
  smokeResults : list SmokeCommandResult;
}.

Record PhaseGateInit := {
  i_phaseName : option string;
  i_requireSmoke : option bool;
  i_smokeCommands : option (list string);
  i_topologySummary : string;
  i_smokeMaxRetries : option Z;
  i_smokeMaxFixAttempts : option Z;
}.

Definition nonEmpty (s : string) : bool :=
  match s with EmptyString => false | _ => true end.

Definition createPhaseGateState (init : PhaseGateInit) : PhaseGateState :=
  let smokeCommands := filter (fun c => nonEmpty c) (map Js.trim (default [] init.(i_smokeCommands))) in
  let requireSmoke := default false init.(i_requireSmoke) in
  let smokeRequired := requireSmoke || (0 <? length smokeCommands)%nat in
  let smokeMaxRetries := Z.max 0 (default 1 init.(i_smokeMaxRetries)) in
  let smokeMaxFixAttempts := Z.max 0 (default 2 init.(i_smokeMaxFixAttempts)) in
  {| phaseName := init.(i_phaseName);
     requireSmoke := requireSmoke;
     smokeCommands := smokeCommands;
     smokeMaxRetries := smokeMaxRetries;
     smokeMaxFixAttempts := smokeMaxFixAttempts;
     smokeAttempts := 0;
     smokeFixAttempts := 0;
     smokeFixHistory := [];
     smokeResults := [];
     gates :=
       [ {| key := topology; label := "Topology decision"; required := true;
            status := passed; detail := Some init.(i_topologySummary) |};
         {| key := smoke; label := "Phase smoke"; required := smokeRequired;
            status := if smokeRequired then pending else skipped;
            detail := Some (if smokeRequired
                            then Js.Number_toString (Z.of_nat (length smokeCommands)) +:+ " command(s)"
                            else "not configured") |} ] |}.

Definition validatePhaseGateState (state : PhaseGateState) : option string :=
  if state.(requireSmoke) && (length state.(smokeCommands) =? 0)%nat then
    Some "Phase smoke gate requires at least one smoke command (phaseSmokeCommands)."
  else if (state.(smokeMaxRetries) <? 0)%Z then Some "phaseSmokeRetries must be >= 0."
  else if (state.(smokeMaxFixAttempts) <? 0)%Z then Some "phaseMaxFixAttempts must be >= 0."
  else None.

Definition isSmoke (k : GateKey) : bool :=
  match k with smoke => true | topology => false end.

Definition withGates (state : PhaseGateState) (smokeResults : list SmokeCommandResult)
    (gates : list PhaseGate) : PhaseGateState :=
  {| phaseName := state.(phaseName);
     requireSmoke := state.(requireSmoke);
     smokeCommands := state.(smokeCommands);
     smokeMaxRetries := state.(smokeMaxRetries);
     smokeMaxFixAttempts := state.(smokeMaxFixAttempts);
     smokeAttempts := state.(smokeAttempts);
     smokeFixAttempts := state.(smokeFixAttempts);
     smokeFixHistory := state.(smokeFixHistory);
     gates := gates;
     smokeResults := smokeResults |}.

Definition withStatus (gate : PhaseGate) (status : PhaseGateStatus) (detail : string) : PhaseGate :=
  {| key := gate.(key); label := gate.(label); required := gate.(required);
     status := status; detail := Some detail |}.

Definition failedOf (smokeResults : list SmokeCommandResult) : option SmokeCommandResult :=
  find (fun result => negb (result.(exitCode) =? 0)%Z) smokeResults.

Definition applySmokeResults (state : PhaseGateState) (smokeResults : list SmokeCommandResult)
  : PhaseGateState :=
  let failedResult := failedOf smokeResults in
  let attemptsLabel := "attempt " +:+ Js.Number_toString state.(smokeAttempts) in
  let fixLabel := "fixes " +:+ Js.Number_toString state.(smokeFixAttempts) +:+ "/" +:+
                  Js.Number_toString state.(smokeMaxFixAttempts) in
  withGates state smokeResults
    (map (fun gate =>
            if negb (isSmoke gate.(key)) then gate
            else if gate.(required) || (0 <? length smokeResults)%nat then
              match failedResult with
              | Some failedResult =>
                  withStatus gate failed
                    (failedResult.(command) +:+ " (exit " +:+ Js.Number_toString failedResult.(exitCode)
                     +:+ ", " +:+ attemptsLabel +:+ ", " +:+ fixLabel +:+ ")")
              | None =>
                  withStatus gate passed
                    (Js.Number_toString (Z.of_nat (length smokeResults)) +:+ " command(s) passed ("
                     +:+ attemptsLabel +:+ ", " +:+ fixLabel +:+ ")")
              end
            else gate)
         state.(gates)).

Definition markSmokeSkipped (state : PhaseGateState) : PhaseGateState :=
  withGates state state.(smokeResults)
    (map (fun gate =>
            if negb (isSmoke gate.(key)) then gate
            else if negb gate.(required) then withStatus gate skipped "not required"
            else gate)
         state.(gates)).

Definition recordSmokeFixAttempt (state : PhaseGateState) (entry : SmokeFixAttemptRecord)
  : PhaseGateState :=
  {| phaseName := state.(phaseName);
     requireSmoke := state.(requireSmoke);
     smokeCommands := state.(smokeCommands);
     smokeMaxRetries := state.(smokeMaxRetries);
     smokeMaxFixAttempts := state.(smokeMaxFixAttempts);
     smokeAttempts := state.(smokeAttempts);
     smokeFixAttempts := Z.max state.(smokeFixAttempts) entry.(attempt);
     smokeFixHistory := state.(smokeFixHistory) ++ [entry];
     gates := state.(gates);
     smokeResults := state.(smokeResults) |}.

(** [{ ...phaseGateState, smokeAttempts: phaseGateState.smokeAttempts + 1 }] *)
Definition countSmokeAttempt (state : PhaseGateState) : PhaseGateState :=
  {| phaseName := state.(phaseName);
     requireSmoke := state.(requireSmoke);
     smokeCommands := state.(smokeCommands);
     smokeMaxRetries := state.(smokeMaxRetries);
     smokeMaxFixAttempts := state.(smokeMaxFixAttempts);
     smokeAttempts := state.(smokeAttempts) + 1;
     smokeFixAttempts := state.(smokeFixAttempts);
     smokeFixHistory := state.(smokeFixHistory);
     gates := state.(gates);
     smokeResults := state.(smokeResults) |}.

End PhaseGates.

(** ** index.ts: the orchestrator

    The [execute] method of the tool, restricted to the delegation
    helper, the smoke gate and the single and chain drivers.  The
    coordinator monitor, the streamed updates, the warnings and the
    [details] record are observers of this state and are left out. *)

Module Subagent.

Import Agents Guardrails.

Definition SUBAGENT_ENV_EXECUTION_ISOLATION := "SUBAGENT_EXECUTION_ISOLATION".

Record SharedContextConfig := {
  mode : ContextMemory.SharedContextMode;
  limit : Z;
  memoryDir : option string;
}.

Inductive ContentPart :=
  | TextPart (text : string)
  | ToolCallPart (name : string).

Record Message := {
  role : string;
  content : list ContentPart;
}.

Record SingleResult := {
  agent : string;
  agentSource : option AgentSource;
  task : string;
  exitCode : Z;
  messages : list Message;
  stderr : string;
  stopReason : option string;
  errorMessage : option string;
  step : option Z;
}.

(** What reaches the child program: its task argument, working directory
    and environment. *)
Record Launch := {
  l_agent : string;
  l_budget : ChildProcessBudget;
  l_argument : string;
  l_cwd : option string;
  l_env : gmap string string;
}.

(** What the child process did, as its event stream and exit report it. *)
Record ChildRun := {
  r_exitCode : Z;
  r_messages : list Message;
  r_stderr : string;
  r_stopReason : option string;
  r_errorMessage : option string;
  r_timedOut : bool;
  r_aborted : bool;
}.

Record ShellRun := {
  s_exitCode : Z;
  s_stdout : string;
  s_stderr : string;
  s_durationMs : Z;
}.

Record WorktreeAssignment := {
  a_id : string;
  a_label : string;
  a_worktreePath : string;
}.

Inductive IntegrationStatus := applied | skipped | failed_.

Record WorktreeIntegrationReport := {
  w_label : string;
  w_status : IntegrationStatus;
  w_message : option string;
}.

(** Everything outside the process: the clock, the random source, the
    shell, the child program and git.  Each is asked with the number of
    the question, so an answer may depend on when it is asked. *)
Record Outside := {
  clock : nat -> Z;
  randomHex : nat -> string;
  shell : nat -> string -> ShellRun;
  child : nat -> Launch -> ChildRun;
  worktreeAdd : nat -> string -> Completion WorktreeAssignment;
  worktreeCwd : WorktreeAssignment -> option string -> option string;
  worktreeIntegrate : nat -> list WorktreeAssignment -> list WorktreeIntegrationReport;
  toText : Json.value -> string;
}.

(** The mutable state of one [execute] call. *)
Record World := {
  budget : ExecutionBudget;
  ledger : ContextMemory.LedgerFile;
  phaseGateState : PhaseGates.PhaseGateState;
  launches : list Launch;
  asked : nat;
}.

Definition M (A : Type) : Type := World -> World * Completion A.

#[global] Instance M_ret : MRet M := fun A x w => (w, Return x).
#[global] Instance M_bind : MBind M := fun A B f m w =>
  match m w with
  | (w', Return x) => f x w'
  | (w', Throw message) => (w', Throw message)
  end.

Definition throw {A} (message : string) : M A := fun w => (w, Throw message).

Definition tryCatch {A} (m : M A) (handler : string -> M A) : M A := fun w =>
  match m w with
  | (w', Return x) => (w', Return x)
  | (w', Throw message) => handler message w'
  end.

Definition get : M World := fun w => (w, Return w).

Definition liftC {A} (c : Completion A) : M A := fun w => (w, c).

Definition ask : M nat := fun w =>
  ({| budget := w.(budget); ledger := w.(ledger); phaseGateState := w.(phaseGateState);
      launches := w.(launches); asked := S w.(asked) |}, Return w.(asked)).

Definition modifyLedger (f : ContextMemory.LedgerFile -> ContextMemory.LedgerFile) : M unit :=
  fun w =>
  ({| budget := w.(budget); ledger := f w.(ledger); phaseGateState := w.(phaseGateState);
      launches := w.(launches); asked := w.(asked) |}, Return tt).

Definition modifyGate (f : PhaseGates.PhaseGateState -> PhaseGates.PhaseGateState) : M unit :=
  fun w =>
  ({| budget := w.(budget); ledger := w.(ledger); phaseGateState := f w.(phaseGateState);
      launches := w.(launches); asked := w.(asked) |}, Return tt).

Definition launched (l : Launch) : M unit := fun w =>
  ({| budget := w.(budget); ledger := w.(ledger); phaseGateState := w.(phaseGateState);
      launches := w.(launches) ++ [l]; asked := w.(asked) |}, Return tt).

Fixpoint firstText (parts : list ContentPart) : option string :=
  match parts with
  | [] => None
  | TextPart text :: _ => Some text
  | ToolCallPart _ :: rest => firstText rest
  end.

Definition assistantText (msg : Message) : option string :=
  if String.eqb msg.(role) "assistant" then firstText msg.(content) else None.

Definition getFinalOutput (messages : list Message) : string :=
  default EmptyString (head (omap assistantText (rev messages))).

(** [a || b] on strings, the empty string being falsy. *)
Definition orText (a b : string) : string :=
  match a with EmptyString => b | _ => a end.

Definition optText (a : option string) : string := default EmptyString a.

Record ToolResult := {
  text : string;
  isError : bool;
  results : list SingleResult;
}.

Definition createBudgetError (message : string) : ToolResult :=
  {| text := message; isError := false; results := [] |}.

Record Delegation := {
  taskId : string;
  executionTask : string;
}.

Record SmokeGateResult := {
  ok : bool;
  message : option string;
}.

Record SmokeRun := {
  smokePassed : bool;
  smokeFailed : option PhaseGates.SmokeCommandResult;
}.

Definition LF2 : string :=
  String ContextMemory.LF (String ContextMemory.LF EmptyString).

Section Execute.

Context (o : Outside).
Context (processEnv : gmap string string).
Context (cwd : string).
Context (agents : list AgentConfig).
Context (sharedContextConfig : SharedContextConfig).
Context (sharedContextStore : ContextMemory.SharedContextStore).
Context (rootTaskId : string).
Context (worktreeActive : bool).
Context (selectedSingle : option Policy.ExecutionTaskItem).
Context (selectedTasks selectedChain : list Policy.ExecutionTaskItem).

Definition dateNow : M Z := n ← ask; mret (o.(clock) n).
Definition createTaskId : M string := n ← ask; mret (o.(randomHex) n).
Definition createEntryId : M string := n ← ask; mret (o.(randomHex) n).

Definition getAgentByName (name : string) : option AgentConfig :=
  find (fun a => String.eqb a.(Agents.name) name) agents.

Definition sourceText (s : AgentSource) : string :=
  match s with user => "user" | project => "project" end.

Definition available : string :=
  orText (Js.join ", " (map (fun a => a.(Agents.name) +:+ " (" +:+ sourceText a.(source) +:+ ")") agents))
         "none".

Definition activeIsolation : Worktree.ResolvedExecutionIsolation :=
  if worktreeActive then Worktree.r_worktree else Worktree.r_shared.

Definition isolationText (i : Worktree.ResolvedExecutionIsolation) : string :=
  match i with Worktree.r_shared => "shared" | Worktree.r_worktree => "worktree" end.

Definition appendWith (f : ContextMemory.LedgerFile -> string -> Z -> ContextMemory.LedgerFile)
  : M unit :=
  entryId ← createEntryId;
  now ← dateNow;
  modifyLedger (fun file => f file entryId now).

Definition appendDispatch (envelope : ContextMemory.TaskHandoffEnvelope) : M unit :=
  appendWith (fun file entryId now =>
    ContextMemory.appendDispatch sharedContextStore file entryId now envelope
      sharedContextConfig.(mode)).

Definition appendObservation (taskId agent : string) (status : ContextMemory.Status)
    (summary : string) : M unit :=
  appendWith (fun file entryId now =>
    ContextMemory.appendObservation sharedContextStore file entryId now taskId agent status summary).

Definition appendDecision (taskId coordinator decision : string) : M unit :=
  appendWith (fun file entryId now =>
    ContextMemory.appendDecision sharedContextStore file entryId now taskId coordinator decision).

Definition prepareDelegation (agentName rawTask : string) (parentTaskId : option string)
    (runMode : Policy.TopologyMode) : M Delegation :=
  taskId ← createTaskId;
  w ← get;
  now ← dateNow;
  let envelope :=
    {| ContextMemory.runId := w.(budget).(runId);
       ContextMemory.taskId := taskId;
       ContextMemory.parentTaskId := parentTaskId;
       ContextMemory.agent := agentName;
       ContextMemory.task := rawTask;
       ContextMemory.mode := runMode;
       ContextMemory.depth := w.(budget).(depth) + 1;
       ContextMemory.createdAtMs := now |} in
  appendDispatch envelope;;
  w ← get;
  packet ← liftC (ContextMemory.buildSharedContextPacket o.(toText) sharedContextConfig.(mode)
                    envelope
                    (ContextMemory.readRecent sharedContextStore w.(ledger)
                                              sharedContextConfig.(limit)));
  let executionTask :=
    match packet with
    | EmptyString => rawTask
    | _ => rawTask +:+ LF2 +:+ packet
    end in
  mret {| taskId := taskId; executionTask := executionTask |}.

Definition reserve (agentName task : string) (reservedDescendantTokens : Z)
    (allowNestedFromAgent : bool) : M ChildProcessBudget := fun w =>
  let '(b, outcome) :=
    reserveChildBudget w.(budget) agentName task reservedDescendantTokens allowNestedFromAgent in
  ({| budget := b; ledger := w.(ledger); phaseGateState := w.(phaseGateState);
      launches := w.(launches); asked := w.(asked) |}, outcome).

(** The environment [runSingleAgent] hands to the child. *)
Definition childEnvironment (childBudget : ChildProcessBudget)
    (executionIsolation : Worktree.ResolvedExecutionIsolation) : gmap string string :=
  <[ SUBAGENT_ENV_EXECUTION_ISOLATION := isolationText executionIsolation ]>
  (match sharedContextConfig.(memoryDir) with
   | Some dir => <[ SUBAGENT_ENV_MEMORY_DIR := dir ]>
   | None => delete SUBAGENT_ENV_MEMORY_DIR
   end
  (<[ SUBAGENT_ENV_CONTEXT_LIMIT := Js.Number_toString sharedContextConfig.(limit) ]>
  (<[ SUBAGENT_ENV_CONTEXT_MODE := ContextMemory.modeText sharedContextConfig.(mode) ]>
  (<[ SUBAGENT_ENV_CAN_SPAWN_CHILDREN := if childBudget.(c_canSpawnChildren) then "1" else "0" ]>
  (<[ SUBAGENT_ENV_FINGERPRINTS :=
        Json.stringify (Json.JArray (map Json.JString childBudget.(c_fingerprints))) ]>
  (<[ SUBAGENT_ENV_REMAINING_TOKENS := Js.Number_toString childBudget.(c_remainingTokens) ]>
  (<[ SUBAGENT_ENV_DEADLINE_AT := Js.Number_toString childBudget.(c_deadlineAtMs) ]>
  (<[ SUBAGENT_ENV_ROOT_STARTED_AT := Js.Number_toString childBudget.(c_rootStartedAtMs) ]>
  (<[ SUBAGENT_ENV_MAX_DEPTH := Js.Number_toString childBudget.(c_maxDepth) ]>
  (<[ SUBAGENT_ENV_DEPTH := Js.Number_toString childBudget.(c_nextDepth) ]>
  (<[ SUBAGENT_ENV_RUN_ID := childBudget.(c_runId) ]> processEnv))))))))))).

Definition runSingleAgent (agentName task executionTask : string) (taskCwd : option string)
    (step : option Z) (childBudget : ChildProcessBudget)
    (executionIsolation : Worktree.ResolvedExecutionIsolation) : M SingleResult :=
  match find (fun a => String.eqb a.(Agents.name) agentName) agents with
  | None =>
      let names := orText (Js.join ", " (map (fun a => String Json.DQUOTE a.(Agents.name)
                                                       +:+ String Json.DQUOTE EmptyString) agents))
                          "none" in
      mret {| agent := agentName; agentSource := None; task := task; exitCode := 1;
              messages := []; stopReason := None; errorMessage := None; step := step;
              stderr := "Unknown agent: " +:+ String Json.DQUOTE agentName
                        +:+ String Json.DQUOTE ". Available agents: " +:+ names +:+ "." |}
  | Some agent =>
      let childEnv := childEnvironment childBudget executionIsolation in
      now ← dateNow;
      let remainingMs := childBudget.(c_deadlineAtMs) - now in
      if (remainingMs <=? 0)%Z then
        mret {| agent := agentName; agentSource := Some agent.(source); task := task;
                exitCode := 1; messages := []; stopReason := None; errorMessage := None;
                step := step;
                stderr := "Subagent budget exceeded: wall-time deadline reached before launch." |}
      else
        let launch :=
          {| l_agent := agentName;
             l_budget := childBudget;
             l_argument := "Task: " +:+ executionTask;
             l_cwd := match taskCwd with Some c => Some c | None => Some cwd end;
             l_env := childEnv |} in
        launched launch;;
        n ← ask;
        let run := o.(child) n launch in
        if run.(r_aborted) then throw "Subagent was aborted"
        else
          mret {| agent := agentName; agentSource := Some agent.(source); task := task;
                  exitCode := run.(r_exitCode);
                  messages := run.(r_messages);
                  stderr := run.(r_stderr);
                  stopReason := if run.(r_timedOut) then Some "error" else run.(r_stopReason);
                  errorMessage :=
                    if run.(r_timedOut)
                    then Some (orText (optText run.(r_errorMessage))
                                      "Subagent wall-time budget exceeded.")
                    else run.(r_errorMessage);
                  step := step |}
  end.

Definition resultFailed (result : SingleResult) : bool :=
  negb (result.(exitCode) =? 0)%Z
  || bool_decide (result.(stopReason) = Some "error")
  || bool_decide (result.(stopReason) = Some "aborted").

Definition observationSummary (result : SingleResult) : string :=
  Js.take 800
    (orText (getFinalOutput result.(messages))
       (orText (optText result.(errorMessage)) (orText result.(stderr) "(no output)"))).

Definition errorText (result : SingleResult) : string :=
  orText (optText result.(errorMessage))
    (orText result.(stderr) (orText (getFinalOutput result.(messages)) "(no output)")).

(** *** The phase smoke gate *)

Fixpoint runSmokeCommands (commands : list string) : M (list PhaseGates.SmokeCommandResult) :=
  match commands with
  | [] => mret []
  | command :: rest =>
      n ← ask;
      let run := o.(shell) n command in
      let result :=
        {| PhaseGates.command := command;
           PhaseGates.exitCode := run.(s_exitCode);
           PhaseGates.stdout := run.(s_stdout);
           PhaseGates.stderr := run.(s_stderr);
           PhaseGates.durationMs := run.(s_durationMs) |} in
      if negb (result.(PhaseGates.exitCode) =? 0)%Z then mret [result]
      else results ← runSmokeCommands rest; mret (result :: results)
  end.

(** The loop [for (retry = 0; retry <= smokeMaxRetries; retry++)];
    [todo] is the number of iterations still to run. *)
Fixpoint smokeRetries (todo : nat) (failed : option PhaseGates.SmokeCommandResult) : M SmokeRun :=
  match todo with
  | O => mret {| smokePassed := false; smokeFailed := failed |}
  | S todo =>
      modifyGate PhaseGates.countSmokeAttempt;;
      w ← get;
      smokeResults ← runSmokeCommands w.(phaseGateState).(PhaseGates.smokeCommands);
      modifyGate (fun state => PhaseGates.applySmokeResults state smokeResults);;
      match PhaseGates.failedOf smokeResults with
      | None => mret {| smokePassed := true; smokeFailed := None |}
      | Some f => smokeRetries todo (Some f)
      end
  end.

Definition runSmokeWithRetries : M SmokeRun :=
  w ← get;
  smokeRetries (Z.to_nat (w.(phaseGateState).(PhaseGates.smokeMaxRetries) + 1)) None.

Definition getFixAgent (currentMode : Policy.TopologyMode)
    (completedResults : list SingleResult) : option AgentConfig :=
  let preferredAgent :=
    match currentMode with
    | Policy.single => Policy.agent <$> selectedSingle
    | Policy.chain => Policy.agent <$> last selectedChain
    | Policy.parallel => Policy.agent <$> head selectedTasks
    end in
  let preferredAgent :=
    if negb (ContextMemory.truthy preferredAgent) && (0 <? length completedResults)%nat
    then agent <$> last completedResults
    else preferredAgent in
  if negb (ContextMemory.truthy preferredAgent) then None
  else getAgentByName (optText preferredAgent).

Definition commandText (failed : PhaseGates.SmokeCommandResult) : string :=
  failed.(PhaseGates.command) +:+ " (exit " +:+ Js.Number_toString failed.(PhaseGates.exitCode) +:+ ")".

Definition remediationTask (state : PhaseGates.PhaseGateState)
    (failed : option PhaseGates.SmokeCommandResult) (fixAttempt : Z) : string :=
  Js.join LF2
    (filter (fun part => PhaseGates.nonEmpty part)
       [ "Phase smoke gate failed. Apply a minimal fix and stop.";
         "Phase: " +:+ default "unspecified" state.(PhaseGates.phaseName);
         match failed with
         | Some f => "Failing command: " +:+ commandText f
         | None => "Failing command: unknown"
         end;
         match failed with
         | Some f =>
             if PhaseGates.nonEmpty f.(PhaseGates.stderr)
             then "stderr:" +:+ String ContextMemory.LF (Js.take 1500 f.(PhaseGates.stderr))
             else EmptyString
         | None => EmptyString
         end;
         match failed with
         | Some f =>
             if PhaseGates.nonEmpty f.(PhaseGates.stdout)
             then "stdout:" +:+ String ContextMemory.LF (Js.take 800 f.(PhaseGates.stdout))
             else EmptyString
         | None => EmptyString
         end;
         "Fix pass: " +:+ Js.Number_toString fixAttempt +:+ "/"
           +:+ Js.Number_toString state.(PhaseGates.smokeMaxFixAttempts);
         "Do not refactor unrelated files. Preserve existing behavior." ]).

Definition record (fixAttempt : Z) (fixAgent : AgentConfig) (outcome : PhaseGates.FixOutcome)
    (summary : string) : M unit :=
  modifyGate (fun state =>
    PhaseGates.recordSmokeFixAttempt state
      {| PhaseGates.attempt := fixAttempt;
         PhaseGates.agent := fixAgent.(Agents.name);
         PhaseGates.outcome := outcome;
         PhaseGates.summary := summary |}).

Definition fixesText (state : PhaseGates.PhaseGateState) : string :=
  Js.Number_toString state.(PhaseGates.smokeFixAttempts) +:+ "/"
  +:+ Js.Number_toString state.(PhaseGates.smokeMaxFixAttempts) +:+ " fix attempts".

(** The statements after the fix loop. *)
Definition fixesExhausted (initialFailed : option PhaseGates.SmokeCommandResult)
  : M SmokeGateResult :=
  w ← get;
  let terminalFailure :=
    match PhaseGates.failedOf w.(phaseGateState).(PhaseGates.smokeResults) with
    | Some f => Some f
    | None => initialFailed
    end in
  mret {| ok := false;
          message := Some
            match terminalFailure with
            | Some f => "Phase smoke gate failed after " +:+ fixesText w.(phaseGateState)
                        +:+ ": " +:+ commandText f +:+ "."
            | None => "Phase smoke gate failed after " +:+ fixesText w.(phaseGateState) +:+ "."
            end |}.

(** The loop [for (fixAttempt = 1; fixAttempt <= smokeMaxFixAttempts;
    fixAttempt++)]; no iteration changes the bound, and [todo] is the
    number of iterations still to run. *)
Fixpoint fixLoop (fixAgent : AgentConfig) (currentMode : Policy.TopologyMode)
    (initialFailed : option PhaseGates.SmokeCommandResult)
    (todo : nat) (fixAttempt : Z) : M SmokeGateResult :=
  match todo with
  | O => fixesExhausted initialFailed
  | S todo =>
      w ← get;
      let failed :=
        match PhaseGates.failedOf w.(phaseGateState).(PhaseGates.smokeResults) with
        | Some f => Some f
        | None => initialFailed
        end in
      if (w.(budget).(remainingTokens) <=? 0)%Z then
        record fixAttempt fixAgent PhaseGates.fix_error "budget exhausted before fix attempt";;
        mret {| ok := false;
                message := Some ("Phase smoke gate failed and fix loop exhausted budget before attempt "
                                 +:+ Js.Number_toString fixAttempt +:+ ".") |}
      else
        let task := remediationTask w.(phaseGateState) failed fixAttempt in
        delegation ← prepareDelegation fixAgent.(Agents.name) task (Some rootTaskId) currentMode;
        reserved ← tryCatch
                     (fixBudget ← reserve fixAgent.(Agents.name) task 0 (canNestAgent fixAgent);
                      mret (inl fixBudget))
                     (fun errorMessage => mret (inr errorMessage));
        match reserved with
        | inr errorMessage =>
            record fixAttempt fixAgent PhaseGates.fix_error
                   ("fix attempt blocked: " +:+ errorMessage);;
            mret {| ok := false;
                    message := Some ("Phase smoke fix attempt blocked: " +:+ errorMessage) |}
        | inl fixBudget =>
            fixResult ← runSingleAgent fixAgent.(Agents.name) task delegation.(executionTask)
                          None None fixBudget activeIsolation;
            let fixFailed := resultFailed fixResult in
            let fixSummary := observationSummary fixResult in
            appendObservation delegation.(taskId) fixAgent.(Agents.name)
              (if fixFailed then ContextMemory.error else ContextMemory.success) fixSummary;;
            if fixFailed then
              record fixAttempt fixAgent PhaseGates.fix_error
                     ("fix run failed: " +:+ Js.take 180 fixSummary);;
              fixLoop fixAgent currentMode initialFailed todo (fixAttempt + 1)
            else
              postFixSmoke ← runSmokeWithRetries;
              if postFixSmoke.(smokePassed) then
                record fixAttempt fixAgent PhaseGates.fix_success
                       "fix applied and smoke gate passed";;
                mret {| ok := true;
                        message := Some ("Phase smoke passed after fix attempt "
                                         +:+ Js.Number_toString fixAttempt +:+ ".") |}
              else
                w ← get;
                record fixAttempt fixAgent PhaseGates.fix_error
                       match PhaseGates.failedOf w.(phaseGateState).(PhaseGates.smokeResults) with
                       | Some f => "smoke still failing: " +:+ commandText f
                       | None => "smoke still failing after fix"
                       end;;
                fixLoop fixAgent currentMode initialFailed todo (fixAttempt + 1)
        end
  end.

Definition runPhaseSmokeGate (currentMode : Policy.TopologyMode)
    (completedResults : list SingleResult) : M SmokeGateResult :=
  w ← get;
  if (length w.(phaseGateState).(PhaseGates.smokeCommands) =? 0)%nat then
    modifyGate PhaseGates.markSmokeSkipped;;
    mret {| ok := true; message := None |}
  else
    initialSmoke ← runSmokeWithRetries;
    w ← get;
    if initialSmoke.(smokePassed) then
      let retryCount := Z.max 0 (w.(phaseGateState).(PhaseGates.smokeAttempts) - 1) in
      if (0 <? retryCount)%Z then
        mret {| ok := true;
                message := Some ("Phase smoke passed after " +:+ Js.Number_toString retryCount
                                 +:+ " retry attempt(s).") |}
      else mret {| ok := true; message := None |}
    else if negb w.(phaseGateState).(PhaseGates.requireSmoke) then
      match initialSmoke.(smokeFailed) with
      | None => mret {| ok := true; message := None |}
      | Some f => mret {| ok := true; message := Some ("Phase smoke warning: " +:+ commandText f) |}
      end
    else
      match getFixAgent currentMode completedResults with
      | Some fixAgent =>
          if (w.(phaseGateState).(PhaseGates.smokeMaxFixAttempts) =? 0)%Z then
            mret {| ok := false;
                    message := Some
                      match initialSmoke.(smokeFailed) with
                      | Some f => "Phase smoke gate failed: " +:+ commandText f
                                  +:+ ". No fix attempts available."
                      | None => "Phase smoke gate failed and no fix attempts are available."
                      end |}
          else
            fixLoop fixAgent currentMode initialSmoke.(smokeFailed)
                    (Z.to_nat w.(phaseGateState).(PhaseGates.smokeMaxFixAttempts)) 1
      | None =>
          mret {| ok := false;
                  message := Some
                    match initialSmoke.(smokeFailed) with
                    | Some f => "Phase smoke gate failed: " +:+ commandText f
                                +:+ ". No fix attempts available."
                    | None => "Phase smoke gate failed and no fix attempts are available."
                    end |}
      end.

(** *** Worktree integration and the end of a driver *)

Definition isFailed (r : WorktreeIntegrationReport) : bool :=
  match r.(w_status) with failed_ => true | _ => false end.

(** [None] is [{ ok: true }], [Some message] is [{ ok: false, message }]. *)
Definition integrateAssignments (assignments : list WorktreeAssignment) : M (option string) :=
  if negb worktreeActive then mret None
  else match assignments with
       | [] => mret None
       | _ =>
           n ← ask;
           let reports := o.(worktreeIntegrate) n assignments in
           match find isFailed reports with
           | Some report =>
               let reason :=
                 if ContextMemory.truthy report.(w_message)
                 then report.(w_label) +:+ ": " +:+ optText report.(w_message)
                 else report.(w_label) in
               mret (Some ("Worktree integration failed (" +:+ reason +:+ ")"))
           | None => mret None
           end
       end.

(** What every driver does once its agents have run: the coordinator
    decision, the integration of the lanes and the smoke gate. *)
Definition finish (currentMode : Policy.TopologyMode) (finalOutput : string)
    (assignments : list WorktreeAssignment) (results : list SingleResult) : M ToolResult :=
  (match sharedContextConfig.(mode) with
   | ContextMemory.shared_write => appendDecision rootTaskId "coordinator" (Js.take 1000 finalOutput)
   | _ => mret tt
   end);;
  integration ← integrateAssignments assignments;
  match integration with
  | Some message => mret {| text := message; isError := true; results := results |}
  | None =>
      smokeGate ← runPhaseSmokeGate currentMode results;
      if negb smokeGate.(ok) then
        mret {| text := default "Phase smoke gate failed." smokeGate.(message);
                isError := true; results := results |}
      else
        mret {| text := if ContextMemory.truthy smokeGate.(message)
                        then finalOutput +:+ LF2 +:+ optText smokeGate.(message)
                        else finalOutput;
                isError := false; results := results |}
  end.

(** *** Chain mode *)

Definition unknownAgent (name : string) : string :=
  "Unknown agent: " +:+ String Json.DQUOTE name +:+ String Json.DQUOTE ". Available agents: "
  +:+ available.

(** One step's reservation: the budget check and the [try] around
    [reserveChildBudget]; [inl] is the tool result the step returns
    with. *)
Definition chainReservation (i : Z) (step : Policy.ExecutionTaskItem)
    (taskWithContext : string) (stepAgent : AgentConfig) : M (ToolResult + ChildProcessBudget) :=
  w ← get;
  let remainingDirectSteps := Z.of_nat (length selectedChain) - i - 1 in
  let minRequired := remainingDirectSteps + 1 in
  if (w.(budget).(remainingTokens) <? minRequired)%Z then
    mret (inl (createBudgetError
                 ("Subagent budget exhausted at chain step " +:+ Js.Number_toString (i + 1)
                  +:+ ": need at least " +:+ Js.Number_toString minRequired
                  +:+ ", have " +:+ Js.Number_toString w.(budget).(remainingTokens) +:+ ".")))
  else
    let reservedDescendantTokens := w.(budget).(remainingTokens) - minRequired in
    tryCatch
      (childBudget ← reserve step.(Policy.agent) taskWithContext reservedDescendantTokens
                       (canNestAgent stepAgent);
       mret (inr childBudget))
      (fun errorMessage => mret (inl (createBudgetError errorMessage))).

Record ChainProgress := {
  done : list SingleResult;
  previousOutput : string;
  previousTaskId : option string;
}.

(** The body of the loop over the steps; [inl] leaves [execute]. *)
Definition chainStep (chainAssignment : option WorktreeAssignment) (i : Z)
    (step : Policy.ExecutionTaskItem) (p : ChainProgress) : M (ToolResult + ChainProgress) :=
  let taskWithContext := Js.replaceAll "{previous}" p.(previousOutput) step.(Policy.task) in
  delegation ← prepareDelegation step.(Policy.agent) taskWithContext p.(previousTaskId) Policy.chain;
  match getAgentByName step.(Policy.agent) with
  | None => mret (inl (createBudgetError (unknownAgent step.(Policy.agent))))
  | Some stepAgent =>
      now ← dateNow;
      w ← get;
      if (w.(budget).(deadlineAtMs) <? now)%Z then
        mret (inl (createBudgetError "Subagent wall-time budget exceeded during chain execution."))
      else
        reserved ← chainReservation i step taskWithContext stepAgent;
        match reserved with
        | inl result => mret (inl result)
        | inr childBudget =>
            let stepCwd :=
              match chainAssignment with
              | Some assignment => o.(worktreeCwd) assignment step.(Policy.cwd)
              | None => step.(Policy.cwd)
              end in
            result ← runSingleAgent step.(Policy.agent) taskWithContext delegation.(executionTask)
                       stepCwd (Some (i + 1)) childBudget activeIsolation;
            let results := (p.(done) ++ [result])%list in
            let failed := resultFailed result in
            appendObservation delegation.(taskId) step.(Policy.agent)
              (if failed then ContextMemory.error else ContextMemory.success)
              (observationSummary result);;
            if failed then
              mret (inl {| text := "Chain stopped at step " +:+ Js.Number_toString (i + 1)
                                   +:+ " (" +:+ step.(Policy.agent) +:+ "): " +:+ errorText result;
                           isError := true; results := results |})
            else
              mret (inr {| done := results;
                           previousOutput := getFinalOutput result.(messages);
                           previousTaskId := Some delegation.(taskId) |})
        end
  end.

Fixpoint chainLoop (chainAssignment : option WorktreeAssignment) (steps : list Policy.ExecutionTaskItem)
    (i : Z) (p : ChainProgress) : M (ToolResult + ChainProgress) :=
  match steps with
  | [] => mret (inr p)
  | step :: rest =>
      next ← chainStep chainAssignment i step p;
      match next with
      | inl result => mret (inl result)
      | inr p' => chainLoop chainAssignment rest (i + 1) p'
      end
  end.

(** The block [if (mode === "chain" && selectedChain.length > 0)]. *)
Definition executeChain : M ToolResult :=
  w ← get;
  if (w.(budget).(remainingTokens) <? Z.of_nat (length selectedChain))%Z then
    mret (createBudgetError
            ("Insufficient subagent budget for chain: need at least "
             +:+ Js.Number_toString (Z.of_nat (length selectedChain))
             +:+ ", have " +:+ Js.Number_toString w.(budget).(remainingTokens) +:+ "."))
  else
    prepared ← (if worktreeActive then
                  n ← ask;
                  match o.(worktreeAdd) n "chain" with
                  | Return assignment => mret (inr (Some assignment))
                  | Throw reason =>
                      mret (inl {| text := "Failed to prepare chain worktree: " +:+ reason;
                                   isError := true; results := [] |})
                  end
                else mret (inr None));
    match prepared with
    | inl result => mret result
    | inr chainAssignment =>
        out ← chainLoop chainAssignment selectedChain 0
                {| done := []; previousOutput := EmptyString; previousTaskId := Some rootTaskId |};
        match out with
        | inl result => mret result
        | inr p =>
            let finalOutput :=
              orText (default EmptyString (getFinalOutput <$> (messages <$> last p.(done))))
                     "(no output)" in
            finish Policy.chain finalOutput
                   (match chainAssignment with Some a => [a] | None => [] end) p.(done)
        end
    end.

(** *** Single mode: the block [if (mode === "single" && selectedSingle)] *)

Definition executeSingle (selected : Policy.ExecutionTaskItem) : M ToolResult :=
  match getAgentByName selected.(Policy.agent) with
  | None => mret (createBudgetError (unknownAgent selected.(Policy.agent)))
  | Some singleAgent =>
      now ← dateNow;
      w ← get;
      if (w.(budget).(deadlineAtMs) <? now)%Z then
        mret (createBudgetError "Subagent wall-time budget exceeded before execution.")
      else
        prepared ← (if worktreeActive then
                      n ← ask;
                      match o.(worktreeAdd) n ("single-" +:+ selected.(Policy.agent)) with
                      | Return assignment => mret (inr (Some assignment))
                      | Throw reason =>
                          mret (inl {| text := "Failed to prepare single worktree: " +:+ reason;
                                       isError := true; results := [] |})
                      end
                    else mret (inr None));
        match prepared with
        | inl result => mret result
        | inr singleAssignment =>
            delegation ← prepareDelegation selected.(Policy.agent) selected.(Policy.task)
                           (Some rootTaskId) Policy.single;
            w ← get;
            reserved ← tryCatch
                         (childBudget ← reserve selected.(Policy.agent) selected.(Policy.task)
                                          (Z.max 0 (w.(budget).(remainingTokens) - 1))
                                          (canNestAgent singleAgent);
                          mret (inr childBudget))
                         (fun errorMessage => mret (inl (createBudgetError errorMessage)));
            match reserved with
            | inl result => mret result
            | inr childBudget =>
                let singleCwd :=
                  match singleAssignment with
                  | Some assignment => o.(worktreeCwd) assignment selected.(Policy.cwd)
                  | None => selected.(Policy.cwd)
                  end in
                result ← runSingleAgent selected.(Policy.agent) selected.(Policy.task)
                           delegation.(executionTask) singleCwd None childBudget activeIsolation;
                let failed := resultFailed result in
                appendObservation delegation.(taskId) selected.(Policy.agent)
                  (if failed then ContextMemory.error else ContextMemory.success)
                  (observationSummary result);;
                if failed then
                  mret {| text := "Agent " +:+ orText (optText result.(stopReason)) "failed"
                                  +:+ ": " +:+ errorText result;
                          isError := true; results := [result] |}
                else
                  finish Policy.single (orText (getFinalOutput result.(messages)) "(no output)")
                         (match singleAssignment with Some a => [a] | None => [] end) [result]
            end
        end
  end.

(** *** [execute] from its first [return] on

    What [execute] does for a plan in chain mode and for a plan in
    single mode: the count of the modes asked for, the validation of
    the phase gate, the guards on the budget, the question about
    project-local agents, and the block of the mode.  The plan and the
    budget are taken as they are when [execute] has built them; the
    block of parallel mode is not part of this model. *)

Inductive AgentScope := scope_user | scope_project | scope_both.

Context (agentScope : AgentScope) (confirmProjectAgents hasUI : bool).

(** [answer] is what the user answers when asked to confirm. *)
Context (answer : bool).

(** Which of [chain], [tasks] and [agent] with [task] the call gives. *)
Context (hasChain hasTasks hasSingle : bool).

Definition modeCount : Z := Z.b2z hasChain + Z.b2z hasTasks + Z.b2z hasSingle.

Definition notOneMode : ToolResult :=
  {| text := "Invalid parameters. Provide exactly one mode."
             +:+ String ContextMemory.LF ("Available agents: " +:+ available);
     isError := false; results := [] |}.

Definition budgetGuards : M (option ToolResult) :=
  w ← get;
  if (0 <? w.(budget).(depth))%Z && negb w.(budget).(canSpawnChildren) then
    mret (Some (createBudgetError
      "Nested subagent spawning blocked: this agent must explicitly include 'subagent' in tools."))
  else if (w.(budget).(maxDepth) <=? w.(budget).(depth))%Z then
    mret (Some (createBudgetError
      ("Subagent depth limit reached (" +:+ Js.Number_toString w.(budget).(depth) +:+ "/"
       +:+ Js.Number_toString w.(budget).(maxDepth) +:+ ").")))
  else
    now ← dateNow;
    if (w.(budget).(deadlineAtMs) <? now)%Z then
      mret (Some (createBudgetError "Subagent wall-time budget exceeded before execution."))
    else if (w.(budget).(remainingTokens) <=? 0)%Z then
      mret (Some (createBudgetError "Subagent budget exhausted: no remaining agent tokens."))
    else mret None.

Definition requestedAgentNames : list string :=
  let names := fold_left (fun names step => Set_add names step.(Policy.agent)) selectedChain [] in
  let names := fold_left (fun names task => Set_add names task.(Policy.agent)) selectedTasks names in
  if ContextMemory.truthy (Policy.agent <$> selectedSingle)
  then Set_add names (optText (Policy.agent <$> selectedSingle))
  else names.

Definition projectAgentsRequested : list AgentConfig :=
  omap (fun name =>
          match find (fun a => String.eqb a.(Agents.name) name) agents with
          | Some a => match a.(source) with project => Some a | user => None end
          | None => None
          end)
       requestedAgentNames.

(** Whether the user is asked, and has then to agree. *)
Definition asksForProjectAgents : bool :=
  match agentScope with scope_user => false | _ => true end
  && confirmProjectAgents && hasUI && (0 <? length projectAgentsRequested)%nat.

Definition invalidParameters : ToolResult :=
  {| text := "Invalid parameters. Available agents: " +:+ available;
     isError := false; results := [] |}.

(** The statements of [execute] around the block of a mode. *)
Definition entered (block : M ToolResult) : M ToolResult :=
  if negb (modeCount =? 1)%Z then mret notOneMode
  else
    w ← get;
    match PhaseGates.validatePhaseGateState w.(phaseGateState) with
    | Some phaseGateValidationError => mret (createBudgetError phaseGateValidationError)
    | None =>
        blocked ← budgetGuards;
        match blocked with
        | Some result => mret result
        | None =>
            if asksForProjectAgents && negb answer then
              mret {| text := "Canceled: project-local agents not approved.";
                      isError := false; results := [] |}
            else block
        end
    end.

(** A plan in chain mode: the chain block runs if the chain has a step,
    and no other block applies. *)
Definition executeChainMode : M ToolResult :=
  entered (if (0 <? length selectedChain)%nat then executeChain else mret invalidParameters).


End Execute.

(** [keeps view m]: running [m] leaves the part [view] of the state as
    it was. *)
Definition keeps {A X} (view : World -> X) (m : M A) : Prop :=
  forall w, view (m w).1 = view w.

(** The part of the phase gate that the fix loop counts in. *)
Definition fixView (w : World)
  : Z * Z * list PhaseGates.SmokeFixAttemptRecord :=
  (w.(phaseGateState).(PhaseGates.smokeFixAttempts),
   w.(phaseGateState).(PhaseGates.smokeMaxFixAttempts),
   w.(phaseGateState).(PhaseGates.smokeFixHistory)).





(** [reports run result]: [result] is what [runSingleAgent] makes of a
    child process that ended as [run], and was not aborted. *)
Definition reports (run : ChildRun) (result : SingleResult) : Prop :=
  run.(r_aborted) = false
  /\ result.(exitCode) = run.(r_exitCode)
  /\ result.(messages) = run.(r_messages)
  /\ result.(stderr) = run.(r_stderr).

(** The budgets that the process holding [root], or any process below
    it, can come to hold: a budget changes by a reservation, and a child
    process starts from the environment its parent built for a
    reservation that succeeded. *)
Inductive Descendant (root : ExecutionBudget) : ExecutionBudget -> Prop :=
  | descendant_root : Descendant root root
  | descendant_reserved (b : ExecutionBudget) (agentName task : string) (reserved : Z)
      (nested : bool) :
      Descendant root b ->
      Descendant root (reserveChildBudget b agentName task reserved nested).1
  | descendant_spawned (b b' : ExecutionBudget) (agentName task : string) (reserved : Z)
      (nested : bool) (childBudget : ChildProcessBudget)
      (env : gmap string string) (config : SharedContextConfig)
      (isolation : Worktree.ResolvedExecutionIsolation)
      (nowMs : Z) (defaults : GuardrailDefaults) (randomRunId : string) :
      Descendant root b ->
      reserveChildBudget b agentName task reserved nested = (b', Return childBudget) ->
      Descendant root
        (initializeExecutionBudget (childEnvironment env config childBudget isolation)
                                   nowMs defaults randomRunId).

End Subagent.

(** ** Sample values, used to run the definitions *)

Module Samples.

Import Guardrails.

Definition budget4 : ExecutionBudget :=
  {| runId := "run-1"; depth := 0; maxDepth := 2; rootStartedAtMs := 1000;
     deadlineAtMs := 61000; remainingTokens := 4; fingerprints := [];
     canSpawnChildren := true |}.

Definition child2 : ChildProcessBudget :=
  {| c_runId := "run-1"; c_nextDepth := 1; c_maxDepth := 2; c_rootStartedAtMs := 1000;
     c_deadlineAtMs := 61000; c_remainingTokens := 2;
     c_fingerprints := ["worker::analyze api"]; c_canSpawnChildren := true |}.

Definition store1 : ContextMemory.SharedContextStore :=
  ContextMemory.FileSharedContextStore "run-1" "/repo/.pi/subagent-memory/runs/run-1.jsonl".

Definition emptyLedger : ContextMemory.LedgerFile :=
  {| ContextMemory.content := EmptyString;
     ContextMemory.readFails := false;
     ContextMemory.appendFails := false |}.

(** Six observations appended to an empty ledger, as in the test
    [readRecent applies limit to returned entries]. *)
Definition sixObservations : ContextMemory.LedgerFile :=
  fold_left
    (fun file i =>
       ContextMemory.appendObservation store1 file ("e" +:+ Js.Number_toString i) (5000 + i)
         ("task-" +:+ Js.Number_toString i) "worker" ContextMemory.success
         ("summary-" +:+ Js.Number_toString i))
    [0; 1; 2; 3; 4; 5] emptyLedger.

Definition assistant (text : string) : Subagent.Message :=
  {| Subagent.role := "assistant"; Subagent.content := [Subagent.TextPart text] |}.

(** A world outside in which every smoke command exits with 1, every
    child succeeds, and git is not available. *)
Definition outside : Subagent.Outside :=
  {| Subagent.clock := fun n => 2000 + Z.of_nat n;
     Subagent.randomHex := fun n => "id" +:+ Js.Number_toString (Z.of_nat n);
     Subagent.shell := fun _ _ =>
       {| Subagent.s_exitCode := 1; Subagent.s_stdout := EmptyString;
          Subagent.s_stderr := "boom"; Subagent.s_durationMs := 5 |};
     Subagent.child := fun _ _ =>
       {| Subagent.r_exitCode := 0; Subagent.r_messages := [assistant "done"];
          Subagent.r_stderr := EmptyString; Subagent.r_stopReason := None;
          Subagent.r_errorMessage := None; Subagent.r_timedOut := false;
          Subagent.r_aborted := false |};
     Subagent.worktreeAdd := fun _ _ => Throw "not a git repository";
     Subagent.worktreeCwd := fun _ c => c;
     Subagent.worktreeIntegrate := fun _ _ => [];
     Subagent.toText := Json.stringify |}.

Definition worker : Agents.AgentConfig :=
  {| Agents.name := "worker"; Agents.tools := Some ["read"; "edit"];
     Agents.model := None; Agents.systemPrompt := "You are a worker.";
     Agents.source := Agents.user |}.


Definition gate (maxFixAttempts : Z) : PhaseGates.PhaseGateState :=
  PhaseGates.createPhaseGateState
    {| PhaseGates.i_phaseName := Some "build";
       PhaseGates.i_requireSmoke := Some true;
       PhaseGates.i_smokeCommands := Some ["npm test"];
       PhaseGates.i_topologySummary := "single (recommended single)";
       PhaseGates.i_smokeMaxRetries := Some 0;
       PhaseGates.i_smokeMaxFixAttempts := Some maxFixAttempts |}.

Definition world (tokens : Z) : Subagent.World :=
  {| Subagent.budget :=
       {| runId := "run-1"; depth := 0; maxDepth := 2; rootStartedAtMs := 1000;
          deadlineAtMs := 601000; remainingTokens := tokens; fingerprints := [];
          canSpawnChildren := true |};
     Subagent.ledger := emptyLedger;
     Subagent.phaseGateState := gate 2;
     Subagent.launches := [];
     Subagent.asked := 0 |}.

Definition step (text : string) : Policy.ExecutionTaskItem :=
  {| Policy.agent := "worker"; Policy.task := text; Policy.cwd := None |}.

Definition fourSteps : list Policy.ExecutionTaskItem :=
  [ step "Collect facts"; step "Draft a plan"; step "Implement using {previous}";
    step "Review {previous}" ].

Definition twoSteps : list Policy.ExecutionTaskItem :=
  [ step "Collect facts"; step "Implement using {previous}" ].

Definition config : Subagent.SharedContextConfig :=
  {| Subagent.mode := ContextMemory.shared_read; Subagent.limit := 12;
     Subagent.memoryDir := None |}.

(** Two lanes of one run: the root reserves the scout, with one token
    for its descendants, and then the worker.  [scoutProcess] is the
    budget a call of the tool builds inside the scout's process, from
    the environment the scout was started with. *)
Definition afterScout : ExecutionBudget * Completion ChildProcessBudget :=
  reserveChildBudget budget4 "scout" "Map the code" 1 true.

Definition afterWorker : ExecutionBudget * Completion ChildProcessBudget :=
  reserveChildBudget afterScout.1 "worker" "Fix the bug" 0 false.

Definition scoutProcess (scout : ChildProcessBudget) (nowMs : Z) : ExecutionBudget :=
  initializeExecutionBudget
    (Subagent.childEnvironment ∅ config scout Worktree.r_shared)
    nowMs DEFAULT_GUARDRAIL_DEFAULTS "fresh".

End Samples.

(** * Properties *)

#[local] Arguments String.append !_ _ / : simpl nomatch.

(** ** Strings *)

Module JsFacts.

Lemma append_assoc (a b c : string) : (a +:+ b) +:+ c = a +:+ (b +:+ c).
Proof. induction a as [|x a IH]; simpl; [reflexivity | now rewrite IH]. Qed.

Lemma length_append (a b : string) :
  String.length (a +:+ b) = (String.length a + String.length b)%nat.
Proof. induction a as [|x a IH]; simpl; [reflexivity | now rewrite IH]. Qed.

Lemma isBlank_append (a b : string) : Js.isBlank (a +:+ b) = Js.isBlank a && Js.isBlank b.
Proof.
  induction a as [|x a IH]; simpl; [reflexivity|].
  rewrite IH. now rewrite andb_assoc.
Qed.

Lemma isBlank_trimStart (s : string) : Js.isBlank (Js.trimStart s) = Js.isBlank s.
Proof.
  induction s as [|x s IH]; simpl; [reflexivity|].
  destruct (Js.isWhiteSpace x) eqn:E; simpl; [exact IH | now rewrite E].
Qed.

Lemma trimEnd_nonempty (s : string) : Js.isBlank s = false -> Js.trimEnd s <> EmptyString.
Proof.
  destruct s as [|x s]; simpl; [discriminate|].
  intros ->. discriminate.
Qed.

(** A string with a character that is no white space does not trim to
    the empty string. *)
Lemma trim_nonempty (s : string) :
  Js.isBlank s = false -> (0 < String.length (Js.trim s))%nat.
Proof.
  intros H. unfold Js.trim.
  assert (Js.trimEnd (Js.trimStart s) <> EmptyString) as N.
  { apply trimEnd_nonempty. now rewrite isBlank_trimStart. }
  destruct (Js.trimEnd (Js.trimStart s)); [congruence | simpl; lia].
Qed.

Lemma includes_startsWith (p s : string) : Js.startsWith p s = true -> Js.includes p s = true.
Proof. destruct s; simpl; intros ->; reflexivity. Qed.

End JsFacts.

(** ** The JSON codec on arrays of strings *)

Module JsonFacts.

Import Json.

Lemma parseChars_quoteChar (c : ascii) (t : string) :
  parseChars (quoteChar c +:+ t)
  = match parseChars t with Some (u, r) => Some (String c u, r) | None => None end.
Proof. destruct c as [[] [] [] [] [] [] [] []]; reflexivity. Qed.

Lemma parseChars_quoteChars (s rest : string) :
  parseChars (quoteChars s +:+ String DQUOTE rest) = Some (s, rest).
Proof.
  induction s as [|c s IH]; [reflexivity|].
  change (quoteChars (String c s)) with (quoteChar c +:+ quoteChars s).
  rewrite JsFacts.append_assoc, parseChars_quoteChar, IH. reflexivity.
Qed.

Lemma parseValue_string (fuel : nat) (t : string) :
  parseValue (S fuel) (String DQUOTE t)
  = match parseChars t with Some (str, rest) => Some (JString str, rest) | None => None end.
Proof. reflexivity. Qed.

Lemma quote_append (s rest : string) :
  quote s +:+ rest = String DQUOTE (quoteChars s +:+ String DQUOTE rest).
Proof. unfold quote. simpl. now rewrite JsFacts.append_assoc. Qed.

Lemma parseValue_quote (fuel : nat) (s rest : string) :
  parseValue (S fuel) (quote s +:+ rest) = Some (JString s, rest).
Proof. now rewrite quote_append, parseValue_string, parseChars_quoteChars. Qed.

Lemma stringify_strings (l : list string) :
  stringify (JArray (map JString l)) = "[" +:+ Js.join "," (map quote l) +:+ "]".
Proof.
  assert (forall k,
            (fix each (l : list value) : list string :=
               match l with
               | [] => []
               | x :: r => stringify x :: each r
               end) (map JString k) = map quote k) as E.
  { intros k. induction k as [|x k IH]; [reflexivity|].
    cbn [map]. rewrite <- IH. reflexivity. }
  cbn [stringify]. rewrite E. reflexivity.
Qed.

Lemma parseElements_step (fuel : nat) (s : string) :
  parseElements (S fuel) s
  = match parseValue fuel s with
    | Some (v, rest) =>
        match skipSpace rest with
        | String "," r =>
            match parseElements fuel r with
            | Some (vs, rest') => Some (v :: vs, rest')
            | None => None
            end
        | String "]" r => Some ([v], r)
        | _ => None
        end
    | None => None
    end.
Proof. reflexivity. Qed.

Lemma join_cons (sep x y : string) (l : list string) :
  Js.join sep (x :: y :: l) = x +:+ sep +:+ Js.join sep (y :: l).
Proof. reflexivity. Qed.

Lemma parseElements_strings (l : list string) (x : string) (fuel : nat) (rest : string) :
  (length l < fuel)%nat ->
  parseElements (S fuel) (Js.join "," (map quote (x :: l)) +:+ String "]" rest)
  = Some (map JString (x :: l), rest).
Proof.
  revert x fuel. induction l as [|y l IH]; intros x fuel Hf.
  - destruct fuel as [|fuel]; [simpl in Hf; lia|].
    rewrite parseElements_step.
    change (Js.join "," (map quote [x])) with (quote x).
    rewrite parseValue_quote. reflexivity.
  - destruct fuel as [|fuel]; [simpl in Hf; lia|].
    rewrite parseElements_step.
    cbn [map]. rewrite join_cons, JsFacts.append_assoc, parseValue_quote.
    rewrite JsFacts.append_assoc.
    change (skipSpace ("," +:+ ?t)) with (String "," t).
    change (map quote (y :: l)) with (map quote (y :: l)).
    specialize (IH y fuel ltac:(simpl in Hf; lia)).
    cbn [map] in IH.
    change (skipSpace ("," +:+ Js.join "," (quote y :: map quote l) +:+ String "]" rest))
      with (String "," (Js.join "," (quote y :: map quote l) +:+ String "]" rest)).
    cbv iota. rewrite IH. reflexivity.
Qed.

Lemma length_join_quote (l : list string) :
  (length l <= String.length (Js.join "," (map quote l)))%nat.
Proof.
  induction l as [|x [|y l] IH]; [simpl; lia | |].
  - change (Js.join "," (map quote [x])) with (quote x).
    unfold quote. cbn [String.length length]. lia.
  - cbn [map] in *. rewrite join_cons, !JsFacts.length_append.
    cbn [length] in *. unfold quote at 1. cbn [String.length]. lia.
Qed.

(** [JSON.parse(JSON.stringify(strings))] is the array of these strings. *)
Lemma parse_stringify_strings (l : list string) :
  parse (stringify (JArray (map JString l))) = Some (JArray (map JString l)).
Proof.
  destruct l as [|x l]; [reflexivity|].
  rewrite stringify_strings. unfold parse.
  set (text := "[" +:+ Js.join "," (map quote (x :: l)) +:+ "]").
  assert (length (x :: l) <= String.length text)%nat as Hlen.
  { unfold text. rewrite !JsFacts.length_append.
    pose proof (length_join_quote (x :: l)). lia. }
  remember (2 * String.length text + 1)%nat as fuel eqn:Ef.
  replace (2 * String.length text + 2)%nat with (S fuel) by lia.
  destruct fuel as [|fuel]; [lia|].
  assert (parseValue (S (S fuel)) text = Some (JArray (map JString (x :: l)), EmptyString)) as ->.
  { unfold text.
    change ("[" +:+ Js.join "," (map quote (x :: l)) +:+ "]")
      with (String "[" (Js.join "," (map quote (x :: l)) +:+ String "]" EmptyString)).
    pose proof (parseElements_strings l x fuel EmptyString) as H.
    cbn [length] in Hlen.
    specialize (H ltac:(lia)).
    set (body := Js.join "," (map quote (x :: l)) +:+ String "]" EmptyString) in *.
    assert (exists t, body = String DQUOTE t) as [t Ht].
    { unfold body. destruct l as [|y l]; cbn [map].
      - change (Js.join "," [quote x]) with (quote x). rewrite quote_append. eauto.
      - rewrite join_cons, JsFacts.append_assoc, quote_append. eauto. }
    cbn [parseValue]. cbn [skipSpace].
    change (isJsonSpace "[") with false. cbv iota.
    change (isCode "[" 110) with false. change (isCode "[" 116) with false.
    change (isCode "[" 102) with false. change (isCode "[" 34) with false.
    change (isCode "[" 91) with true. cbv iota.
    rewrite Ht at 1. change (skipSpace (String DQUOTE t)) with (String DQUOTE t).
    change (String DQUOTE t) with (String (Ascii false true false false false true false false) t).
    cbv iota. rewrite H. reflexivity. }
  reflexivity.
Qed.

End JsonFacts.

(** ** Integers in decimal notation *)

Module NumberFacts.

Import Json JsonText.

Lemma digitsOnly_uint (d : Decimal.uint) : digitsOnly (NilEmpty.string_of_uint d).
Proof. induction d; simpl; constructor; auto. Qed.

Lemma append_nil_r (s : string) : s +:+ EmptyString = s.
Proof. induction s as [|c s IH]; simpl; [reflexivity | now rewrite IH]. Qed.

Lemma spanDigits_digits (ds rest : string) :
  digitsOnly ds -> noDigitAhead rest -> spanDigits (ds +:+ rest) = (ds, rest).
Proof.
  intros Hd Hr. induction ds as [|c ds IH]; simpl.
  - destruct rest as [|c rest]; [reflexivity|]. simpl in *. now rewrite Hr.
  - inversion Hd as [|? ? Hc Hds]; subst. rewrite Hc, IH by assumption. reflexivity.
Qed.

Lemma to_uint_normal (p : positive) : Decimal.unorm (Pos.to_uint p) = Pos.to_uint p.
Proof.
  rewrite <- (DecimalPos.Unsigned.to_of (Pos.to_uint p)), DecimalPos.Unsigned.of_to.
  reflexivity.
Qed.

Lemma to_uint_head (p : positive) (u : Decimal.uint) : Pos.to_uint p <> Decimal.D0 u.
Proof.
  intros E. pose proof (to_uint_normal p) as N. rewrite E in N.
  rewrite unorm_D0 in N.
  destruct (Decimal.uint_eq_dec u Decimal.Nil) as [->|Hu].
  - now apply (DecimalPos.Unsigned.to_uint_nonzero p).
  - pose proof (nb_digits_unorm u Hu) as L. rewrite N in L. simpl in L. lia.
Qed.

(** [String(n)] for an integer [n]: an optional minus sign and the
    decimal digits, without a leading zero. *)
Lemma Number_toString_shape (n : Z) :
  exists sign ds,
    Js.Number_toString n = sign +:+ ds
    /\ (sign = EmptyString \/ sign = "-")
    /\ digitsOnly ds
    /\ (ds = "0" \/ exists c r, ds = String c r /\ c <> "0"%char).
Proof.
  unfold Js.Number_toString.
  assert (forall p, exists c r, NilZero.string_of_uint (Pos.to_uint p) = String c r
                                /\ c <> "0"%char
                                /\ digitsOnly (String c r)) as H.
  { intros p. pose proof (to_uint_head p) as Hh.
    pose proof (DecimalPos.Unsigned.to_uint_nonnil p) as Hn.
    pose proof (digitsOnly_uint (Pos.to_uint p)) as Hd.
    destruct (Pos.to_uint p) eqn:E; simpl in *; try congruence;
      try (eexists _, _; split; [reflexivity|]; split; [discriminate | exact Hd]).
  }
  destruct n as [|p|p]; simpl.
  - exists EmptyString, "0". repeat split; auto. repeat constructor.
  - destruct (H p) as (c & r & E & Hc & Hd). exists EmptyString, (String c r).
    rewrite E. repeat split; eauto.
  - destruct (H p) as (c & r & E & Hc & Hd). exists "-", (String c r).
    rewrite E. repeat split; eauto.
Qed.


Lemma delimited_noDigit (rest : string) : delimited rest -> noDigitAhead rest.
Proof. destruct rest as [|c rest]; simpl; [auto|]. intros [->|[->| ->]]; reflexivity. Qed.

Ltac digit_cases c H :=
  destruct c as [[] [] [] [] [] [] [] []]; try discriminate H.

Lemma parseNumber_unsigned (sign ds rest : string) :
  sign = EmptyString \/ sign = "-" ->
  digitsOnly ds ->
  (ds = "0" \/ exists c r, ds = String c r /\ c <> "0"%char) ->
  delimited rest ->
  parseNumber (sign +:+ ds +:+ rest) = Some (sign +:+ ds, rest).
Proof.
  intros Hs Hd Hz Hr.
  pose proof (delimited_noDigit rest Hr) as Hn.
  assert (exists c r, ds = String c r /\ isDigit c = true /\ digitsOnly r
                      /\ (c = "0"%char -> r = EmptyString)) as (c & r & -> & Hc & Hdr & Hz').
  { destruct Hz as [->|(c & r & -> & Hc)].
    - exists "0"%char, EmptyString. repeat split; auto. constructor.
    - inversion Hd; subst. exists c, r. repeat split; auto. congruence. }
  pose proof (spanDigits_digits r rest Hdr Hn) as Hspan.
  destruct Hs as [->| ->].
  - simpl. unfold parseNumber.
    digit_cases c Hc; cbn -[String.append]; rewrite Hspan; try rewrite (Hz' eq_refl);
      (destruct rest as [|d rest]; [|destruct Hr as [->|[->| ->]]]);
      cbv -[String.append]; rewrite ?append_nil_r; reflexivity.
  - simpl. unfold parseNumber.
    digit_cases c Hc; cbn -[String.append]; rewrite Hspan; try rewrite (Hz' eq_refl);
      (destruct rest as [|d rest]; [|destruct Hr as [->|[->| ->]]]);
      cbv -[String.append]; rewrite ?append_nil_r; reflexivity.
Qed.

Lemma parseNumber_toString (n : Z) (rest : string) :
  delimited rest ->
  parseNumber (Js.Number_toString n +:+ rest) = Some (Js.Number_toString n, rest).
Proof.
  intros Hr. destruct (Number_toString_shape n) as (sign & ds & -> & Hs & Hd & Hz).
  rewrite JsFacts.append_assoc. now apply parseNumber_unsigned.
Qed.

End NumberFacts.

(** ** The JSON codec on the values this program writes *)

Module JsonRoundTrip.
Import Json JsonText NumberFacts.

Lemma value_ind' (P : value -> Prop) :
  P JNull -> (forall b, P (JBool b)) -> (forall l, P (JNumber l)) -> (forall s, P (JString s)) ->
  (forall items, Forall P items -> P (JArray items)) ->
  (forall fields, Forall (fun kv => P kv.2) fields -> P (JObject fields)) ->
  forall v, P v.
Proof.
  intros Hn Hb Hnum Hs Ha Ho. fix IH 1. intros [|b|l|s|items|fields].
  - exact Hn.
  - apply Hb.
  - apply Hnum.
  - apply Hs.
  - apply Ha. induction items as [|x items IHi]; constructor; [apply IH | exact IHi].
  - apply Ho. induction fields as [|[k x] fields IHf]; constructor; [apply IH | exact IHf].
Qed.

Lemma stringify_array (items : list value) :
  stringify (JArray items) = "[" +:+ Js.join "," (map stringify items) +:+ "]".
Proof.
  assert (forall l, (fix each (l : list value) : list string :=
                       match l with [] => [] | x :: r => stringify x :: each r end) l
                    = map stringify l) as E.
  { induction l as [|x l IH]; [reflexivity|]. cbn [map]. now rewrite <- IH. }
  cbn [stringify]. now rewrite E.
Qed.

Lemma stringify_object (fields : list (string * value)) :
  stringify (JObject fields) = "{" +:+ Js.join "," (map member fields) +:+ "}".
Proof.
  assert (forall l, (fix each (l : list (string * value)) : list string :=
                       match l with
                       | [] => []
                       | (k, x) :: r => (quote k +:+ ":" +:+ stringify x) :: each r
                       end) l
                    = map member l) as E.
  { induction l as [|[k x] l IH]; [reflexivity|]. cbn [map]. now rewrite <- IH. }
  cbn [stringify]. now rewrite E.
Qed.

Lemma canonical_array (items : list value) :
  canonical (JArray items) <-> Forall canonical items.
Proof.
  induction items as [|x items IH]; simpl; [split; auto|].
  split.
  - intros [Hx Hr]. constructor; [exact Hx|]. now apply IH.
  - intros H. inversion H; subst. split; [assumption|]. now apply IH.
Qed.

Lemma canonical_object (fields : list (string * value)) :
  canonical (JObject fields) <-> Forall (fun kv => canonical kv.2) fields.
Proof.
  induction fields as [|[k x] fields IH]; simpl; [split; auto|].
  split.
  - intros [Hx Hr]. constructor; [exact Hx|]. now apply IH.
  - intros H. inversion H; subst. split; [assumption|]. now apply IH.
Qed.

Lemma need_array (items : list value) : need (JArray items) = S (needs items).
Proof.
  unfold needs. cbn [need]. f_equal.
  induction items as [|x items IH]; [reflexivity|]. simpl. simpl in IH. now rewrite IH.
Qed.

Lemma need_object (fields : list (string * value)) : need (JObject fields) = S (needsOf fields).
Proof.
  unfold needsOf. cbn [need]. f_equal.
  induction fields as [|[k x] fields IH]; [reflexivity|]. simpl. simpl in IH. now rewrite IH.
Qed.


Lemma startsValue_stringify (v : value) (rest : string) :
  canonical v -> startsValue (stringify v +:+ rest).
Proof.
  destruct v as [|[]|l|s|items|fields]; intros Hv.
  - exists "n"%char. eexists. repeat split; try reflexivity; discriminate.
  - exists "t"%char. eexists. repeat split; try reflexivity; discriminate.
  - exists "f"%char. eexists. repeat split; try reflexivity; discriminate.
  - destruct Hv as [n ->].
    destruct (Number_toString_shape n) as (sign & ds & -> & Hs & Hd & Hz).
    destruct Hs as [->| ->].
    + destruct Hz as [->|(c & r & -> & Hc)].
      * exists "0"%char. eexists. repeat split; try reflexivity; discriminate.
      * inversion Hd as [|? ? Hdc _]; subst. exists c. eexists.
        split; [reflexivity|].
        digit_cases c Hdc; repeat split; try reflexivity; discriminate.
    + exists "-"%char. eexists. repeat split; try reflexivity; discriminate.
  - exists DQUOTE. eexists. repeat split; try reflexivity; discriminate.
  - rewrite stringify_array. exists "["%char. eexists.
    repeat split; try reflexivity; discriminate.
  - rewrite stringify_object. exists "{"%char. eexists.
    repeat split; try reflexivity; discriminate.
Qed.

Ltac ascii_cases c := destruct c as [[] [] [] [] [] [] [] []].

Lemma parseValue_open_array (fuel : nat) (text : string) :
  startsValue text ->
  parseValue (S fuel) (String "[" text)
  = match parseElements fuel text with
    | Some (items, rest) => Some (JArray items, rest)
    | None => None
    end.
Proof.
  intros (c & r & -> & Hs & Hc & _).
  ascii_cases c; first [discriminate Hs | now destruct Hc | reflexivity].
Qed.

Lemma parseValue_open_object (fuel : nat) (text : string) :
  parseValue (S fuel) (String "{" (String DQUOTE text))
  = match parseMembers fuel (String DQUOTE text) with
    | Some (fields, rest) => Some (JObject fields, rest)
    | None => None
    end.
Proof. reflexivity. Qed.

Lemma parseValue_number (fuel : nat) (n : Z) (rest : string) :
  delimited rest ->
  parseValue (S fuel) (Js.Number_toString n +:+ rest)
  = Some (JNumber (Js.Number_toString n), rest).
Proof.
  intros Hr. pose proof (parseNumber_toString n rest Hr) as Hp.
  destruct (Number_toString_shape n) as (sign & ds & E & Hs & Hd & Hz).
  rewrite E in *.
  assert (exists c r, ds = String c r /\ isDigit c = true) as (c & r & -> & Hc).
  { destruct Hz as [->|(c & r & -> & _)]; [now eexists _, _|].
    inversion Hd; subst. eauto. }
  destruct Hs as [->| ->].
  - cbn [String.append] in *. revert Hp. generalize (r +:+ rest). intros t Hp.
    assert (parseValue (S fuel) (String c t)
            = match parseNumber (String c t) with
              | Some (lexeme, rest) => Some (JNumber lexeme, rest)
              | None => None
              end) as ->.
    { digit_cases c Hc; reflexivity. }
    now rewrite Hp.
  - cbn [String.append] in *. revert Hp. generalize (r +:+ rest). intros t Hp.
    revert Hp. generalize (String c t). clear t. intros t Hp.
    change (parseValue (S fuel) (String "-" t))
      with (match parseNumber (String "-" t) with
            | Some (lexeme, rest) => Some (JNumber lexeme, rest)
            | None => None
            end).
    now rewrite Hp.
Qed.

Lemma parseMembers_step (fuel : nat) (text : string) :
  parseMembers (S fuel) (String DQUOTE text)
  = match parseChars text with
    | Some (key, r1) =>
        match skipSpace r1 with
        | String ":" r2 =>
            match parseValue fuel r2 with
            | Some (v, rest) =>
                match skipSpace rest with
                | String "," r3 =>
                    match parseMembers fuel r3 with
                    | Some (fs, rest') => Some ((key, v) :: fs, rest')
                    | None => None
                    end
                | String "}" r3 => Some ([(key, v)], r3)
                | _ => None
                end
            | None => None
            end
        | _ => None
        end
    | None => None
    end.
Proof. reflexivity. Qed.

Lemma parseElements_stringify (items : list value) :
  Forall parses items -> items <> [] ->
  forall fuel rest, (needs items <= fuel)%nat ->
  parseElements fuel (Js.join "," (map stringify items) +:+ String "]" rest)
  = Some (items, rest).
Proof.
  induction items as [|x items IH]; [congruence|].
  intros HF _ fuel rest Hf. inversion HF as [|? ? Hx Hrest]; subst.
  unfold needs in *. cbn [map list_sum fold_right] in Hf.
  destruct fuel as [|fuel]; [lia|].
  rewrite JsonFacts.parseElements_step.
  destruct items as [|y items].
  - change (Js.join "," (map stringify [x])) with (stringify x).
    rewrite (Hx fuel (String "]" rest)); [reflexivity | lia | simpl; auto].
  - cbn [map]. rewrite JsonFacts.join_cons, JsFacts.append_assoc.
    rewrite (Hx fuel); [|lia|simpl; auto].
    rewrite JsFacts.append_assoc.
    change (skipSpace ("," +:+ ?t)) with (String "," t).
    cbv iota.
    change (stringify y :: map stringify items) with (map stringify (y :: items)).
    rewrite IH; [reflexivity | assumption | discriminate | cbn [map list_sum fold_right] in *; lia].
Qed.


Lemma member_append (kv : string * value) (rest : string) :
  member kv +:+ rest
  = String DQUOTE (quoteChars kv.1 +:+ String DQUOTE (String ":" (stringify kv.2 +:+ rest))).
Proof.
  unfold member. rewrite !JsFacts.append_assoc, JsonFacts.quote_append. reflexivity.
Qed.

Lemma parseMembers_stringify (fields : list (string * value)) :
  Forall (fun kv => parses kv.2) fields -> fields <> [] ->
  forall fuel rest, (needsOf fields <= fuel)%nat ->
  parseMembers fuel (Js.join "," (map member fields) +:+ String "}" rest)
  = Some (fields, rest).
Proof.
  induction fields as [|[k x] fields IH]; [congruence|].
  intros HF _ fuel rest Hf. inversion HF as [|? ? Hx Hrest]; subst. simpl in Hx.
  unfold needsOf in *. cbn [map list_sum fold_right snd] in Hf.
  destruct fuel as [|fuel]; [lia|].
  destruct fields as [|[k' y] fields].
  - change (Js.join "," (map member [(k, x)])) with (member (k, x)).
    rewrite member_append, parseMembers_step, JsonFacts.parseChars_quoteChars.
    cbn [fst snd].
    change (skipSpace (String ":" ?t)) with (String ":" t). cbv iota.
    rewrite (Hx fuel (String "}" rest)); [reflexivity | lia | simpl; auto].
  - cbn [map]. rewrite JsonFacts.join_cons, JsFacts.append_assoc.
    rewrite member_append, parseMembers_step, JsonFacts.parseChars_quoteChars.
    cbn [fst snd].
    change (skipSpace (String ":" ?t)) with (String ":" t). cbv iota.
    rewrite JsFacts.append_assoc.
    rewrite (Hx fuel); [|lia|simpl; auto].
    change (skipSpace ("," +:+ ?t)) with (String "," t).
    cbv iota.
    change (member (k', y) :: map member fields) with (map member ((k', y) :: fields)).
    rewrite IH; [reflexivity | assumption | discriminate
                | cbn [map list_sum fold_right snd] in *; lia].
Qed.

(** Parsing the text of a value gives the value back and leaves what
    follows the text. *)
Lemma parseValue_stringify (v : value) : canonical v -> parses v.
Proof.
  induction v as [|b|l|s|items IH|fields IH] using value_ind'; intros Hv fuel rest Hf Hr.
  - destruct fuel as [|fuel]; [simpl in Hf; lia | reflexivity].
  - destruct fuel as [|fuel]; [simpl in Hf; lia | destruct b; reflexivity].
  - destruct fuel as [|fuel]; [simpl in Hf; lia|]. destruct Hv as [n ->].
    now apply parseValue_number.
  - destruct fuel as [|fuel]; [simpl in Hf; lia|]. apply JsonFacts.parseValue_quote.
  - rewrite need_array in Hf. destruct fuel as [|fuel]; [lia|].
    rewrite stringify_array. apply canonical_array in Hv.
    destruct items as [|x items]; [reflexivity|].
    change ("[" +:+ ?a +:+ "]") with (String "[" (a +:+ String "]" EmptyString)).
    cbn [String.append]. rewrite JsFacts.append_assoc. cbn [String.append].
    rewrite parseValue_open_array.
    + rewrite parseElements_stringify; [reflexivity| |discriminate|lia].
      apply Forall_forall. intros y Hy.
      rewrite Forall_forall in IH. rewrite Forall_forall in Hv. apply IH; auto.
    + inversion Hv; subst. destruct items as [|y items].
      * change (Js.join "," (map stringify [x])) with (stringify x).
        now apply startsValue_stringify.
      * cbn [map]. rewrite JsonFacts.join_cons, JsFacts.append_assoc.
        now apply startsValue_stringify.
  - rewrite need_object in Hf. destruct fuel as [|fuel]; [lia|].
    rewrite stringify_object. apply canonical_object in Hv.
    destruct fields as [|[k x] fields]; [reflexivity|].
    change ("{" +:+ ?a +:+ "}") with (String "{" (a +:+ String "}" EmptyString)).
    cbn [String.append]. rewrite JsFacts.append_assoc. cbn [String.append].
    assert (exists t, Js.join "," (map member ((k, x) :: fields)) +:+ String "}" rest
                      = String DQUOTE t) as [t Ht].
    { destruct fields as [|[k' y] fields].
      - change (Js.join "," (map member [(k, x)])) with (member (k, x)).
        rewrite member_append. eauto.
      - cbn [map]. rewrite JsonFacts.join_cons, JsFacts.append_assoc, member_append. eauto. }
    rewrite Ht, parseValue_open_object, <- Ht.
    rewrite parseMembers_stringify; [reflexivity| |discriminate|lia].
    apply Forall_forall. intros kv Hkv.
    rewrite Forall_forall in IH. rewrite Forall_forall in Hv.
    apply (IH kv Hkv). now apply Hv.
Qed.


Lemma need_length (v : value) : canonical v -> (need v <= String.length (stringify v))%nat.
Proof.
  induction v as [|b|l|s|items IH|fields IH] using value_ind'; intros Hv.
  - simpl. lia.
  - destruct b; simpl; lia.
  - destruct Hv as [n ->]. simpl.
    destruct (Number_toString_shape n) as (sign & ds & -> & _ & _ & [->|(c & r & -> & _)]);
      rewrite JsFacts.length_append; simpl; lia.
  - simpl. lia.
  - rewrite need_array, stringify_array, !JsFacts.length_append.
    apply canonical_array in Hv. unfold needs.
    assert (list_sum (map (fun x => S (need x)) items)
            <= String.length (Js.join "," (map stringify items)) + 1)%nat; [|simpl; lia].
    induction items as [|x [|y items] IHi].
    + simpl. lia.
    + inversion IH; subst. inversion Hv; subst.
      change (Js.join "," (map stringify [x])) with (stringify x).
      cbn [map list_sum fold_right]. specialize (H1 H3). lia.
    + inversion IH; subst. inversion Hv; subst.
      cbn [map] in *. rewrite JsonFacts.join_cons, !JsFacts.length_append.
      cbn [list_sum fold_right] in *. specialize (H1 H3). specialize (IHi H2 H4).
      change (String.length ",") with 1%nat. lia.
  - rewrite need_object, stringify_object, !JsFacts.length_append.
    apply canonical_object in Hv. unfold needsOf.
    assert (list_sum (map (fun kv => S (need kv.2)) fields)
            <= String.length (Js.join "," (map member fields)) + 1)%nat; [|simpl; lia].
    assert (forall kv : string * value,
              (need kv.2 <= String.length (stringify kv.2))%nat ->
              (S (need kv.2) <= String.length (member kv))%nat) as Hm.
    { intros kv H. unfold member, quote. rewrite !JsFacts.length_append.
      cbn [String.length]. rewrite ?JsFacts.length_append. cbn [String.length]. lia. }
    induction fields as [|x [|y fields] IHf].
    + simpl. lia.
    + inversion IH; subst. inversion Hv; subst.
      change (Js.join "," (map member [x])) with (member x).
      cbn [map list_sum fold_right]. specialize (Hm x (H1 H3)). lia.
    + inversion IH; subst. inversion Hv; subst.
      cbn [map] in *. rewrite JsonFacts.join_cons, !JsFacts.length_append.
      cbn [list_sum fold_right] in *. specialize (Hm x (H1 H3)). specialize (IHf H2 H4).
      change (String.length ",") with 1%nat. lia.
Qed.

(** [JSON.parse(JSON.stringify(v))] is [v] again. *)
Lemma parse_stringify (v : value) : canonical v -> parse (stringify v) = Some v.
Proof.
  intros Hv. unfold parse.
  pose proof (parseValue_stringify v Hv (2 * String.length (stringify v) + 2)%nat EmptyString) as H.
  rewrite NumberFacts.append_nil_r in H.
  rewrite H; [reflexivity| |exact I].
  pose proof (need_length v Hv). lia.
Qed.

End JsonRoundTrip.

(** ** Guardrails: reservations and fingerprints *)

Module GuardrailsFacts.

Import Guardrails.

Lemma Set_has_true (s : list string) (x : string) : Set_has s x = true <-> x ∈ s.
Proof. unfold Set_has. apply bool_decide_eq_true. Qed.

Lemma Set_has_false (s : list string) (x : string) : Set_has s x = false <-> x ∉ s.
Proof. unfold Set_has. apply bool_decide_eq_false. Qed.

Lemma elem_of_Set_add (s : list string) (x y : string) :
  y ∈ Set_add s x <-> y = x \/ y ∈ s.
Proof.
  unfold Set_add. destruct (Set_has s x) eqn:E.
  - apply Set_has_true in E. split; [auto | intros [->|]; auto].
  - rewrite elem_of_app, list_elem_of_singleton. tauto.
Qed.

Lemma NoDup_Set_add (s : list string) (x : string) : NoDup s -> NoDup (Set_add s x).
Proof.
  intros H. unfold Set_add. destruct (Set_has s x) eqn:E; [exact H|].
  apply Set_has_false in E. apply NoDup_app. split; [exact H|]. split.
  - intros y Hy Hx. apply list_elem_of_singleton in Hx. subst. contradiction.
  - apply NoDup_singleton.
Qed.

(** The three outcomes of [reserveChildBudget], by its two tests. *)
Lemma reserve_loop (b : ExecutionBudget) (a t : string) (d : Z) (nested : bool) :
  makeFingerprint a t ∈ b.(fingerprints) ->
  reserveChildBudget b a t d nested
  = (b, Throw ("Blocked recursive loop for " +:+ a +:+ ": duplicate delegated task fingerprint.")).
Proof.
  intros H. unfold reserveChildBudget.
  apply Set_has_true in H. now rewrite H.
Qed.

Lemma reserve_exhausted (b : ExecutionBudget) (a t : string) (d : Z) (nested : bool) :
  makeFingerprint a t ∉ b.(fingerprints) ->
  b.(remainingTokens) < 1 + Z.max 0 d ->
  exists message, reserveChildBudget b a t d nested = (b, Throw message).
Proof.
  intros H Hlt. unfold reserveChildBudget.
  apply Set_has_false in H. rewrite H.
  apply Z.ltb_lt in Hlt. rewrite Hlt. eauto.
Qed.

Lemma reserve_granted (b : ExecutionBudget) (a t : string) (d : Z) (nested : bool) :
  makeFingerprint a t ∉ b.(fingerprints) ->
  1 + Z.max 0 d <= b.(remainingTokens) ->
  reserveChildBudget b a t d nested
  = (withReservation b (1 + Z.max 0 d) (makeFingerprint a t),
     Return {| c_runId := b.(runId);
               c_nextDepth := b.(depth) + 1;
               c_maxDepth := b.(maxDepth);
               c_rootStartedAtMs := b.(rootStartedAtMs);
               c_deadlineAtMs := b.(deadlineAtMs);
               c_remainingTokens := Z.max 0 d;
               c_fingerprints := Set_add b.(fingerprints) (makeFingerprint a t);
               c_canSpawnChildren := nested |}).
Proof.
  intros H Hle. unfold reserveChildBudget.
  apply Set_has_false in H. rewrite H.
  apply Z.ltb_ge in Hle. rewrite Hle. reflexivity.
Qed.

Lemma reserve_cases (b : ExecutionBudget) (a t : string) (d : Z) (nested : bool) :
  (makeFingerprint a t ∈ b.(fingerprints)
   \/ b.(remainingTokens) < 1 + Z.max 0 d)
  \/ ((makeFingerprint a t ∉ b.(fingerprints)) /\ 1 + Z.max 0 d <= b.(remainingTokens)).
Proof.
  destruct (decide (makeFingerprint a t ∈ b.(fingerprints))); [tauto|].
  destruct (Z.lt_ge_cases b.(remainingTokens) (1 + Z.max 0 d)); tauto.
Qed.

Lemma reserve_inv (b b' : ExecutionBudget) (a t : string) (d : Z) (nested : bool)
    (child : ChildProcessBudget) :
  reserveChildBudget b a t d nested = (b', Return child) ->
  (makeFingerprint a t ∉ b.(fingerprints))
  /\ 1 + Z.max 0 d <= b.(remainingTokens)
  /\ b' = withReservation b (1 + Z.max 0 d) (makeFingerprint a t)
  /\ child.(c_fingerprints) = Set_add b.(fingerprints) (makeFingerprint a t)
  /\ child.(c_remainingTokens) = Z.max 0 d.
Proof.
  intros H.
  destruct (reserve_cases b a t d nested) as [[Hin|Hlt]|[Hn Hle]].
  - rewrite (reserve_loop _ _ _ _ _ Hin) in H. discriminate.
  - destruct (decide (makeFingerprint a t ∈ b.(fingerprints))) as [Hin|Hn].
    + rewrite (reserve_loop _ _ _ _ _ Hin) in H. discriminate.
    + destruct (reserve_exhausted b a t d nested Hn Hlt) as [m E]. rewrite E in H. discriminate.
  - rewrite (reserve_granted _ _ _ _ _ Hn Hle) in H.
    injection H as <- <-. auto.
Qed.

Lemma reserve_throw_unchanged (b : ExecutionBudget) (a t : string) (d : Z) (nested : bool) :
  isThrow (reserveChildBudget b a t d nested).2 = true ->
  (reserveChildBudget b a t d nested).1 = b.
Proof.
  destruct (reserve_cases b a t d nested) as [[Hin|Hlt]|[Hn Hle]].
  - now rewrite (reserve_loop _ _ _ _ _ Hin).
  - destruct (decide (makeFingerprint a t ∈ b.(fingerprints))) as [Hin|Hn].
    + now rewrite (reserve_loop _ _ _ _ _ Hin).
    + destruct (reserve_exhausted b a t d nested Hn Hlt) as [m ->]. reflexivity.
  - rewrite (reserve_granted _ _ _ _ _ Hn Hle). discriminate.
Qed.

(** Fingerprints are never removed. *)
Lemma reserve_keeps (b : ExecutionBudget) (a t : string) (d : Z) (nested : bool) (f : string) :
  f ∈ b.(fingerprints) -> f ∈ fingerprints (reserveChildBudget b a t d nested).1.
Proof.
  intros Hf.
  destruct (isThrow (reserveChildBudget b a t d nested).2) eqn:E.
  - now rewrite reserve_throw_unchanged.
  - destruct (reserveChildBudget b a t d nested) as [b' [child|m]] eqn:R; [|discriminate].
    apply reserve_inv in R as (_ & _ & -> & _). simpl.
    apply elem_of_Set_add. auto.
Qed.

Lemma reserveEach_fresh (requests : list Request) (b : ExecutionBudget) (f : string) :
  f ∈ (reserveEach b requests).2 -> f ∉ b.(fingerprints).
Proof.
  revert b f. induction requests as [|q rest IH]; intros b f; simpl.
  - intros H. now apply not_elem_of_nil in H.
  - destruct (reserveChildBudget b (q_agent q) (q_task q) (q_reserved q) (q_nested q))
      as [b' outcome] eqn:R.
    destruct (reserveEach b' rest) as [final granted] eqn:E. simpl.
    assert (forall g, g ∈ granted -> g ∉ b.(fingerprints)) as Hrest.
    { intros g Hg Hb. apply (IH b' g); [now rewrite E|].
      pose proof (reserve_keeps b (q_agent q) (q_task q) (q_reserved q) (q_nested q) g Hb) as K.
      now rewrite R in K. }
    destruct outcome as [child|m]; [|auto].
    intros [->|Hf]%elem_of_cons; [|auto].
    now apply reserve_inv in R as (Hn & _).
Qed.

Lemma reserveEach_NoDup (requests : list Request) (b : ExecutionBudget) :
  NoDup (reserveEach b requests).2.
Proof.
  revert b. induction requests as [|q rest IH]; intros b; simpl; [apply NoDup_nil_2|].
  destruct (reserveChildBudget b (q_agent q) (q_task q) (q_reserved q) (q_nested q))
    as [b' outcome] eqn:R.
  pose proof (IH b') as Hnd.
  pose proof (fun f => reserveEach_fresh rest b' f) as Hfresh.
  destruct (reserveEach b' rest) as [final granted]. simpl in *.
  destruct outcome as [child|m]; [|exact Hnd].
  apply NoDup_cons. split; [|exact Hnd].
  intros Hin. apply (Hfresh _ Hin).
  apply reserve_inv in R as (_ & _ & -> & _). simpl.
  apply elem_of_Set_add. auto.
Qed.

(** C1. A reservation that succeeds deducts [1 + max(0, d)] tokens from
    the parent, inserts the fingerprint of the pair (the lower-cased,
    trimmed agent name, two colons, the normalised task) and nothing else
    into the parent's set, and returns a child budget with [max(0, d)]
    tokens, the next depth, the nesting flag as given, and the parent's
    run id, depth limit, start time and deadline. *)
Theorem reserve_child_success (b b' : ExecutionBudget) (a t : string) (d : Z) (nested : bool)
    (child : ChildProcessBudget) :
  reserveChildBudget b a t d nested = (b', Return child) ->
  makeFingerprint a t = Js.toLowerCase (Js.trim a) +:+ "::" +:+ normalizeTask t
  /\ b'.(remainingTokens) = b.(remainingTokens) - (1 + Z.max 0 d)
  /\ (forall f, f ∈ b'.(fingerprints) <-> f = makeFingerprint a t \/ f ∈ b.(fingerprints))
  /\ child.(c_remainingTokens) = Z.max 0 d
  /\ child.(c_nextDepth) = b.(depth) + 1
  /\ child.(c_canSpawnChildren) = nested
  /\ child.(c_runId) = b.(runId)
  /\ child.(c_maxDepth) = b.(maxDepth)
  /\ child.(c_rootStartedAtMs) = b.(rootStartedAtMs)
  /\ child.(c_deadlineAtMs) = b.(deadlineAtMs).
Proof.
  intros H.
  pose proof (reserve_inv _ _ _ _ _ _ _ H) as (Hn & Hle & -> & _).
  rewrite (reserve_granted _ _ _ _ _ Hn Hle) in H.
  injection H as <-. simpl.
  repeat split; try reflexivity.
  - intros Hf. now apply elem_of_Set_add.
  - intros Hf. now apply elem_of_Set_add.
Qed.

Lemma reserve_child_success_witness :
  (fst (reserveChildBudget Samples.budget4 "worker" "analyze api" 2 true)).(remainingTokens)
  = 4 - (1 + Z.max 0 2)
  /\ Samples.child2.(c_remainingTokens) = Z.max 0 2.
Proof.
  destruct (reserve_child_success Samples.budget4
              (fst (reserveChildBudget Samples.budget4 "worker" "analyze api" 2 true))
              "worker" "analyze api" 2 true Samples.child2 eq_refl)
    as (_ & H1 & _ & H2 & _).
  split; [exact H1 | exact H2].
Defined.

(** C2, as the code has it. A reservation throws exactly when the
    fingerprint is already in the parent's set or the parent has fewer
    than [1 + max(0, d)] tokens; when it throws the parent budget is
    unchanged; and in any series of requests served from one budget
    object, that is within one call of the tool, the reservations that
    succeed have pairwise different fingerprints. *)
Theorem reserve_child_throws_iff (b : ExecutionBudget) (a t : string) (d : Z) (nested : bool) :
  (isThrow (reserveChildBudget b a t d nested).2 = true
   <-> makeFingerprint a t ∈ b.(fingerprints) \/ b.(remainingTokens) < 1 + Z.max 0 d)
  /\ (isThrow (reserveChildBudget b a t d nested).2 = true
      -> (reserveChildBudget b a t d nested).1 = b)
  /\ (forall requests : list Request, NoDup (reserveEach b requests).2).
Proof.
  split; [|split].
  - destruct (reserve_cases b a t d nested) as [[Hin|Hlt]|[Hn Hle]].
    + rewrite (reserve_loop _ _ _ _ _ Hin). simpl. tauto.
    + destruct (decide (makeFingerprint a t ∈ b.(fingerprints))) as [Hin|Hn].
      * rewrite (reserve_loop _ _ _ _ _ Hin). simpl. tauto.
      * destruct (reserve_exhausted b a t d nested Hn Hlt) as [m ->]. simpl. tauto.
    + rewrite (reserve_granted _ _ _ _ _ Hn Hle). simpl.
      split; [discriminate|]. intros [?|?]; [contradiction | lia].
  - apply reserve_throw_unchanged.
  - intros requests. apply reserveEach_NoDup.
Qed.

(** C2, as stated, fails for a whole run.  Every call of the tool
    rebuilds its budget from the environment of its process, and a child
    is handed the fingerprints as they were when it was reserved.  The
    root of run-1 reserves the scout and then the worker for "Fix the
    bug"; the scout's process never learns of the second reservation and
    reserves the same pair again, on its first call and on a later one:
    three successful reservations of one run share a fingerprint. *)
Lemma run_shares_fingerprint :
  exists scout worker again later,
    Samples.afterScout.2 = Return scout
    /\ Samples.afterWorker.2 = Return worker
    /\ (reserveChildBudget (Samples.scoutProcess scout 3000) "worker" "Fix the bug" 0 false).2
       = Return again
    /\ (reserveChildBudget (Samples.scoutProcess scout 4000) "worker" "Fix the bug" 0 false).2
       = Return later
    /\ Samples.budget4.(runId) = "run-1"
    /\ (Samples.scoutProcess scout 3000).(runId) = "run-1"
    /\ (Samples.scoutProcess scout 4000).(runId) = "run-1"
    /\ map c_runId [worker; again; later] = ["run-1"; "run-1"; "run-1"]
    /\ (Samples.scoutProcess scout 3000).(fingerprints) = ["scout::map the code"]
    /\ Forall (fun reserved => makeFingerprint "worker" "Fix the bug" ∈ reserved.(c_fingerprints))
              [worker; again; later].
Proof.
  do 4 eexists.
  repeat (split; [vm_compute; reflexivity|]).
  repeat constructor; apply elem_of_list_In; vm_compute; tauto.
Qed.

(** What a child process reads back from its environment. *)

Lemma isBlank_fingerprint (a t : string) : Js.isBlank (makeFingerprint a t) = false.
Proof.
  unfold makeFingerprint. rewrite JsFacts.isBlank_append.
  change (Js.isBlank ("::" +:+ normalizeTask t)) with false.
  apply andb_false_r.
Qed.

Lemma keepFingerprint_mono (items : list Json.value) (out : list string) (f : string) :
  f ∈ out -> f ∈ fold_left keepFingerprint items out.
Proof.
  revert out. induction items as [|item items IH]; intros out H; simpl; [exact H|].
  apply IH. unfold keepFingerprint.
  destruct item; try exact H.
  destruct (0 <? String.length (Js.trim s))%nat; [|exact H].
  apply elem_of_Set_add. auto.
Qed.

Lemma keepFingerprint_elem (l : list string) (out : list string) (f : string) :
  f ∈ l -> Js.isBlank f = false ->
  f ∈ fold_left keepFingerprint (map Json.JString l) out.
Proof.
  revert out. induction l as [|x l IH]; intros out Hin Hb.
  - now apply not_elem_of_nil in Hin.
  - apply elem_of_cons in Hin as [->|Hin]; simpl.
    + apply keepFingerprint_mono.
      pose proof (JsFacts.trim_nonempty x Hb) as Hlen.
      apply Nat.ltb_lt in Hlen. rewrite Hlen.
      apply elem_of_Set_add. auto.
    + now apply IH.
Qed.

Lemma parseFingerprintSet_stringify (l : list string) (f : string) :
  f ∈ l -> Js.isBlank f = false ->
  f ∈ parseFingerprintSet (Some (Json.stringify (Json.JArray (map Json.JString l)))).
Proof.
  intros Hin Hb. unfold parseFingerprintSet.
  rewrite JsonFacts.parse_stringify_strings.
  rewrite JsonFacts.stringify_strings. simpl.
  now apply keepFingerprint_elem.
Qed.

Lemma childEnvironment_fingerprints (env : gmap string string)
    (config : Subagent.SharedContextConfig) (child : ChildProcessBudget)
    (isolation : Worktree.ResolvedExecutionIsolation) :
  Subagent.childEnvironment env config child isolation !! SUBAGENT_ENV_FINGERPRINTS
  = Some (Json.stringify (Json.JArray (map Json.JString child.(c_fingerprints)))).
Proof.
  unfold Subagent.childEnvironment.
  rewrite lookup_insert_ne by discriminate.
  destruct (Subagent.memoryDir config);
    [rewrite lookup_insert_ne by discriminate | rewrite lookup_delete_ne by discriminate];
    rewrite !lookup_insert_ne by discriminate; apply lookup_insert_eq.
Qed.

(** A fingerprint of a pair that the child's budget lists is in the
    budget the child process builds from its environment. *)
Lemma child_process_keeps (env : gmap string string) (config : Subagent.SharedContextConfig)
    (child : ChildProcessBudget) (isolation : Worktree.ResolvedExecutionIsolation)
    (nowMs : Z) (defaults : GuardrailDefaults) (randomRunId : string) (a t : string) :
  makeFingerprint a t ∈ child.(c_fingerprints) ->
  makeFingerprint a t ∈
    fingerprints (initializeExecutionBudget
                    (Subagent.childEnvironment env config child isolation)
                    nowMs defaults randomRunId).
Proof.
  intros H. unfold initializeExecutionBudget. simpl.
  rewrite childEnvironment_fingerprints.
  apply parseFingerprintSet_stringify; [exact H | apply isBlank_fingerprint].
Qed.

Lemma descendant_keeps (root c : ExecutionBudget) (a t : string) :
  Subagent.Descendant root c ->
  makeFingerprint a t ∈ root.(fingerprints) ->
  makeFingerprint a t ∈ c.(fingerprints).
Proof.
  intros D Hroot. induction D as [|b a' t' d' n' D IH|b b' a' t' d' n' child env cfg iso now df rnd D IH R].
  - exact Hroot.
  - now apply reserve_keeps.
  - apply child_process_keeps.
    apply reserve_inv in R as (_ & _ & _ & -> & _).
    apply elem_of_Set_add. auto.
Qed.

(** C9. The child budget of a successful reservation lists the
    fingerprint of the child's own pair and every fingerprint the parent
    had; so the child process, starting from the budget it rebuilds from
    its environment, and every process below it, is refused a
    reservation for a pair with that fingerprint, and its budget is left
    as it was. *)
Theorem child_budget_carries_fingerprints (b b' : ExecutionBudget) (a t : string) (d : Z)
    (nested : bool) (child : ChildProcessBudget) :
  reserveChildBudget b a t d nested = (b', Return child) ->
  makeFingerprint a t ∈ child.(c_fingerprints)
  /\ (forall f, f ∈ b.(fingerprints) -> f ∈ child.(c_fingerprints))
  /\ (forall (env : gmap string string) (config : Subagent.SharedContextConfig)
             (isolation : Worktree.ResolvedExecutionIsolation)
             (nowMs : Z) (defaults : GuardrailDefaults) (randomRunId : string)
             (c : ExecutionBudget) (a' t' : string) (d' : Z) (nested' : bool),
        Subagent.Descendant
          (initializeExecutionBudget (Subagent.childEnvironment env config child isolation)
                                     nowMs defaults randomRunId) c ->
        makeFingerprint a' t' = makeFingerprint a t ->
        reserveChildBudget c a' t' d' nested'
        = (c, Throw ("Blocked recursive loop for " +:+ a'
                     +:+ ": duplicate delegated task fingerprint."))).
Proof.
  intros R.
  pose proof (reserve_inv _ _ _ _ _ _ _ R) as (_ & _ & _ & Hc & _).
  assert (makeFingerprint a t ∈ child.(c_fingerprints)) as Hown.
  { rewrite Hc. apply elem_of_Set_add. auto. }
  split; [exact Hown|]. split.
  - intros f Hf. rewrite Hc. apply elem_of_Set_add. auto.
  - intros env config isolation nowMs defaults randomRunId c a' t' d' nested' D E.
    apply reserve_loop. rewrite E.
    apply (descendant_keeps _ _ _ _ D).
    now apply child_process_keeps.
Qed.

Lemma child_budget_carries_fingerprints_witness :
  "worker::analyze api" ∈ Samples.child2.(c_fingerprints)
  /\ reserveChildBudget
       (initializeExecutionBudget
          (Subagent.childEnvironment ∅ Samples.config Samples.child2 Worktree.r_shared)
          2000 DEFAULT_GUARDRAIL_DEFAULTS "cafe")
       " Worker" "Analyze   API " 0 false
     = (initializeExecutionBudget
          (Subagent.childEnvironment ∅ Samples.config Samples.child2 Worktree.r_shared)
          2000 DEFAULT_GUARDRAIL_DEFAULTS "cafe",
        Throw "Blocked recursive loop for  Worker: duplicate delegated task fingerprint.").
Proof.
  destruct (child_budget_carries_fingerprints Samples.budget4
              (fst (reserveChildBudget Samples.budget4 "worker" "analyze api" 2 true))
              "worker" "analyze api" 2 true Samples.child2 eq_refl)
    as (H1 & _ & H3).
  split; [exact H1|].
  exact (H3 ∅ Samples.config Worktree.r_shared 2000 DEFAULT_GUARDRAIL_DEFAULTS "cafe" _
            " Worker" "Analyze   API " 0 false
            (Subagent.descendant_root _) eq_refl).
Defined.

End GuardrailsFacts.

(** ** Substrings *)

Module SubstringFacts.

Lemma startsWith_spec (p s : string) :
  Js.startsWith p s = true <-> exists b, s = p +:+ b.
Proof.
  revert s. induction p as [|x p IH]; intros s; simpl.
  - split; [eauto | reflexivity].
  - destruct s as [|y s].
    + split; [discriminate | intros [b H]; discriminate].
    + destruct (Ascii.eqb_spec x y) as [->|N].
      * rewrite IH. split; intros [b H]; exists b; [now rewrite H | now injection H].
      * split; [discriminate | intros [b H]; simpl in H; congruence].
Qed.

(** [Js.includes p s] holds exactly when [p] occurs in [s]. *)
Lemma includes_spec (p s : string) :
  Js.includes p s = true <-> exists a b, s = a +:+ p +:+ b.
Proof.
  induction s as [|y s IH]; simpl.
  - rewrite orb_false_r, startsWith_spec. split.
    + intros [b H]. exists EmptyString, b. exact H.
    + intros [[|x a] [b H]]; [eauto | discriminate].
  - rewrite orb_true_iff, IH, startsWith_spec. split.
    + intros [[b H] | (a & b & H)].
      * exists EmptyString, b. exact H.
      * exists (String y a), b. simpl. now rewrite H.
    + intros ([|x a] & b & H).
      * left. exists b. exact H.
      * right. simpl in H. injection H as _ H. eauto.
Qed.

Lemma toLowerCase_append (a b : string) :
  Js.toLowerCase (a +:+ b) = Js.toLowerCase a +:+ Js.toLowerCase b.
Proof. induction a as [|x a IH]; simpl; [reflexivity | now rewrite IH]. Qed.

(** A text that is its own lower case and occurs in [s] occurs in the
    lower case of [s]. *)
Lemma includes_toLowerCase (k s : string) :
  Js.toLowerCase k = k -> Js.includes k s = true -> Js.includes k (Js.toLowerCase s) = true.
Proof.
  intros Hk H. apply includes_spec in H as (a & b & ->).
  apply includes_spec. exists (Js.toLowerCase a), (Js.toLowerCase b).
  now rewrite !toLowerCase_append, Hk.
Qed.

End SubstringFacts.

(** ** Topology policy: plan conversion *)

Module PolicyFacts.

Import Policy.

Lemma hasPrevious_spec (text : string) :
  hasPrevious text = true <-> Js.occursIn "{previous}" text.
Proof. apply SubstringFacts.includes_spec. Qed.

Lemma existsb_hasPrevious (steps : list ExecutionTaskItem) :
  existsb (fun item => hasPrevious item.(task)) steps = true
  <-> exists step, step ∈ steps /\ Js.occursIn "{previous}" step.(task).
Proof.
  rewrite existsb_exists. split; intros (step & Hin & H); exists step.
  - split; [now apply list_elem_of_In | now apply hasPrevious_spec].
  - split; [now apply list_elem_of_In | now apply hasPrevious_spec].
Qed.

(** C7. Under policy [auto] with recommendation [parallel], a requested
    chain none of whose steps contains the text {previous} becomes a
    parallel plan over the same items exactly when it has more than one
    step; a chain with such a step, or with at most one step, stays the
    requested chain, with the note that no safe conversion exists. *)
Theorem chain_to_parallel_iff (single : option ExecutionTaskItem)
    (tasks chain_ : option (list ExecutionTaskItem)) :
  let steps := default [] chain_ in
  let plan :=
    buildExecutionPlan
      {| requestedMode := chain; policy := auto; recommendedMode := parallel;
         i_single := single; i_tasks := tasks; i_chain := chain_ |} in
  ((forall step, step ∈ steps -> ~ Js.occursIn "{previous}" step.(task)) ->
     (plan.(mode) = parallel <-> (1 < length steps)%nat)
     /\ ((1 < length steps)%nat ->
         plan.(p_tasks) = Some steps /\ plan.(p_chain) = None /\ plan.(p_single) = None))
  /\ ((exists step, step ∈ steps /\ Js.occursIn "{previous}" step.(task))
      \/ (length steps <= 1)%nat ->
      plan.(mode) = chain /\ plan.(p_chain) = Some steps
      /\ plan.(notes) = [NOTE_NO_SAFE_CONVERSION]).
Proof.
  intros steps plan. subst plan. unfold buildExecutionPlan. simpl.
  unfold recommendParallel. simpl. fold steps.
  destruct (existsb (fun item => hasPrevious item.(task)) steps) eqn:E.
  - simpl. split.
    + intros Hno. apply existsb_hasPrevious in E as (step & Hin & Hocc).
      now destruct (Hno step Hin).
    + intros _. auto.
  - simpl. destruct (Nat.ltb_spec 1 (length steps)) as [Hlt|Hge]; simpl.
    + split; [intros _; split; [tauto | auto]|].
      intros [Hex|Hle]; [|lia].
      apply existsb_hasPrevious in Hex. congruence.
    + split; [intros _; split; [split; [discriminate | lia] | lia]|].
      intros _. auto.
Qed.

(** C3, as the code has it.  Under policy [auto] with recommendation
    [single]: a requested parallel plan becomes single exactly when it
    has one task, whatever the text of that task; a requested chain
    becomes single exactly when it has one step and the text of that step
    does not contain {previous}; the single plan is over that one item;
    and a plan that is not converted keeps the requested mode and items
    and records the note that no safe conversion exists. *)
Theorem to_single_conversion (single : option ExecutionTaskItem)
    (tasks chain_ : option (list ExecutionTaskItem)) :
  let items := default [] tasks in
  let steps := default [] chain_ in
  let fromParallel :=
    buildExecutionPlan
      {| requestedMode := parallel; policy := auto; recommendedMode := Policy.single;
         i_single := single; i_tasks := tasks; i_chain := chain_ |} in
  let fromChain :=
    buildExecutionPlan
      {| requestedMode := chain; policy := auto; recommendedMode := Policy.single;
         i_single := single; i_tasks := tasks; i_chain := chain_ |} in
  (fromParallel.(mode) = Policy.single <-> length items = 1%nat)
  /\ (forall item, items = [item] -> fromParallel.(p_single) = Some item)
  /\ (length items <> 1%nat ->
      fromParallel.(mode) = parallel /\ fromParallel.(p_tasks) = Some items
      /\ fromParallel.(notes) = [NOTE_NO_SAFE_CONVERSION])
  /\ (fromChain.(mode) = Policy.single
      <-> exists step, steps = [step] /\ ~ Js.occursIn "{previous}" step.(task))
  /\ (forall step, steps = [step] -> ~ Js.occursIn "{previous}" step.(task) ->
      fromChain.(p_single) = Some step)
  /\ (~ (exists step, steps = [step] /\ ~ Js.occursIn "{previous}" step.(task)) ->
      fromChain.(mode) = chain /\ fromChain.(p_chain) = Some steps
      /\ fromChain.(notes) = [NOTE_NO_SAFE_CONVERSION]).
Proof.
  intros items steps fromParallel fromChain.
  subst fromParallel fromChain. unfold buildExecutionPlan. simpl.
  unfold recommendSingle. simpl. fold items. fold steps.
  split; [|split; [|split; [|split; [|split]]]].
  - destruct (Nat.eqb_spec (length items) 1); simpl; [tauto|].
    split; [discriminate | contradiction].
  - intros item ->. reflexivity.
  - intros Hn. destruct (Nat.eqb_spec (length items) 1); [contradiction|]. simpl. auto.
  - destruct steps as [|step [|s2 rest]]; simpl.
    + split; [discriminate | intros (? & ? & _); discriminate].
    + destruct (hasPrevious step.(task)) eqn:E; simpl.
      * split; [discriminate|]. intros (s & Hs & Hno). injection Hs as <-.
        apply hasPrevious_spec in E. contradiction.
      * split; [|reflexivity]. intros _. exists step. split; [reflexivity|].
        intros Hocc. apply hasPrevious_spec in Hocc. congruence.
    + split; [discriminate | intros (? & ? & _); discriminate].
  - intros step -> Hno. simpl.
    destruct (hasPrevious step.(task)) eqn:E; [|reflexivity].
    apply hasPrevious_spec in E. contradiction.
  - intros Hn. destruct steps as [|step [|s2 rest]]; simpl; auto.
    destruct (hasPrevious step.(task)) eqn:E; simpl; auto.
    destruct Hn. exists step. split; [reflexivity|].
    intros Hocc. apply hasPrevious_spec in Hocc. congruence.
Qed.

(** C3, as stated, fails: a requested parallel plan with one task whose
    text contains {previous} is converted to single. *)
Lemma parallel_to_single_despite_previous :
  hasPrevious "Implement using {previous}" = true
  /\ (buildExecutionPlan
        {| requestedMode := parallel; policy := auto; recommendedMode := Policy.single;
           i_single := None;
           i_tasks := Some [ {| agent := "worker"; task := "Implement using {previous}";
                                cwd := None |} ];
           i_chain := None |}).(mode) = Policy.single.
Proof. split; reflexivity. Qed.

End PolicyFacts.

(** ** Worktree isolation: the automatic decision *)

Module WorktreeFacts.

Import Worktree.

Lemma keywords_lower_case :
  Forall (fun keyword => Js.toLowerCase keyword = keyword) WRITE_TASK_KEYWORDS.
Proof. repeat constructor. Qed.

Lemma isWriteIntent_keyword (keyword text : string) :
  keyword ∈ WRITE_TASK_KEYWORDS ->
  Js.includes keyword text = true \/ Js.includes keyword (Js.toLowerCase text) = true ->
  isWriteIntent text = true.
Proof.
  intros Hin H. unfold isWriteIntent.
  apply existsb_exists. exists keyword. split; [now apply list_elem_of_In|].
  destruct H as [H|H]; [|exact H].
  apply SubstringFacts.includes_toLowerCase; [|exact H].
  pose proof keywords_lower_case as F. rewrite Forall_forall in F.
  now apply F.
Qed.

Lemma noDeclaredTools_writeCapable (t : ExecutionIsolationTaskInput) :
  noDeclaredTools t -> isWriteCapable t.(agentTools) = true.
Proof. intros [-> | ->]; reflexivity. Qed.

(** C10. In the automatic decision an agent whose tool list is missing
    or empty counts as write-capable: a chain with at least one such
    agent runs in a worktree, and so does a single task whose text
    contains a write keyword and whose agent is such an agent. *)
Theorem no_declared_tools_is_write_capable :
  isWriteCapable None = true
  /\ isWriteCapable (Some []) = true
  /\ (forall (single : option ExecutionIsolationTaskInput)
             (tasks chain : option (list ExecutionIsolationTaskInput))
             (step : ExecutionIsolationTaskInput),
        step ∈ default [] chain -> noDeclaredTools step ->
        (decideExecutionIsolation
           {| requestedIsolation := auto; mode := Policy.chain;
              single := single; tasks := tasks; chain := chain |}).(selectedIsolation)
        = r_worktree)
  /\ (forall (tasks chain : option (list ExecutionIsolationTaskInput))
             (one : ExecutionIsolationTaskInput) (keyword : string),
        keyword ∈ WRITE_TASK_KEYWORDS ->
        Js.includes keyword one.(task) = true
        \/ Js.includes keyword (Js.toLowerCase one.(task)) = true ->
        noDeclaredTools one ->
        (decideExecutionIsolation
           {| requestedIsolation := auto; mode := Policy.single;
              single := Some one; tasks := tasks; chain := chain |}).(selectedIsolation)
        = r_worktree).
Proof.
  split; [reflexivity|]. split; [reflexivity|]. split.
  - intros single tasks chain step Hin Hno.
    unfold decideExecutionIsolation, extractIsolationTasks. simpl.
    assert (existsb (fun t => isWriteCapable t.(agentTools)) (default [] chain) = true) as ->.
    { apply existsb_exists. exists step.
      split; [now apply list_elem_of_In | now apply noDeclaredTools_writeCapable]. }
    rewrite orb_true_r. reflexivity.
  - intros tasks chain one keyword Hk Hocc Hno.
    unfold decideExecutionIsolation, extractIsolationTasks. simpl.
    rewrite (isWriteIntent_keyword keyword _ Hk Hocc).
    rewrite (noDeclaredTools_writeCapable _ Hno). reflexivity.
Qed.

End WorktreeFacts.

(** ** The shared-context ledger: reads *)

Module LedgerFacts.

Import ContextMemory.

Lemma belongsTo_runId (runId : string) (e : Json.value) :
  belongsTo runId e = true -> Json.getProp e "runId" = Some (Json.JString runId).
Proof.
  unfold belongsTo. destruct (Json.getProp e "runId") as [[]|]; try discriminate.
  now intros ->%String.eqb_eq.
Qed.

Lemma keepLine_belongs (runId line : string) (e : Json.value) :
  keepLine runId line = Some e -> belongsTo runId e = true.
Proof.
  unfold keepLine. destruct (Json.parse line) as [parsed|]; [|discriminate].
  destruct (belongsTo runId parsed) eqn:E; [|discriminate].
  now intros [= <-].
Qed.

Lemma sliceLast_suffix {A} (k : Z) (l : list A) :
  l = (take (length l - Z.to_nat k) l ++ sliceLast k l)%list.
Proof. unfold sliceLast. now rewrite take_drop. Qed.

Lemma length_sliceLast {A} (k : Z) (l : list A) :
  length (sliceLast k l) = Nat.min (length l) (Z.to_nat k).
Proof. unfold sliceLast. rewrite length_drop. lia. Qed.

(** The lines of the ledger that belong to the run, oldest first. *)
Lemma readRecent_file (runId path : string) (file : LedgerFile) (limit : Z) :
  file.(readFails) = false ->
  readRecent (FileSharedContextStore runId path) file limit
  = sliceLast (Z.max 1 (Z.min 100 limit))
      (omap (keepLine runId)
            (filter (fun line => negb (Js.isBlank line)) (splitLines file.(content)))).
Proof. intros H. unfold readRecent. now rewrite H. Qed.

(** *** What a read returns of what was appended *)

Section Written.

Import Ledger Json JsonText JsonRoundTrip NumberFacts.

Lemma splitLines_nonempty (s : string) : splitLines s <> [].
Proof.
  induction s as [|c s IH]; simpl; [discriminate|].
  destruct (Ascii.eqb c LF); [discriminate|].
  destruct (splitLines s); [congruence | discriminate].
Qed.

Lemma oneLine_cons (c : ascii) (s : string) :
  oneLine (String c s) <-> c <> LF /\ oneLine s.
Proof.
  unfold oneLine. simpl. destruct (Ascii.eqb_spec c LF) as [->|N].
  - split; [|intros [? _]; congruence].
    intros H. pose proof (splitLines_nonempty s). congruence.
  - pose proof (splitLines_nonempty s).
    destruct (splitLines s) as [|l ls]; [congruence|].
    split.
    + intros [= -> ->]. auto.
    + intros [_ [= -> ->]]. reflexivity.
Qed.

Lemma oneLine_append (a b : string) : oneLine a -> oneLine b -> oneLine (a +:+ b).
Proof.
  intros Ha Hb. induction a as [|c a IH]; simpl; [exact Hb|].
  apply oneLine_cons in Ha as [Hc Ha]. apply oneLine_cons. auto.
Qed.

Lemma oneLine_join (sep : string) (texts : list string) :
  oneLine sep -> Forall oneLine texts -> oneLine (Js.join sep texts).
Proof.
  intros Hs H. induction texts as [|x [|y texts] IH].
  - reflexivity.
  - inversion H; subst. assumption.
  - inversion H; subst. rewrite JsonFacts.join_cons.
    apply oneLine_append; [assumption|]. apply oneLine_append; auto.
Qed.

Lemma oneLine_quoteChars (s : string) : oneLine (quoteChars s).
Proof.
  induction s as [|c s IH]; [reflexivity|].
  change (quoteChars (String c s)) with (quoteChar c +:+ quoteChars s).
  apply oneLine_append; [|exact IH].
  destruct c as [[] [] [] [] [] [] [] []]; reflexivity.
Qed.

Lemma oneLine_quote (s : string) : oneLine (quote s).
Proof.
  unfold quote. apply oneLine_cons. split; [discriminate|].
  apply oneLine_append; [apply oneLine_quoteChars | reflexivity].
Qed.

Lemma oneLine_digits (ds : string) : digitsOnly ds -> oneLine ds.
Proof.
  induction ds as [|c ds IH]; intros H; [reflexivity|].
  inversion H as [|? ? Hc Hd]; subst. apply oneLine_cons. split; [|auto].
  intros ->. discriminate Hc.
Qed.

Lemma oneLine_number (n : Z) : oneLine (Js.Number_toString n).
Proof.
  destruct (Number_toString_shape n) as (sign & ds & -> & [->| ->] & Hd & _).
  - now apply oneLine_digits.
  - apply oneLine_append; [reflexivity | now apply oneLine_digits].
Qed.

(** No text of a value holds a line feed. *)
Lemma oneLine_stringify (v : value) : canonical v -> oneLine (stringify v).
Proof.
  induction v as [|b|l|s|items IH|fields IH] using value_ind'; intros Hv.
  - reflexivity.
  - destruct b; reflexivity.
  - destruct Hv as [n ->]. apply oneLine_number.
  - apply oneLine_quote.
  - rewrite stringify_array. apply canonical_array in Hv.
    apply oneLine_append; [reflexivity|]. apply oneLine_append; [|reflexivity].
    apply oneLine_join; [reflexivity|]. apply Forall_map.
    rewrite Forall_forall in *. auto.
  - rewrite stringify_object. apply canonical_object in Hv.
    apply oneLine_append; [reflexivity|]. apply oneLine_append; [|reflexivity].
    apply oneLine_join; [reflexivity|]. apply Forall_map.
    rewrite Forall_forall in *. intros kv Hkv. unfold member.
    apply oneLine_append; [apply oneLine_quote|].
    apply oneLine_append; [reflexivity|]. auto.
Qed.

Lemma canonical_entry (entry : SharedContextEntry) : canonical (entryJson entry).
Proof.
  destruct entry as [? ? ? envelope ?| |]; simpl; unfold num; repeat split; eauto.
  destruct (parentTaskId envelope); simpl; unfold num; repeat split; eauto.
Qed.

Lemma runId_entry (entry : SharedContextEntry) :
  getProp (entryJson entry) "runId" = Some (JString (entryRunId entry)).
Proof. destruct entry; reflexivity. Qed.

Lemma keepLine_line (runId : string) (entry : SharedContextEntry) :
  keepLine runId (line entry)
  = if String.eqb (entryRunId entry) runId then Some (entryJson entry) else None.
Proof.
  unfold keepLine, line. rewrite parse_stringify by apply canonical_entry.
  unfold belongsTo. now rewrite runId_entry.
Qed.

Lemma isBlank_line (entry : SharedContextEntry) : Js.isBlank (line entry) = false.
Proof. unfold line. destruct entry; reflexivity. Qed.

Lemma oneLine_line (entry : SharedContextEntry) : oneLine (line entry).
Proof. apply oneLine_stringify, canonical_entry. Qed.

Lemma splitLines_line (l rest : string) :
  oneLine l -> splitLines (l +:+ String LF rest) = l :: splitLines rest.
Proof.
  intros H. induction l as [|c l IH]; simpl.
  - reflexivity.
  - apply oneLine_cons in H as [Hc Hl].
    destruct (Ascii.eqb_spec c LF) as [->|_]; [congruence|].
    now rewrite IH.
Qed.


(** The text of the file after appends that succeed. *)
Lemma written_file (runId path : string) (entries : list SharedContextEntry) (file : LedgerFile) :
  file.(appendFails) = false ->
  written (FileSharedContextStore runId path) entries file
  = {| content := fold_left (fun text entry => text +:+ line entry +:+ String LF EmptyString)
                            entries file.(content);
       readFails := file.(readFails);
       appendFails := false |}.
Proof.
  revert file. induction entries as [|entry entries IH]; intros file H.
  - destruct file; simpl in *. now subst.
  - unfold written in *. cbn [fold_left]. rewrite IH.
    + unfold append. rewrite H. reflexivity.
    + unfold append. now rewrite H.
Qed.

Lemma fold_lines (entries : list SharedContextEntry) (text : string) :
  fold_left (fun text entry => text +:+ line entry +:+ String LF EmptyString) entries text
  = text +:+ fold_left (fun text entry => text +:+ line entry +:+ String LF EmptyString)
                       entries EmptyString.
Proof.
  revert text. induction entries as [|entry entries IH]; intros text; cbn [fold_left].
  - now rewrite NumberFacts.append_nil_r.
  - rewrite IH. rewrite (IH (EmptyString +:+ _)).
    cbn [String.append]. now rewrite !JsFacts.append_assoc.
Qed.

Lemma splitLines_written (entries : list SharedContextEntry) :
  splitLines (fold_left (fun text entry => text +:+ line entry +:+ String LF EmptyString)
                        entries EmptyString)
  = (map line entries ++ [EmptyString])%list.
Proof.
  induction entries as [|entry entries IH]; [reflexivity|].
  cbn [fold_left]. rewrite fold_lines. cbn [String.append].
  rewrite JsFacts.append_assoc. cbn [String.append].
  rewrite splitLines_line by apply oneLine_line.
  now rewrite IH.
Qed.

(** Reading a ledger that was created empty and then appended to: the
    entries of the run, as they were appended, the last ones kept. *)
Lemma readRecent_written (runId path : string) (entries : list SharedContextEntry) (limit : Z) :
  readRecent (FileSharedContextStore runId path)
             (written (FileSharedContextStore runId path) entries created) limit
  = sliceLast (Z.max 1 (Z.min 100 limit))
      (map entryJson (filter (fun entry => String.eqb (entryRunId entry) runId) entries)).
Proof.
  rewrite written_file by reflexivity.
  rewrite readRecent_file by reflexivity. f_equal.
  cbn [content created]. rewrite splitLines_written.
  induction entries as [|entry entries IH]; [reflexivity|].
  cbn [map app]. rewrite filter_cons, isBlank_line. cbn [negb].
  rewrite decide_True by exact I. cbn [omap list_omap]. rewrite keepLine_line.
  rewrite (filter_cons _ entry).
  destruct (String.eqb (entryRunId entry) runId).
  - rewrite decide_True by exact I. cbn [map]. f_equal. exact IH.
  - rewrite decide_False by auto. exact IH.
Qed.

End Written.

(** C6. A read with limit [N] returns only entries whose [runId] is the
    store's, and at most [clamp(N, 1, 100)] of them.  Of a ledger that
    was created empty and has had entries appended, by this store or
    by any other writer of the file, it returns the entries of this
    run in the order in which they were appended, and of these the most
    recent ones: the list of the run's entries is some older entries
    followed by the result.  A store without a file returns nothing. *)
Theorem read_recent_bounded (store : SharedContextStore) (file : LedgerFile) (limit : Z) :
  let bounded := Z.max 1 (Z.min 100 limit) in
  let result := readRecent store file limit in
  (forall e, e ∈ result -> Json.getProp e "runId" = Some (Json.JString (storeRunId store)))
  /\ Z.of_nat (length result) <= bounded
  /\ 1 <= bounded <= 100
  /\ (forall runId path (entries : list SharedContextEntry),
        store = FileSharedContextStore runId path ->
        file = Ledger.written store entries Ledger.created ->
        let own := filter (fun entry => String.eqb (Ledger.entryRunId entry) runId) entries in
        result = sliceLast bounded (map entryJson own)
        /\ (exists older, own = (older ++ sliceLast bounded own)%list
                          /\ result = map entryJson (sliceLast bounded own))
        /\ length result = Nat.min (length own) (Z.to_nat bounded))
  /\ (store = NoopSharedContextStore -> result = [])
  /\ (forall runId path, store = FileSharedContextStore runId path ->
       file.(readFails) = false ->
       let all := omap (keepLine runId)
                       (filter (fun line => negb (Js.isBlank line))
                               (splitLines file.(content))) in
       (exists older, all = (older ++ result)%list)
       /\ length result = Nat.min (length all) (Z.to_nat bounded))
  /\ (forall entry, (append store file entry).(content) = file.(content)
                    \/ exists line, (append store file entry).(content)
                                    = file.(content) +:+ line +:+ String LF EmptyString).
Proof.
  intros bounded result.
  assert (1 <= bounded <= 100) as Hb by (unfold bounded; lia).
  split; [|split; [|split; [exact Hb|split; [|split; [|split]]]]].
  - intros e He. destruct store as [|runId path]; simpl in *.
    + now apply not_elem_of_nil in He.
    + subst result. simpl in He.
      destruct (readFails file); [now apply not_elem_of_nil in He|].
      unfold sliceLast in He. apply subseteq_drop in He.
      apply list_elem_of_omap in He as (line & _ & Hk).
      apply belongsTo_runId. eapply keepLine_belongs. exact Hk.
  - destruct store as [|runId path]; subst result; simpl; [lia|].
    destruct (readFails file); simpl; [lia|].
    rewrite length_sliceLast. fold bounded. lia.
  - intros runId path entries -> -> own. subst result.
    rewrite readRecent_written. fold bounded. fold own.
    split; [reflexivity|]. split.
    + exists (take (length own - Z.to_nat bounded) own). split.
      * apply sliceLast_suffix.
      * unfold sliceLast. now rewrite skipn_map, length_map.
    + rewrite length_sliceLast, length_map. reflexivity.
  - intros ->. reflexivity.
  - intros runId path -> Hr all. subst result.
    rewrite (readRecent_file _ _ _ _ Hr). fold all. fold bounded. split.
    + eexists. apply sliceLast_suffix.
    + apply length_sliceLast.
  - intros entry. unfold append. destruct store; [auto|].
    destruct (appendFails file); [auto|]. right. simpl. eauto.
Qed.

(** Three writers append to one ledger file; a read with limit 2 by the
    store of run [run-1] returns the last two entries of that run, in
    the order of their appends. *)
Example read_recent_in_order :
  let observation (run task : string) :=
    ObservationEntry "e" run 5000 task "worker" success "ok" in
  map (fun e => Json.getProp e "taskId")
      (readRecent Samples.store1
         (Ledger.written Samples.store1
            [ observation "run-1" "a"; observation "run-2" "b"; observation "run-1" "c";
              observation "run-1" "d"; observation "run-3" "e" ]
            Ledger.created) 2)
  = [ Some (Json.JString "c"); Some (Json.JString "d") ].
Proof. vm_compute. reflexivity. Qed.

(** Reading back the two most recent of six observations. *)
Example read_recent_last_two :
  map (fun e => Json.getProp e "taskId") (readRecent Samples.store1 Samples.sixObservations 2)
  = [ Some (Json.JString "task-4"); Some (Json.JString "task-5") ].
Proof. vm_compute. reflexivity. Qed.

End LedgerFacts.

(** ** The orchestrator *)

Module SubagentFacts.

Import Agents Guardrails Subagent.

Lemma run_bind {A B} (m : M A) (f : A -> M B) (w : World) :
  (m ≫= f) w
  = match m w with
    | (w', Return x) => f x w'
    | (w', Throw message) => (w', Throw message)
    end.
Proof. reflexivity. Qed.

Lemma run_tryCatch {A} (m : M A) (handler : string -> M A) (w : World) :
  tryCatch m handler w
  = match m w with
    | (w', Return x) => (w', Return x)
    | (w', Throw message) => handler message w'
    end.
Proof. reflexivity. Qed.

Section Keeps.

Context {X : Type} (view : World -> X).

Lemma keeps_bind {A B} (m : M A) (f : A -> M B) :
  keeps view m -> (forall x, keeps view (f x)) -> keeps view (m ≫= f).
Proof.
  intros Hm Hf w. rewrite run_bind. specialize (Hm w).
  destruct (m w) as [w' [x|e]]; simpl in *; [|exact Hm].
  now rewrite Hf.
Qed.

Lemma keeps_tryCatch {A} (m : M A) (handler : string -> M A) :
  keeps view m -> (forall e, keeps view (handler e)) -> keeps view (tryCatch m handler).
Proof.
  intros Hm Hh w. rewrite run_tryCatch. specialize (Hm w).
  destruct (m w) as [w' [x|e]]; simpl in *; [exact Hm|].
  now rewrite Hh.
Qed.

Lemma keeps_ret {A} (x : A) : keeps view (mret x).
Proof. intros w. reflexivity. Qed.

Lemma keeps_throw {A} (e : string) : keeps view (throw (A := A) e).
Proof. intros w. reflexivity. Qed.

Lemma keeps_get : keeps view get.
Proof. intros w. reflexivity. Qed.

Lemma keeps_liftC {A} (c : Completion A) : keeps view (liftC c).
Proof. intros w. reflexivity. Qed.

End Keeps.

(** Splits a computation along its binds and branches; what is left are
    the primitive steps, which are closed by computation or by the
    lemmas in the database. *)
Create HintDb keeps discriminated.

Ltac keeps_step :=
  first
    [ progress cbv zeta
    | solve [auto with keeps]
    | apply keeps_ret | apply keeps_throw | apply keeps_get | apply keeps_liftC
    | apply keeps_bind; [|intros ?]
    | apply keeps_tryCatch; [|intros ?]
    | solve [intros ?; reflexivity]
    | match goal with
      | |- keeps _ (match ?x with _ => _ end) => destruct x
      | |- keeps _ (if ?x then _ else _) => destruct x
      end ].

Ltac keeps_tac := repeat keeps_step.

Section Frame.

Context (o : Outside) (processEnv : gmap string string) (cwd : string)
        (agents : list AgentConfig) (config : SharedContextConfig)
        (store : ContextMemory.SharedContextStore) (rootTaskId : string)
        (worktreeActive : bool).

Ltac unfold_steps :=
  unfold prepareDelegation, appendObservation, appendDecision, appendDispatch, appendWith,
    createTaskId, createEntryId, dateNow, runSingleAgent, runSmokeWithRetries, record,
    integrateAssignments.

Section View.

(** A part of the state that no step other than the named ones
    touches. *)
Context {X : Type} (view : World -> X).
Context (view_ask : keeps view ask).
Context (view_ledger : forall f, keeps view (modifyLedger f)).

Lemma prepareDelegation_keeps (agentName rawTask : string) (parent : option string)
    (runMode : Policy.TopologyMode) :
  keeps view (prepareDelegation o config store agentName rawTask parent runMode).
Proof. unfold_steps. keeps_tac. Qed.

Lemma appendObservation_keeps (taskId agent : string) (status : ContextMemory.Status)
    (summary : string) :
  keeps view (appendObservation o store taskId agent status summary).
Proof. unfold_steps. keeps_tac. Qed.

Lemma appendDecision_keeps (taskId coordinator decision : string) :
  keeps view (appendDecision o store taskId coordinator decision).
Proof. unfold_steps. keeps_tac. Qed.

Lemma integrateAssignments_keeps (assignments : list WorktreeAssignment) :
  keeps view (integrateAssignments o worktreeActive assignments).
Proof. unfold_steps. keeps_tac. Qed.

Lemma runSmokeCommands_keeps (commands : list string) :
  keeps view (runSmokeCommands o commands).
Proof. induction commands as [|command rest IH]; simpl; keeps_tac. Qed.

Context (view_launched : forall l, keeps view (launched l)).

Lemma runSingleAgent_keeps (agentName task executionTask : string) (taskCwd : option string)
    (step : option Z) (childBudget : ChildProcessBudget)
    (isolation : Worktree.ResolvedExecutionIsolation) :
  keeps view (runSingleAgent o processEnv cwd agents config agentName task executionTask
                             taskCwd step childBudget isolation).
Proof. unfold_steps. keeps_tac. Qed.

End View.

Lemma smokeRetries_keeps {X} (view : World -> X) (todo : nat)
    (failed : option PhaseGates.SmokeCommandResult) :
  keeps view ask -> (forall f, keeps view (modifyGate f)) ->
  keeps view (smokeRetries o todo failed).
Proof.
  intros Ha Hg. revert failed. induction todo as [|todo IH]; intros failed; simpl.
  - keeps_tac.
  - pose proof (runSmokeCommands_keeps view Ha) as Hc. keeps_tac.
Qed.

(** The budget. *)

Lemma budget_ask : keeps budget ask.
Proof. intros w. reflexivity. Qed.
Lemma budget_ledger f : keeps budget (modifyLedger f).
Proof. intros w. reflexivity. Qed.
Lemma budget_gate f : keeps budget (modifyGate f).
Proof. intros w. reflexivity. Qed.
Lemma budget_launched l : keeps budget (launched l).
Proof. intros w. reflexivity. Qed.

(** The launches. *)

Lemma launches_ask : keeps launches ask.
Proof. intros w. reflexivity. Qed.
Lemma launches_ledger f : keeps launches (modifyLedger f).
Proof. intros w. reflexivity. Qed.
Lemma launches_gate f : keeps launches (modifyGate f).
Proof. intros w. reflexivity. Qed.

(** The counters and the history of the fix loop. *)

Lemma fixView_ask : keeps fixView ask.
Proof. intros w. reflexivity. Qed.
Lemma fixView_ledger f : keeps fixView (modifyLedger f).
Proof. intros w. reflexivity. Qed.
Lemma fixView_launched l : keeps fixView (launched l).
Proof. intros w. reflexivity. Qed.
Lemma fixView_reserve a t d n : keeps fixView (reserve a t d n).
Proof.
  intros w. unfold reserve.
  now destruct (reserveChildBudget (budget w) a t d n).
Qed.
Lemma fixView_count : keeps fixView (modifyGate PhaseGates.countSmokeAttempt).
Proof. intros w. reflexivity. Qed.
Lemma fixView_apply results :
  keeps fixView (modifyGate (fun state => PhaseGates.applySmokeResults state results)).
Proof. intros w. reflexivity. Qed.

Lemma smokeRetries_fixView (todo : nat) (failed : option PhaseGates.SmokeCommandResult) :
  keeps fixView (smokeRetries o todo failed).
Proof.
  revert failed. induction todo as [|todo IH]; intros failed; simpl.
  - keeps_tac.
  - pose proof (runSmokeCommands_keeps fixView fixView_ask) as Hc.
    pose proof fixView_count. pose proof fixView_apply. keeps_tac.
Qed.

Lemma runSmokeWithRetries_fixView : keeps fixView (runSmokeWithRetries o).
Proof. unfold runSmokeWithRetries. pose proof smokeRetries_fixView. keeps_tac. Qed.

(** *** Delegation in isolated mode *)



(** *** Chain mode: token accounting *)

Section Chain.

Context (selectedSingle : option Policy.ExecutionTaskItem)
        (selectedTasks selectedChain : list Policy.ExecutionTaskItem).

Let len : Z := Z.of_nat (length selectedChain).
Let tokens (w : World) : Z := (budget w).(remainingTokens).

Lemma executeChain_insufficient (w : World) :
  tokens w < len ->
  executeChain o processEnv cwd agents config store rootTaskId worktreeActive
               selectedSingle selectedTasks selectedChain w
  = (w, Return {| text := "Insufficient subagent budget for chain: need at least "
                          +:+ Js.Number_toString len +:+ ", have "
                          +:+ Js.Number_toString (tokens w) +:+ ".";
                  isError := false; results := [] |}).
Proof.
  intros H. unfold executeChain. rewrite run_bind. simpl.
  apply Z.ltb_lt in H. unfold tokens, len in H. now rewrite H.
Qed.

Lemma chainReservation_enough (i : Z) (step : Policy.ExecutionTaskItem) (task : string)
    (stepAgent : AgentConfig) (w : World) :
  len - i <= tokens w ->
  chainReservation selectedChain i step task stepAgent w
  = tryCatch
      (childBudget ← reserve step.(Policy.agent) task (tokens w - (len - i - 1 + 1))
                       (canNestAgent stepAgent);
       mret (inr childBudget))
      (fun errorMessage => mret (inl (createBudgetError errorMessage))) w.
Proof.
  intros H. unfold chainReservation. rewrite run_bind. simpl.
  fold len. fold (tokens w).
  destruct (Z.ltb_spec (tokens w) (len - i - 1 + 1)); [lia | reflexivity].
Qed.

(** One step's reservation, when the budget covers this step and the
    later ones: either the fingerprint is a repeat and the step returns
    with the budget untouched, or the child gets all tokens beyond the
    [k + 1] that this step and the [k] later ones need, and the parent
    is left with exactly [k]. *)
Lemma chainReservation_tokens (i : Z) (step : Policy.ExecutionTaskItem) (task : string)
    (stepAgent : AgentConfig) (w : World) :
  0 <= i < len -> len - i <= tokens w ->
  let k := len - i - 1 in
  let out := chainReservation selectedChain i step task stepAgent w in
  launches out.1 = launches w
  /\ fixView out.1 = fixView w
  /\ ((exists childBudget,
         out.2 = Return (inr childBudget)
         /\ childBudget.(c_remainingTokens) = tokens w - (k + 1)
         /\ tokens out.1 = k)
      \/ (exists result,
            out.2 = Return (inl result)
            /\ budget out.1 = budget w
            /\ makeFingerprint step.(Policy.agent) task ∈ (budget w).(fingerprints))).
Proof.
  intros Hi Hr k out. subst out.
  rewrite (chainReservation_enough _ _ _ _ _ Hr).
  rewrite run_tryCatch, run_bind. unfold reserve.
  fold (tokens w). fold k.
  destruct (GuardrailsFacts.reserve_cases (budget w) step.(Policy.agent) task
              (tokens w - (k + 1)) (canNestAgent stepAgent)) as [[Hin|Hlt]|[Hn Hle]].
  - rewrite (GuardrailsFacts.reserve_loop _ _ _ _ _ Hin). simpl.
    split; [reflexivity|]. split; [reflexivity|]. right. eauto.
  - fold (tokens w) in Hlt. lia.
  - rewrite (GuardrailsFacts.reserve_granted _ _ _ _ _ Hn Hle). simpl.
    split; [reflexivity|]. split; [reflexivity|]. left. eexists. split; [reflexivity|].
    simpl. unfold tokens. simpl. fold (tokens w). lia.
Qed.

Lemma runSingleAgent_launches (agentName task executionTask : string)
    (taskCwd : option string) (step : option Z) (childBudget : ChildProcessBudget)
    (isolation : Worktree.ResolvedExecutionIsolation) (w : World) :
  let out := runSingleAgent o processEnv cwd agents config agentName task executionTask
                            taskCwd step childBudget isolation w in
  exists L,
    launches out.1 = (launches w ++ L)%list
    /\ (length L <= 1)%nat
    /\ Forall (fun l => l.(l_budget) = childBudget /\ l.(l_agent) = agentName) L
    /\ match out.2 with
       | Return result => L = [] -> result.(exitCode) = 1
       | Throw _ => True
       end.
Proof.
  unfold runSingleAgent, dateNow.
  destruct (find _ agents) as [agent|].
  - rewrite !run_bind. cbn.
    match goal with |- context [if ?c then _ else _] => destruct c end; cbn.
    + exists []. rewrite app_nil_r. auto.
    + repeat (rewrite run_bind; cbn).
      match goal with |- context [if ?c then _ else _] => destruct c end;
        cbn; eexists [_]; repeat split; auto; discriminate.
  - exists []. cbn. rewrite app_nil_r. auto.
Qed.

Lemma chainStep_tokens (chainAssignment : option WorktreeAssignment) (i : Z)
    (step : Policy.ExecutionTaskItem) (p : ChainProgress) (w : World) :
  0 <= i < len -> len - i <= tokens w ->
  let out := chainStep o processEnv cwd agents config store worktreeActive selectedChain
                       chainAssignment i step p w in
  fixView out.1 = fixView w
  /\ (exists L,
        launches out.1 = (launches w ++ L)%list
        /\ (length L <= 1)%nat
        /\ Forall (fun l => l.(l_budget).(c_remainingTokens) = tokens w - (len - i)) L
        /\ match out.2 with
           | Return (inr _) => tokens out.1 = len - i - 1 /\ length L = 1%nat
           | _ => True
           end).
Proof.
  intros Hi Hr out. subst out. unfold chainStep.
  set (task := Js.replaceAll "{previous}" (previousOutput p) (Policy.task step)).
  rewrite run_bind.
  pose proof (prepareDelegation_keeps budget budget_ask budget_ledger
                step.(Policy.agent) task p.(previousTaskId) Policy.chain w) as Kb.
  pose proof (prepareDelegation_keeps launches launches_ask launches_ledger
                step.(Policy.agent) task p.(previousTaskId) Policy.chain w) as Kl.
  pose proof (prepareDelegation_keeps fixView fixView_ask fixView_ledger
                step.(Policy.agent) task p.(previousTaskId) Policy.chain w) as Kf.
  destruct (prepareDelegation _ _ _ _ _ _ _ w) as [w1 [delegation|e]]; simpl in Kb, Kl, Kf.
  2:{ simpl. split; [exact Kf|]. exists []. rewrite app_nil_r. auto. }
  destruct (getAgentByName agents step.(Policy.agent)) as [stepAgent|].
  2:{ simpl. split; [exact Kf|]. exists []. rewrite app_nil_r. auto. }
  unfold dateNow. repeat (rewrite run_bind; cbn [ask get M_ret mret fst snd M_bind mbind]).
  cbn [budget].
  match goal with |- context [if ?c then _ else _] => destruct c end.
  { simpl. split; [exact Kf|]. exists []. rewrite app_nil_r. auto. }
  rewrite run_bind.
  set (w2 := {| budget := budget w1; ledger := ledger w1;
                phaseGateState := phaseGateState w1; launches := launches w1;
                asked := S (asked w1) |}).
  assert (tokens w2 = tokens w) as Ht by (unfold tokens; simpl; now rewrite Kb).
  pose proof (chainReservation_tokens i step task stepAgent w2 Hi ltac:(lia))
    as (Rl & Rf & R).
  destruct (chainReservation selectedChain i step task stepAgent w2) as [w3 reserved].
  simpl in Rl, Rf, R.
  destruct R as [(childBudget & -> & Hc & Hk) | (result & -> & Hb & _)].
  2:{ simpl. split; [now rewrite Rf|]. exists []. rewrite app_nil_r, Rl. auto. }
  rewrite run_bind.
  set (stepCwd := match chainAssignment with
                  | Some assignment => o.(worktreeCwd) assignment step.(Policy.cwd)
                  | None => step.(Policy.cwd)
                  end).
  pose proof (runSingleAgent_launches step.(Policy.agent) task delegation.(executionTask)
                stepCwd (Some (i + 1)) childBudget (activeIsolation worktreeActive) w3)
    as (L & HL & Hlen & HF & Hexit).
  pose proof (runSingleAgent_keeps budget budget_ask budget_launched
                step.(Policy.agent) task delegation.(executionTask)
                stepCwd (Some (i + 1)) childBudget (activeIsolation worktreeActive) w3) as Sb.
  pose proof (runSingleAgent_keeps fixView fixView_ask fixView_launched
                step.(Policy.agent) task delegation.(executionTask)
                stepCwd (Some (i + 1)) childBudget (activeIsolation worktreeActive) w3) as Sf.
  assert (Forall (fun l => l.(l_budget).(c_remainingTokens) = tokens w - (len - i)) L) as HF'.
  { eapply Forall_impl; [exact HF|]. intros l [-> _]. rewrite Hc, Ht. lia. }
  destruct (runSingleAgent _ _ _ _ _ _ _ _ _ _ _ _ w3) as [w4 [result|e]];
    simpl in HL, Sb, Sf, Hexit.
  2:{ simpl. split; [now rewrite Sf, Rf|]. exists L. rewrite HL, Rl. simpl. rewrite Kl. auto. }
  rewrite run_bind.
  pose proof (appendObservation_keeps budget budget_ask budget_ledger
                delegation.(taskId) step.(Policy.agent)
                (if resultFailed result then ContextMemory.error else ContextMemory.success)
                (observationSummary result) w4) as Ob.
  pose proof (appendObservation_keeps launches launches_ask launches_ledger
                delegation.(taskId) step.(Policy.agent)
                (if resultFailed result then ContextMemory.error else ContextMemory.success)
                (observationSummary result) w4) as Ol.
  pose proof (appendObservation_keeps fixView fixView_ask fixView_ledger
                delegation.(taskId) step.(Policy.agent)
                (if resultFailed result then ContextMemory.error else ContextMemory.success)
                (observationSummary result) w4) as Of.
  destruct (appendObservation _ _ _ _ _ _ w4) as [w5 [[]|e]]; simpl in Ob, Ol, Of.
  2:{ simpl. split; [now rewrite Of, Sf, Rf|]. exists L.
      rewrite Ol, HL, Rl. simpl. rewrite Kl. auto. }
  destruct (resultFailed result) eqn:Efail; simpl.
  - split; [now rewrite Of, Sf, Rf|]. exists L.
    rewrite Ol, HL, Rl. simpl. rewrite Kl. auto.
  - split; [now rewrite Of, Sf, Rf|]. exists L.
    rewrite Ol, HL, Rl. simpl. rewrite Kl.
    split; [reflexivity|]. split; [exact Hlen|]. split; [exact HF'|]. split.
    + unfold tokens. rewrite Ob, Sb. exact Hk.
    + unfold resultFailed in Efail.
      apply orb_false_iff in Efail as [Efail _]. apply orb_false_iff in Efail as [Efail _].
      apply negb_false_iff, Z.eqb_eq in Efail.
      destruct L as [|l [|l' L]]; [|reflexivity|simpl in Hlen; lia].
      specialize (Hexit eq_refl). lia.
Qed.

Lemma chainLoop_tokens (chainAssignment : option WorktreeAssignment)
    (steps : list Policy.ExecutionTaskItem) (i : Z) (p : ChainProgress) (w : World) :
  Z.of_nat (length steps) = len - i -> 0 <= i -> len - i <= tokens w ->
  let out := chainLoop o processEnv cwd agents config store worktreeActive selectedChain
                       chainAssignment steps i p w in
  fixView out.1 = fixView w
  /\ exists L,
       launches out.1 = (launches w ++ L)%list
       /\ (length L <= length steps)%nat
       /\ match L with
          | [] => True
          | first :: later =>
              first.(l_budget).(c_remainingTokens) = tokens w - (len - i)
              /\ Forall (fun l => l.(l_budget).(c_remainingTokens) = 0) later
          end.
Proof.
  revert i p w. induction steps as [|step rest IH]; intros i p w Hn Hi Hr out; subst out.
  - simpl. split; [reflexivity|]. exists []. rewrite app_nil_r. auto.
  - cbn [chainLoop]. rewrite run_bind.
    cbn [length] in Hn.
    pose proof (chainStep_tokens chainAssignment i step p w ltac:(lia) Hr)
      as (Hf & L1 & HL1 & Hlen1 & HF1 & Hnext).
    destruct (chainStep _ _ _ _ _ _ _ _ _ _ _ _ w) as [w1 [[result|p']|e]];
      simpl in Hf, HL1, Hnext.
    + simpl. split; [exact Hf|]. exists L1. split; [exact HL1|].
      split; [simpl; lia|].
      destruct L1 as [|l [|l' L1]]; [exact I| |simpl in Hlen1; lia].
      apply Forall_cons in HF1 as [H1 _]. auto.
    + destruct Hnext as [Ht Hone].
      specialize (IH (i + 1) p' w1 ltac:(lia) ltac:(lia) ltac:(lia))
        as (Hf2 & L2 & HL2 & Hlen2 & Hshape).
      split; [now rewrite Hf2|].
      exists (L1 ++ L2)%list. rewrite HL2, HL1, app_assoc.
      split; [reflexivity|]. split; [rewrite length_app; simpl; lia|].
      destruct L1 as [|l [|l' L1]]; [simpl in Hone; lia| |simpl in Hone; lia].
      apply Forall_cons in HF1 as [H1 _]. simpl. split; [exact H1|].
      destruct L2 as [|l2 L2]; [constructor|].
      destruct Hshape as [H2 H3]. constructor; [|exact H3].
      rewrite H2, Ht. lia.
    + simpl. split; [exact Hf|]. exists L1. split; [exact HL1|].
      split; [simpl; lia|].
      destruct L1 as [|l [|l' L1]]; [exact I| |simpl in Hlen1; lia].
      apply Forall_cons in HF1 as [H1 _]. auto.
Qed.

(** The entry of [execute] in chain mode. *)

Section Entry.

Context (agentScope : AgentScope) (confirmProjectAgents hasUI answer : bool)
        (hasChain hasTasks hasSingle : bool).

Let call : M ToolResult :=
  executeChainMode o processEnv cwd agents config store rootTaskId worktreeActive
                   selectedSingle selectedTasks selectedChain
                   agentScope confirmProjectAgents hasUI answer hasChain hasTasks hasSingle.

Lemma executeChainMode_refused (w : World) :
  tokens w < len ->
  (exists text, (call w).2 = Return {| text := text; isError := false; results := [] |})
  /\ launches (call w).1 = launches w
  /\ ledger (call w).1 = ledger w
  /\ budget (call w).1 = budget w.
Proof.
  intros H. subst call. unfold executeChainMode, entered, budgetGuards, dateNow.
  destruct (negb (modeCount hasChain hasTasks hasSingle =? 1)%Z); [simpl; eauto 6|].
  rewrite run_bind. cbn [get].
  destruct (PhaseGates.validatePhaseGateState (phaseGateState w)); [simpl; eauto 6|].
  repeat (rewrite run_bind; cbn [get mret M_ret]).
  destruct ((0 <? depth (budget w))%Z && negb (canSpawnChildren (budget w))); [simpl; eauto 6|].
  destruct (maxDepth (budget w) <=? depth (budget w))%Z; [simpl; eauto 6|].
  repeat (rewrite run_bind; cbn [get mret M_ret ask]).
  destruct (deadlineAtMs (budget w) <? clock o (asked w))%Z; [simpl; eauto 6|].
  destruct (remainingTokens (budget w) <=? 0)%Z; [simpl; eauto 6|].
  cbn beta iota.
  destruct (asksForProjectAgents _ _ _ _ _ _ _ && negb answer); [simpl; eauto 6|].
  destruct (0 <? length selectedChain)%nat; [|simpl; eauto 6].
  cbn [mret M_ret]. cbn beta iota.
  rewrite executeChain_insufficient by exact H. simpl. eauto 6.
Qed.

Lemma executeChainMode_insufficient (w : World) :
  modeCount hasChain hasTasks hasSingle = 1 ->
  PhaseGates.validatePhaseGateState w.(phaseGateState) = None ->
  (0 < (budget w).(depth) -> (budget w).(canSpawnChildren) = true) ->
  (budget w).(depth) < (budget w).(maxDepth) ->
  o.(clock) (asked w) <= (budget w).(deadlineAtMs) ->
  0 < tokens w ->
  asksForProjectAgents agents selectedSingle selectedTasks selectedChain
                       agentScope confirmProjectAgents hasUI && negb answer = false ->
  tokens w < len ->
  (call w).2
  = Return {| text := "Insufficient subagent budget for chain: need at least "
                      +:+ Js.Number_toString len +:+ ", have "
                      +:+ Js.Number_toString (tokens w) +:+ ".";
              isError := false; results := [] |}.
Proof.
  intros Hm Hv Hn Hd Hc Ht Ha H.
  subst call. unfold executeChainMode, entered, budgetGuards, dateNow.
  rewrite Hm. cbn [Z.eqb Pos.eqb negb].
  rewrite run_bind. cbn [get]. rewrite Hv.
  repeat (rewrite run_bind; cbn [get mret M_ret]).
  assert ((0 <? depth (budget w))%Z && negb (canSpawnChildren (budget w)) = false) as ->.
  { destruct (Z.ltb_spec 0 (depth (budget w))) as [L|L]; [|reflexivity].
    now rewrite (Hn L). }
  assert ((maxDepth (budget w) <=? depth (budget w))%Z = false) as -> by lia.
  repeat (rewrite run_bind; cbn [get mret M_ret ask]).
  assert ((deadlineAtMs (budget w) <? clock o (asked w))%Z = false) as -> by lia.
  assert ((remainingTokens (budget w) <=? 0)%Z = false) as -> by (unfold tokens in Ht; lia).
  cbn beta iota. rewrite Ha.
  assert ((0 <? length selectedChain)%nat = true) as ->.
  { apply Nat.ltb_lt. unfold len, tokens in *. lia. }
  cbn [mret M_ret]. cbn beta iota.
  rewrite executeChain_insufficient by exact H. reflexivity.
Qed.

Lemma executeChainMode_exhausted (w : World) :
  modeCount hasChain hasTasks hasSingle = 1 ->
  PhaseGates.validatePhaseGateState w.(phaseGateState) = None ->
  (0 < (budget w).(depth) -> (budget w).(canSpawnChildren) = true) ->
  (budget w).(depth) < (budget w).(maxDepth) ->
  o.(clock) (asked w) <= (budget w).(deadlineAtMs) ->
  tokens w <= 0 ->
  (call w).2
  = Return {| text := "Subagent budget exhausted: no remaining agent tokens.";
              isError := false; results := [] |}.
Proof.
  intros Hm Hv Hn Hd Hc Ht.
  subst call. unfold executeChainMode, entered, budgetGuards, dateNow.
  rewrite Hm. cbn [Z.eqb Pos.eqb negb].
  rewrite run_bind. cbn [get]. rewrite Hv.
  repeat (rewrite run_bind; cbn [get mret M_ret]).
  assert ((0 <? depth (budget w))%Z && negb (canSpawnChildren (budget w)) = false) as ->.
  { destruct (Z.ltb_spec 0 (depth (budget w))) as [L|L]; [|reflexivity].
    now rewrite (Hn L). }
  assert ((maxDepth (budget w) <=? depth (budget w))%Z = false) as -> by lia.
  repeat (rewrite run_bind; cbn [get mret M_ret ask]).
  assert ((deadlineAtMs (budget w) <? clock o (asked w))%Z = false) as -> by lia.
  assert ((remainingTokens (budget w) <=? 0)%Z = true) as -> by (unfold tokens in Ht; lia).
  reflexivity.
Qed.

End Entry.

(** C5. A call in chain mode whose budget holds fewer tokens than the
    chain has steps ends before any child is started: nothing is
    launched, nothing is written to the ledger, the budget is as it
    was, and the result is a refusal.  When the call asks for one mode
    and the guards that stand before the chain block let it pass, which
    takes at least one token, the refusal reads [Insufficient subagent budget for chain:
    need at least N, have M.]; with no token left the guard on the
    budget answers first, with its own message.  At a step with [k]
    steps after it and [r >= k + 1] tokens left the child is reserved
    [r - (k + 1)] descendant tokens, which leaves the parent exactly
    [k]; and over the whole loop the first child started gets every
    token beyond the number of steps and the later ones get none. *)
Theorem chain_token_accounting :
  (forall (agentScope : AgentScope)
          (confirmProjectAgents hasUI answer hasChain hasTasks hasSingle : bool) (w : World),
     let out := executeChainMode o processEnv cwd agents config store rootTaskId worktreeActive
                                 selectedSingle selectedTasks selectedChain
                                 agentScope confirmProjectAgents hasUI answer
                                 hasChain hasTasks hasSingle w in
     let passed :=
       modeCount hasChain hasTasks hasSingle = 1
       /\ PhaseGates.validatePhaseGateState w.(phaseGateState) = None
       /\ (0 < (budget w).(depth) -> (budget w).(canSpawnChildren) = true)
       /\ (budget w).(depth) < (budget w).(maxDepth)
       /\ o.(clock) (asked w) <= (budget w).(deadlineAtMs) in
     (budget w).(remainingTokens) < Z.of_nat (length selectedChain) ->
     launches out.1 = launches w
     /\ ledger out.1 = ledger w
     /\ budget out.1 = budget w
     /\ (exists text, out.2 = Return {| text := text; isError := false; results := [] |})
     /\ (passed -> 0 < (budget w).(remainingTokens) ->
         asksForProjectAgents agents selectedSingle selectedTasks selectedChain
                              agentScope confirmProjectAgents hasUI && negb answer = false ->
         out.2 = Return {| text := "Insufficient subagent budget for chain: need at least "
                                   +:+ Js.Number_toString (Z.of_nat (length selectedChain))
                                   +:+ ", have "
                                   +:+ Js.Number_toString (budget w).(remainingTokens) +:+ ".";
                           isError := false; results := [] |})
     /\ (passed -> (budget w).(remainingTokens) <= 0 ->
         out.2 = Return {| text := "Subagent budget exhausted: no remaining agent tokens.";
                           isError := false; results := [] |}))
  /\ (forall (i : Z) (step : Policy.ExecutionTaskItem) (task : string)
             (stepAgent : AgentConfig) (w : World),
        0 <= i < Z.of_nat (length selectedChain) ->
        Z.of_nat (length selectedChain) - i <= (budget w).(remainingTokens) ->
        let k := Z.of_nat (length selectedChain) - i - 1 in
        let r := (budget w).(remainingTokens) in
        let out := chainReservation selectedChain i step task stepAgent w in
        out = tryCatch
                (childBudget ← reserve step.(Policy.agent) task (r - (k + 1))
                                 (canNestAgent stepAgent);
                 mret (inr childBudget))
                (fun errorMessage => mret (inl (createBudgetError errorMessage))) w
        /\ launches out.1 = launches w
        /\ ((exists childBudget,
               out.2 = Return (inr childBudget)
               /\ childBudget.(c_remainingTokens) = r - (k + 1)
               /\ (budget out.1).(remainingTokens) = k)
            \/ (exists result,
                  out.2 = Return (inl result)
                  /\ budget out.1 = budget w
                  /\ makeFingerprint step.(Policy.agent) task ∈ (budget w).(fingerprints))))
  /\ (forall (chainAssignment : option WorktreeAssignment) (p : ChainProgress) (w : World),
        Z.of_nat (length selectedChain) <= (budget w).(remainingTokens) ->
        let out := chainLoop o processEnv cwd agents config store worktreeActive selectedChain
                             chainAssignment selectedChain 0 p w in
        exists L,
          launches out.1 = (launches w ++ L)%list
          /\ (length L <= length selectedChain)%nat
          /\ match L with
             | [] => True
             | first :: later =>
                 first.(l_budget).(c_remainingTokens)
                 = (budget w).(remainingTokens) - Z.of_nat (length selectedChain)
                 /\ Forall (fun l => l.(l_budget).(c_remainingTokens) = 0) later
             end).
Proof.
  split; [|split].
  - intros agentScope confirmProjectAgents hasUI answer hasChain hasTasks hasSingle
      w out passed H.
    pose proof (executeChainMode_refused agentScope confirmProjectAgents hasUI answer
                  hasChain hasTasks hasSingle w H)
      as (Htext & Hl & Hg & Hb).
    split; [exact Hl|]. split; [exact Hg|]. split; [exact Hb|]. split; [exact Htext|].
    split.
    + intros (Hm & Hv & Hn & Hd & Hc) Ht Ha. now apply executeChainMode_insufficient.
    + intros (Hm & Hv & Hn & Hd & Hc) Ht. now apply executeChainMode_exhausted.
  - intros i step task stepAgent w Hi Hr k r out.
    pose proof (chainReservation_tokens i step task stepAgent w Hi Hr) as (Hl & _ & H).
    split; [|split; [exact Hl | exact H]].
    subst out. rewrite (chainReservation_enough i step task stepAgent w Hr).
    subst k r. unfold tokens, len. reflexivity.
  - intros chainAssignment p w Hr out.
    pose proof (chainLoop_tokens chainAssignment selectedChain 0 p w) as H.
    unfold len, tokens in H.
    destruct (H ltac:(lia) ltac:(lia) ltac:(lia)) as (_ & L & HL & Hlen & Hshape).
    exists L. split; [exact HL|]. split; [exact Hlen|].
    destruct L as [|first later]; [exact I|].
    destruct Hshape as [H1 H2]. split; [rewrite H1; lia | exact H2].
Qed.

End Chain.

(** *** The bounded fix loop *)

Section FixLoop.

Context (selectedSingle : option Policy.ExecutionTaskItem)
        (selectedTasks selectedChain : list Policy.ExecutionTaskItem).

Let fixes (w : World) : Z := w.(phaseGateState).(PhaseGates.smokeFixAttempts).
Let maxFixes (w : World) : Z := w.(phaseGateState).(PhaseGates.smokeMaxFixAttempts).
Let history (w : World) : list PhaseGates.SmokeFixAttemptRecord :=
  w.(phaseGateState).(PhaseGates.smokeFixHistory).

Lemma fixView_record (k : Z) (fixAgent : AgentConfig) (outcome : PhaseGates.FixOutcome)
    (summary : string) (w : World) :
  exists entry,
    entry.(PhaseGates.attempt) = k /\ entry.(PhaseGates.outcome) = outcome
    /\ record k fixAgent outcome summary w
       = ((record k fixAgent outcome summary w).1, Return tt)
    /\ fixView (record k fixAgent outcome summary w).1
       = (Z.max (fixes w) k, maxFixes w, (history w ++ [entry])%list)
    /\ launches (record k fixAgent outcome summary w).1 = launches w.
Proof. eexists. repeat split; reflexivity. Qed.

(** What [todo] iterations of the fix loop, the first one numbered [k],
    make of the state [w]: they append the records [new], numbered from
    [k] on, and start the processes [L]. *)
Let loops (fixAgent : AgentConfig) (todo : nat) (k : Z) (w : World)
    (out : World * Completion SmokeGateResult) : Prop :=
  exists new L,
    fixView out.1
    = (match new with
       | [] => fixes w
       | _ => Z.max (fixes w) (k + Z.of_nat (length new) - 1)
       end, maxFixes w, (history w ++ new)%list)
    /\ map PhaseGates.attempt new = seqZ k (Z.of_nat (length new))
    /\ (length new <= todo)%nat
    /\ launches out.1 = (launches w ++ L)%list
    /\ (length L <= todo)%nat
    /\ Forall (fun l => l.(l_agent) = fixAgent.(Agents.name)
                        /\ l.(l_budget).(c_remainingTokens) = 0) L
    /\ match out.2 with
       | Return gate =>
           (length L <= length new)%nat
           /\ is_Some gate.(message)
           /\ (gate.(ok) = true ->
               exists older entry,
                 new = (older ++ [entry])%list
                 /\ entry.(PhaseGates.outcome) = PhaseGates.fix_success)
       | Throw _ => (length new < todo)%nat
       end.

(** The three ways an iteration ends, from a state [w1] that differs
    from the state [w] at the start of the iteration by at most one
    launch. *)

Lemma iteration_throws (fixAgent : AgentConfig) (todo : nat) (k : Z) (w w1 : World)
    (L0 : list Launch) (e : string) :
  fixView w1 = fixView w -> launches w1 = (launches w ++ L0)%list -> (length L0 <= 1)%nat ->
  Forall (fun l => l.(l_agent) = fixAgent.(Agents.name)
                   /\ l.(l_budget).(c_remainingTokens) = 0) L0 ->
  loops fixAgent (S todo) k w (w1, Throw e).
Proof.
  intros Hf Hl Hlen HF. exists [], L0. simpl. rewrite app_nil_r.
  repeat split; auto; lia.
Qed.

Lemma iteration_returns (fixAgent : AgentConfig) (todo : nat) (k : Z) (w w1 : World)
    (L0 : list Launch) (outcome : PhaseGates.FixOutcome) (summary : string)
    (gate : SmokeGateResult) :
  fixView w1 = fixView w -> launches w1 = (launches w ++ L0)%list -> (length L0 <= 1)%nat ->
  Forall (fun l => l.(l_agent) = fixAgent.(Agents.name)
                   /\ l.(l_budget).(c_remainingTokens) = 0) L0 ->
  is_Some gate.(message) ->
  (gate.(ok) = true -> outcome = PhaseGates.fix_success) ->
  loops fixAgent (S todo) k w
        ((record k fixAgent outcome summary ≫= fun _ => mret gate) w1).
Proof.
  intros Hf Hl Hlen HF Hm Hok.
  destruct (fixView_record k fixAgent outcome summary w1) as (entry & Ha & Ho & Hr & Hv & Hn).
  rewrite run_bind, Hr.
  exists [entry], L0. cbn [M_ret mret fst snd length map]. rewrite Hv, Hn.
  injection Hf as Hf1 Hf2 Hf3. fold (fixes w1) (fixes w) in Hf1.
  fold (maxFixes w1) (maxFixes w) in Hf2. fold (history w1) (history w) in Hf3.
  rewrite Hf1, Hf2, Hf3, Ha.
  split; [repeat f_equal; lia|]. split; [reflexivity|]. split; [lia|].
  split; [exact Hl|]. split; [lia|]. split; [exact HF|].
  split; [exact Hlen|]. split; [exact Hm|].
  intros E. exists [], entry. split; [reflexivity|]. rewrite Ho. auto.
Qed.

Lemma iteration_continues (fixAgent : AgentConfig) (currentMode : Policy.TopologyMode)
    (initialFailed : option PhaseGates.SmokeCommandResult)
    (todo : nat) (k : Z) (w w1 : World) (L0 : list Launch) (summary : string) :
  (forall k' w', loops fixAgent todo k' w'
                   (fixLoop o processEnv cwd agents config store rootTaskId worktreeActive
                            fixAgent currentMode initialFailed todo k' w')) ->
  fixView w1 = fixView w -> launches w1 = (launches w ++ L0)%list -> (length L0 <= 1)%nat ->
  Forall (fun l => l.(l_agent) = fixAgent.(Agents.name)
                   /\ l.(l_budget).(c_remainingTokens) = 0) L0 ->
  loops fixAgent (S todo) k w
        ((record k fixAgent PhaseGates.fix_error summary
          ≫= fun _ => fixLoop o processEnv cwd agents config store rootTaskId worktreeActive
                              fixAgent currentMode initialFailed todo (k + 1)) w1).
Proof.
  intros IH Hf Hl Hlen HF.
  destruct (fixView_record k fixAgent PhaseGates.fix_error summary w1)
    as (entry & Ha & Ho & Hr & Hv & Hn).
  rewrite run_bind, Hr.
  set (w2 := (record k fixAgent PhaseGates.fix_error summary w1).1) in *.
  destruct (IH (k + 1) w2) as (new & L & Hv2 & Hseq & Hlen2 & Hl2 & HlenL & HF2 & Hout).
  injection Hf as Hf1 Hf2 Hf3. fold (fixes w1) (fixes w) in Hf1.
  fold (maxFixes w1) (maxFixes w) in Hf2. fold (history w1) (history w) in Hf3.
  pose proof (f_equal (fun v => v.1.1) Hv) as Hv1.
  pose proof (f_equal (fun v => v.1.2) Hv) as Hv2'.
  pose proof (f_equal snd Hv) as Hv3.
  cbn [fixView fst snd] in Hv1, Hv2', Hv3.
  fold (fixes w2) in Hv1. fold (maxFixes w2) in Hv2'. fold (history w2) in Hv3.
  exists (entry :: new), (L0 ++ L)%list.
  cbn [fst snd length map].
  rewrite Hv2, Hv1, Hv2', Hv3, Hf1, Hf2, Hf3, Hl2, Hn, Hl.
  rewrite Ha, Hseq.
  split.
  { rewrite <- app_assoc. cbn [app]. repeat f_equal.
    destruct new; cbn [length]; lia. }
  split.
  { rewrite (seqZ_cons k) by lia. repeat f_equal; lia. }
  split; [lia|]. split; [now rewrite app_assoc|].
  split; [rewrite length_app; lia|]. split; [now apply Forall_app|].
  destruct (fixLoop _ _ _ _ _ _ _ _ _ _ _ _ _ w2).2 as [gate|e].
  - destruct Hout as (Hc & Hm & Hok). split; [rewrite length_app; cbn [length]; lia|].
    split; [exact Hm|]. intros E. destruct (Hok E) as (older & last & -> & Hs).
    exists (entry :: older), last. split; [reflexivity | exact Hs].
  - lia.
Qed.

Lemma fixLoop_spec (fixAgent : AgentConfig) (currentMode : Policy.TopologyMode)
    (initialFailed : option PhaseGates.SmokeCommandResult) (todo : nat) (k : Z) (w : World) :
  loops fixAgent todo k w
        (fixLoop o processEnv cwd agents config store rootTaskId worktreeActive
                 fixAgent currentMode initialFailed todo k w).
Proof.
  revert k w. induction todo as [|todo IH]; intros k w.
  - exists [], []. cbn. rewrite !app_nil_r.
    repeat split; auto; try lia; try discriminate.
  - cbn [fixLoop]. rewrite run_bind. cbn [get].
    assert (launches w = (launches w ++ [])%list) as Hnil by now rewrite app_nil_r.
    match goal with |- context [if ?c then _ else _] => destruct c end.
    { apply (iteration_returns fixAgent todo k w w []);
        simpl; auto; try discriminate; lia. }
    set (task := remediationTask _ _ _).
    rewrite run_bind.
    pose proof (prepareDelegation_keeps launches launches_ask launches_ledger
                  fixAgent.(Agents.name) task (Some rootTaskId) currentMode w) as Kl.
    pose proof (prepareDelegation_keeps fixView fixView_ask fixView_ledger
                  fixAgent.(Agents.name) task (Some rootTaskId) currentMode w) as Kf.
    destruct (prepareDelegation _ _ _ _ _ _ _ w) as [w1 [delegation|e]]; simpl in Kl, Kf.
    2:{ apply (iteration_throws fixAgent todo k w w1 []);
          simpl; rewrite ?app_nil_r; auto; lia. }
    rewrite run_bind, run_tryCatch, run_bind. unfold reserve at 1.
    destruct (reserveChildBudget (budget w1) (name fixAgent) task 0 (canNestAgent fixAgent))
      as [b [fixBudget|e]] eqn:R; cbn [M_ret mret].
    2:{ apply (iteration_returns fixAgent todo k w _ []);
          simpl; rewrite ?app_nil_r; auto; try discriminate; lia. }
    apply GuardrailsFacts.reserve_inv in R as (_ & _ & _ & _ & Hzero).
    change (Z.max 0 0) with 0 in Hzero.
    set (w2 := {| budget := b; ledger := ledger w1; phaseGateState := phaseGateState w1;
                  launches := launches w1; asked := asked w1 |}).
    rewrite run_bind.
    pose proof (runSingleAgent_launches fixAgent.(Agents.name) task
                  delegation.(executionTask) None None fixBudget
                  (activeIsolation worktreeActive) w2) as (L0 & HL & Hlen & HF & _).
    pose proof (runSingleAgent_keeps fixView fixView_ask fixView_launched
                  fixAgent.(Agents.name) task delegation.(executionTask) None None fixBudget
                  (activeIsolation worktreeActive) w2) as Sf.
    assert (Forall (fun l => l.(l_agent) = fixAgent.(Agents.name)
                             /\ l.(l_budget).(c_remainingTokens) = 0) L0) as HF0.
    { eapply Forall_impl; [exact HF|]. intros l [-> ->]. auto. }
    destruct (runSingleAgent _ _ _ _ _ _ _ _ _ _ _ _ w2) as [w3 [fixResult|e]];
      simpl in HL, Sf.
    2:{ apply (iteration_throws fixAgent todo k w w3 L0); auto;
          [now rewrite Sf | now rewrite HL, Kl]. }
    rewrite run_bind.
    pose proof (appendObservation_keeps launches launches_ask launches_ledger
                  delegation.(taskId) fixAgent.(Agents.name)
                  (if resultFailed fixResult then ContextMemory.error else ContextMemory.success)
                  (observationSummary fixResult) w3) as Ol.
    pose proof (appendObservation_keeps fixView fixView_ask fixView_ledger
                  delegation.(taskId) fixAgent.(Agents.name)
                  (if resultFailed fixResult then ContextMemory.error else ContextMemory.success)
                  (observationSummary fixResult) w3) as Of.
    destruct (appendObservation _ _ _ _ _ _ w3) as [w4 [[]|e]]; simpl in Ol, Of.
    2:{ apply (iteration_throws fixAgent todo k w w4 L0); auto;
          [now rewrite Of, Sf | now rewrite Ol, HL, Kl]. }
    assert (fixView w4 = fixView w) as Hf4 by now rewrite Of, Sf.
    assert (launches w4 = (launches w ++ L0)%list) as Hl4 by now rewrite Ol, HL, Kl.
    destruct (resultFailed fixResult).
    { now apply (iteration_continues fixAgent currentMode initialFailed todo k w w4 L0). }
    rewrite run_bind.
    pose proof (runSmokeWithRetries_fixView w4) as Rf.
    pose proof (smokeRetries_keeps launches
                  (Z.to_nat (PhaseGates.smokeMaxRetries (phaseGateState w4) + 1)) None
                  launches_ask launches_gate w4) as Rl.
    change (smokeRetries o _ None w4) with (runSmokeWithRetries o w4) in Rl.
    destruct (runSmokeWithRetries o w4) as [w5 [postFixSmoke|e]]; simpl in Rf, Rl.
    2:{ apply (iteration_throws fixAgent todo k w w5 L0); auto;
          [now rewrite Rf | now rewrite Rl]. }
    assert (fixView w5 = fixView w) as Hf5 by now rewrite Rf.
    assert (launches w5 = (launches w ++ L0)%list) as Hl5 by now rewrite Rl.
    destruct (smokePassed postFixSmoke).
    { apply (iteration_returns fixAgent todo k w w5 L0); auto. }
    rewrite run_bind. cbn [get].
    now apply (iteration_continues fixAgent currentMode initialFailed todo k w w5 L0).
Qed.

(** The gate as a whole: the records [new] it appends are numbered from
    1 on and are at most [smokeMaxFixAttempts] many, and so are the
    processes [L] it starts. *)
Let gated (w : World) (out : World * Completion SmokeGateResult) : Prop :=
  exists new L,
    fixView out.1
    = (match new with
       | [] => fixes w
       | _ => Z.max (fixes w) (Z.of_nat (length new))
       end, maxFixes w, (history w ++ new)%list)
    /\ map PhaseGates.attempt new = seqZ 1 (Z.of_nat (length new))
    /\ Z.of_nat (length new) <= Z.max 0 (maxFixes w)
    /\ launches out.1 = (launches w ++ L)%list
    /\ Z.of_nat (length L) <= Z.max 0 (maxFixes w)
    /\ Forall (fun l => l.(l_budget).(c_remainingTokens) = 0) L
    /\ match out.2 with
       | Return gate =>
           (length L <= length new)%nat
           /\ (gate.(ok) = false -> is_Some gate.(message))
           /\ (gate.(ok) = true ->
               new = []
               \/ exists older entry,
                    new = (older ++ [entry])%list
                    /\ entry.(PhaseGates.outcome) = PhaseGates.fix_success)
       | Throw _ => Z.of_nat (length new) < Z.max 0 (maxFixes w)
                    \/ new = []
       end.

Lemma gated_idle (w w1 : World) (outcome : Completion SmokeGateResult) :
  fixView w1 = fixView w -> launches w1 = launches w ->
  match outcome with
  | Return gate => gate.(ok) = false -> is_Some gate.(message)
  | Throw _ => True
  end ->
  gated w (w1, outcome).
Proof.
  intros Hf Hl Hm. exists [], []. cbn [fst snd length]. rewrite !app_nil_r.
  split; [exact Hf|]. split; [reflexivity|]. split; [lia|]. split; [exact Hl|].
  split; [lia|]. split; [constructor|].
  destruct outcome; auto.
Qed.

Lemma runPhaseSmokeGate_spec (currentMode : Policy.TopologyMode)
    (completedResults : list SingleResult) (w : World) :
  gated w (runPhaseSmokeGate o processEnv cwd agents config store rootTaskId worktreeActive
                             selectedSingle selectedTasks selectedChain
                             currentMode completedResults w).
Proof.
  unfold runPhaseSmokeGate. rewrite run_bind. cbn [get].
  match goal with |- context [if ?c then _ else _] => destruct c end.
  { apply gated_idle; [reflexivity | reflexivity | discriminate]. }
  rewrite run_bind.
  pose proof (runSmokeWithRetries_fixView w) as Rf.
  pose proof (smokeRetries_keeps launches
                (Z.to_nat (PhaseGates.smokeMaxRetries (phaseGateState w) + 1)) None
                launches_ask launches_gate w) as Rl.
  change (smokeRetries o _ None w) with (runSmokeWithRetries o w) in Rl.
  destruct (runSmokeWithRetries o w) as [w1 [initialSmoke|e]]; simpl in Rf, Rl.
  2:{ now apply gated_idle. }
  rewrite run_bind. cbn [get].
  destruct (smokePassed initialSmoke).
  { match goal with |- context [if ?c then _ else _] => destruct c end;
      apply gated_idle; auto; discriminate. }
  destruct (negb _).
  { destruct (smokeFailed initialSmoke); apply gated_idle; auto; discriminate. }
  destruct (getFixAgent _ _ _ _ _ _) as [fixAgent|].
  2:{ apply gated_idle; auto; intros _; eauto. }
  destruct (Z.eqb_spec (PhaseGates.smokeMaxFixAttempts (phaseGateState w1)) 0) as [E0|N0].
  { apply gated_idle; auto; intros _; eauto. }
  pose proof (fixLoop_spec fixAgent currentMode (smokeFailed initialSmoke)
                (Z.to_nat (PhaseGates.smokeMaxFixAttempts (phaseGateState w1))) 1 w1)
    as (new & L & Hv & Hseq & Hlen & Hl & HlenL & HF & Hout).
  pose proof (f_equal (fun v => v.1.1) Rf) as Rf1.
  pose proof (f_equal (fun v => v.1.2) Rf) as Rf2.
  pose proof (f_equal snd Rf) as Rf3.
  cbn [fixView fst snd] in Rf1, Rf2, Rf3.
  fold (fixes w1) (fixes w) in Rf1. fold (maxFixes w1) (maxFixes w) in Rf2.
  fold (history w1) (history w) in Rf3. fold (maxFixes w1) in Hlen, HlenL.
  exists new, L. rewrite Hv, Hl, Rf1, Rf2, Rf3, Rl. rewrite Rf2 in Hlen, HlenL.
  split; [destruct new; [reflexivity | repeat f_equal; lia]|].
  split; [exact Hseq|]. split; [lia|]. split; [reflexivity|]. split; [lia|].
  split; [eapply Forall_impl; [exact HF|]; now intros l [_ ?]|].
  destruct (fixLoop _ _ _ _ _ _ _ _ _ _ _ _ _ w1).2 as [gate|e].
  - destruct Hout as (Hc & Hm & Hok). split; [exact Hc|]. split; [auto|].
    intros E. right. auto.
  - fold (maxFixes w1) in Hout. rewrite Rf2 in Hout. left. lia.
Qed.

(** The end of a driver: either the integration of the lanes fails, or
    the result is the one the smoke gate decides. *)
Lemma finish_cases (currentMode : Policy.TopologyMode) (finalOutput : string)
    (assignments : list WorktreeAssignment) (completed : list SingleResult) (w : World) :
  let fin := finish o processEnv cwd agents config store rootTaskId worktreeActive
                    selectedSingle selectedTasks selectedChain
                    currentMode finalOutput assignments completed w in
  (fixView fin.1 = fixView w
   /\ exists result, fin.2 = Return result /\ result.(isError) = true)
  \/ exists w1,
       fixView w1 = fixView w
       /\ fin.1 = (runPhaseSmokeGate o processEnv cwd agents config store rootTaskId
                                     worktreeActive selectedSingle selectedTasks selectedChain
                                     currentMode completed w1).1
       /\ match (runPhaseSmokeGate o processEnv cwd agents config store rootTaskId
                                   worktreeActive selectedSingle selectedTasks selectedChain
                                   currentMode completed w1).2 with
          | Return gate =>
              exists result,
                fin.2 = Return result
                /\ result.(isError) = negb gate.(ok)
                /\ (gate.(ok) = false ->
                    result.(text) = default "Phase smoke gate failed." gate.(message))
          | Throw e => fin.2 = Throw e
          end.
Proof.
  intros fin. subst fin. unfold finish. rewrite run_bind.
  set (pre := match mode config with
              | ContextMemory.shared_write => _
              | _ => _
              end).
  assert (exists w0, pre w = (w0, Return tt) /\ fixView w0 = fixView w) as (w0 & -> & H0).
  { subst pre. destruct (mode config); eexists; split; reflexivity. }
  rewrite run_bind.
  assert (exists w1 r, integrateAssignments o worktreeActive assignments w0 = (w1, Return r)
                       /\ fixView w1 = fixView w0) as (w1 & r & -> & H1).
  { unfold integrateAssignments. destruct worktreeActive; cbn [negb].
    - destruct assignments as [|a rest]; [do 2 eexists; split; reflexivity|].
      rewrite run_bind. cbn [ask].
      destruct (find isFailed _); do 2 eexists; split; reflexivity.
    - do 2 eexists; split; reflexivity. }
  destruct r as [failure|].
  - left. cbn. split; [now rewrite H1, H0|]. eauto.
  - right. exists w1. split; [now rewrite H1, H0|].
    rewrite run_bind.
    destruct (runPhaseSmokeGate _ _ _ _ _ _ _ _ _ _ _ _ _ w1) as [w2 [gate|e]];
      cbn [fst snd]; [|auto].
    destruct (ok gate); cbn [negb]; (split; [reflexivity|]);
      eexists; (split; [reflexivity|]); split; auto; discriminate.
Qed.

Lemma app_same_head {A} (l new : list A) : l = (l ++ new)%list -> new = [].
Proof.
  intros E. apply (f_equal length) in E. rewrite length_app in E.
  destruct new; [reflexivity | simpl in E; lia].
Qed.

(** A gate that has recorded as many fix attempts as are allowed, none
    of them a success, returns a failure with a message. *)
Lemma exhausted_gate_fails (w : World) (out : World * Completion SmokeGateResult)
    (new : list PhaseGates.SmokeFixAttemptRecord) :
  gated w out ->
  history out.1 = (history w ++ new)%list ->
  0 < maxFixes w -> Z.of_nat (length new) = maxFixes w ->
  Forall (fun entry => entry.(PhaseGates.outcome) = PhaseGates.fix_error) new ->
  exists gate, out.2 = Return gate /\ gate.(ok) = false /\ is_Some gate.(message).
Proof.
  intros (new' & L & Hv & _ & _ & _ & _ & _ & Hout) Hh Hpos Hlen Herr.
  pose proof (f_equal snd Hv) as Hv3. cbn [fixView snd] in Hv3.
  fold (history out.1) in Hv3. rewrite Hh in Hv3.
  apply app_inv_head in Hv3. subst new'.
  destruct out.2 as [gate|e].
  - exists gate. split; [reflexivity|].
    destruct Hout as (_ & Hm & Hok).
    destruct (ok gate) eqn:E; [|auto].
    destruct (Hok eq_refl) as [->|(older & entry & -> & Hs)].
    + simpl in Hlen. lia.
    + apply Forall_app in Herr as [_ Herr]. apply Forall_cons in Herr as [Herr _].
      congruence.
  - destruct Hout as [Hlt| ->]; [lia | simpl in Hlen; lia].
Qed.

Lemma finish_exhausted (currentMode : Policy.TopologyMode) (finalOutput : string)
    (assignments : list WorktreeAssignment) (completed : list SingleResult) (w : World)
    (new : list PhaseGates.SmokeFixAttemptRecord) :
  let fin := finish o processEnv cwd agents config store rootTaskId worktreeActive
                    selectedSingle selectedTasks selectedChain
                    currentMode finalOutput assignments completed w in
  history fin.1 = (history w ++ new)%list ->
  0 < maxFixes w -> Z.of_nat (length new) = maxFixes w ->
  Forall (fun entry => entry.(PhaseGates.outcome) = PhaseGates.fix_error) new ->
  exists result, fin.2 = Return result /\ result.(isError) = true.
Proof.
  intros fin Hh Hpos Hlen Herr. subst fin.
  pose proof (finish_cases currentMode finalOutput assignments completed w) as C.
  cbv zeta in C.
  destruct C as [(_ & result & Hr & He) | (w1 & Hf & H1 & Hgate)]; [eauto|].
  pose proof (f_equal (fun v => v.1.2) Hf) as Hf2. pose proof (f_equal snd Hf) as Hf3.
  cbn [fixView fst snd] in Hf2, Hf3.
  fold (maxFixes w1) (maxFixes w) in Hf2. fold (history w1) (history w) in Hf3.
  pose proof (runPhaseSmokeGate_spec currentMode completed w1) as G.
  destruct (exhausted_gate_fails w1 _ new G) as (gate & Eg & Eok & _).
  - rewrite <- H1, Hf3. exact Hh.
  - now rewrite Hf2.
  - now rewrite Hf2.
  - exact Herr.
  - rewrite Eg in Hgate. destruct Hgate as (result & Hr & He & _).
    exists result. split; [exact Hr|]. now rewrite He, Eok.
Qed.

(** The chain and single drivers either leave the fix counters alone or
    end in [finish]. *)

Lemma chainReservation_fixView (i : Z) (step : Policy.ExecutionTaskItem) (task : string)
    (stepAgent : AgentConfig) :
  keeps fixView (chainReservation selectedChain i step task stepAgent).
Proof. unfold chainReservation. pose proof fixView_reserve. keeps_tac. Qed.

Lemma chainStep_fixView (chainAssignment : option WorktreeAssignment) (i : Z)
    (step : Policy.ExecutionTaskItem) (p : ChainProgress) :
  keeps fixView (chainStep o processEnv cwd agents config store worktreeActive selectedChain
                           chainAssignment i step p).
Proof.
  unfold chainStep, dateNow. cbv zeta.
  pose proof (prepareDelegation_keeps fixView fixView_ask fixView_ledger).
  pose proof (runSingleAgent_keeps fixView fixView_ask fixView_launched).
  pose proof (appendObservation_keeps fixView fixView_ask fixView_ledger).
  pose proof chainReservation_fixView.
  keeps_tac.
Qed.

Lemma chainLoop_fixView (chainAssignment : option WorktreeAssignment)
    (steps : list Policy.ExecutionTaskItem) (i : Z) (p : ChainProgress) :
  keeps fixView (chainLoop o processEnv cwd agents config store worktreeActive selectedChain
                           chainAssignment steps i p).
Proof.
  revert i p. induction steps as [|step rest IH]; intros i p; cbn [chainLoop].
  - keeps_tac.
  - pose proof chainStep_fixView. keeps_tac.
Qed.

Lemma executeChain_ends (w : World) :
  let out := executeChain o processEnv cwd agents config store rootTaskId worktreeActive
                          selectedSingle selectedTasks selectedChain w in
  fixView out.1 = fixView w
  \/ exists w1 finalOutput assignments completed,
       fixView w1 = fixView w
       /\ out = finish o processEnv cwd agents config store rootTaskId worktreeActive
                       selectedSingle selectedTasks selectedChain
                       Policy.chain finalOutput assignments completed w1.
Proof.
  intros out. subst out. unfold executeChain. rewrite run_bind. cbn [get].
  match goal with |- context [if ?c then _ else _] => destruct c end; [now left|].
  rewrite run_bind.
  set (prepare := if worktreeActive then _ else _).
  assert (fixView (prepare w).1 = fixView w) as H0.
  { subst prepare. destruct worktreeActive; [|reflexivity].
    rewrite run_bind. cbn [ask]. now destruct (worktreeAdd o _ _). }
  destruct (prepare w) as [w0 [[result|chainAssignment]|e]]; cbn [fst] in H0;
    [now left| |now left].
  rewrite run_bind.
  pose proof (chainLoop_fixView chainAssignment selectedChain 0
                {| done := []; previousOutput := EmptyString;
                   previousTaskId := Some rootTaskId |} w0) as H1.
  destruct (chainLoop _ _ _ _ _ _ _ _ _ _ _ _ w0) as [w1 [[result|p]|e]]; cbn [fst] in H1.
  - left. cbn. now rewrite H1.
  - right. do 4 eexists. split; [|reflexivity]. now rewrite H1.
  - left. cbn. now rewrite H1.
Qed.

Lemma executeSingle_ends (selected : Policy.ExecutionTaskItem) (w : World) :
  let out := executeSingle o processEnv cwd agents config store rootTaskId worktreeActive
                           selectedSingle selectedTasks selectedChain selected w in
  fixView out.1 = fixView w
  \/ exists w1 finalOutput assignments completed,
       fixView w1 = fixView w
       /\ out = finish o processEnv cwd agents config store rootTaskId worktreeActive
                       selectedSingle selectedTasks selectedChain
                       Policy.single finalOutput assignments completed w1.
Proof.
  intros out. subst out. unfold executeSingle.
  destruct (getAgentByName agents _) as [singleAgent|]; [|now left].
  unfold dateNow. repeat (rewrite run_bind; cbn [ask get M_ret mret fst snd M_bind mbind]).
  match goal with |- context [if ?c then _ else _] => destruct c end; [now left|].
  rewrite run_bind.
  set (w0 := {| budget := budget w; ledger := ledger w; phaseGateState := phaseGateState w;
                launches := launches w; asked := S (asked w) |}).
  set (prepare := if worktreeActive then _ else _).
  assert (fixView (prepare w0).1 = fixView w) as H0.
  { subst prepare. destruct worktreeActive; [|reflexivity].
    rewrite run_bind. cbn [ask]. now destruct (worktreeAdd o _ _). }
  destruct (prepare w0) as [w1 [[result|singleAssignment]|e]]; cbn [fst] in H0;
    [now left| |now left].
  rewrite run_bind.
  pose proof (prepareDelegation_keeps fixView fixView_ask fixView_ledger
                selected.(Policy.agent) selected.(Policy.task) (Some rootTaskId)
                Policy.single w1) as H1.
  destruct (prepareDelegation _ _ _ _ _ _ _ w1) as [w2 [delegation|e]]; cbn [fst] in H1;
    [|left; cbn; now rewrite H1].
  rewrite run_bind. cbn [get]. rewrite run_bind, run_tryCatch, run_bind.
  pose proof (fixView_reserve selected.(Policy.agent) selected.(Policy.task)
                (Z.max 0 (remainingTokens (budget w2) - 1)) (canNestAgent singleAgent) w2) as H2.
  destruct (reserve _ _ _ _ w2) as [w3 [childBudget|e]]; cbn [fst] in H2;
    cbn [M_ret mret]; [|left; cbn; now rewrite H2, H1].
  rewrite run_bind.
  set (singleCwd := match singleAssignment with Some _ => _ | None => _ end).
  pose proof (runSingleAgent_keeps fixView fixView_ask fixView_launched
                selected.(Policy.agent) selected.(Policy.task) delegation.(executionTask)
                singleCwd None childBudget (activeIsolation worktreeActive) w3) as H3.
  destruct (runSingleAgent _ _ _ _ _ _ _ _ _ _ _ _ w3) as [w4 [result|e]]; cbn [fst] in H3;
    [|left; cbn; now rewrite H3, H2, H1].
  rewrite run_bind.
  pose proof (appendObservation_keeps fixView fixView_ask fixView_ledger
                delegation.(taskId) selected.(Policy.agent)
                (if resultFailed result then ContextMemory.error else ContextMemory.success)
                (observationSummary result) w4) as H4.
  destruct (appendObservation _ _ _ _ _ _ w4) as [w5 [[]|e]]; cbn [fst] in H4;
    [|left; cbn; now rewrite H4, H3, H2, H1].
  destruct (resultFailed result).
  - left. cbn. now rewrite H4, H3, H2, H1.
  - right. do 4 eexists. split; [|reflexivity]. now rewrite H4, H3, H2, H1.
Qed.

(** C8. When the smoke gate of a run ends, however it ends, the count
    of fix attempts is at most [smokeMaxFixAttempts]: the bound itself
    is unchanged, the gate has appended one record per fix attempt,
    numbered from 1 on and at most that many, has started at most that
    many fix processes and, unless it was aborted, no more than it has
    recorded.  A gate that has recorded all the attempts allowed, none a
    success, returns a failure with a message, and the drivers turn it
    into a tool result marked as an error.  A freshly created gate
    state has count 0 and a bound that is not negative. *)
Theorem smoke_fix_attempts_bounded (currentMode : Policy.TopologyMode)
    (completed : list SingleResult) (w : World) :
  w.(phaseGateState).(PhaseGates.smokeFixAttempts)
  <= w.(phaseGateState).(PhaseGates.smokeMaxFixAttempts) ->
  let limit := w.(phaseGateState).(PhaseGates.smokeMaxFixAttempts) in
  let out := runPhaseSmokeGate o processEnv cwd agents config store rootTaskId worktreeActive
                               selectedSingle selectedTasks selectedChain
                               currentMode completed w in
  out.1.(phaseGateState).(PhaseGates.smokeMaxFixAttempts) = limit
  /\ out.1.(phaseGateState).(PhaseGates.smokeFixAttempts) <= limit
  /\ (exists new L,
        out.1.(phaseGateState).(PhaseGates.smokeFixHistory)
        = (w.(phaseGateState).(PhaseGates.smokeFixHistory) ++ new)%list
        /\ map PhaseGates.attempt new = seqZ 1 (Z.of_nat (length new))
        /\ Z.of_nat (length new) <= Z.max 0 limit
        /\ launches out.1 = (launches w ++ L)%list
        /\ Z.of_nat (length L) <= Z.max 0 limit
        /\ (isThrow out.2 = false -> (length L <= length new)%nat))
  /\ (forall new,
        out.1.(phaseGateState).(PhaseGates.smokeFixHistory)
        = (w.(phaseGateState).(PhaseGates.smokeFixHistory) ++ new)%list ->
        0 < limit -> Z.of_nat (length new) = limit ->
        Forall (fun entry => entry.(PhaseGates.outcome) = PhaseGates.fix_error) new ->
        exists gate, out.2 = Return gate /\ gate.(ok) = false /\ is_Some gate.(message))
  /\ (forall (run : M ToolResult) (start : World),
        run = executeChain o processEnv cwd agents config store rootTaskId worktreeActive
                           selectedSingle selectedTasks selectedChain
        \/ (exists selected,
              run = executeSingle o processEnv cwd agents config store rootTaskId
                                  worktreeActive selectedSingle selectedTasks selectedChain
                                  selected)
        \/ (exists mode finalOutput assignments done,
              run = finish o processEnv cwd agents config store rootTaskId worktreeActive
                           selectedSingle selectedTasks selectedChain
                           mode finalOutput assignments done) ->
        forall new,
          (run start).1.(phaseGateState).(PhaseGates.smokeFixHistory)
          = (start.(phaseGateState).(PhaseGates.smokeFixHistory) ++ new)%list ->
          0 < start.(phaseGateState).(PhaseGates.smokeMaxFixAttempts) ->
          Z.of_nat (length new) = start.(phaseGateState).(PhaseGates.smokeMaxFixAttempts) ->
          Forall (fun entry => entry.(PhaseGates.outcome) = PhaseGates.fix_error) new ->
          exists result, (run start).2 = Return result /\ result.(isError) = true)
  /\ (forall init,
        (PhaseGates.createPhaseGateState init).(PhaseGates.smokeFixAttempts) = 0
        /\ 0 <= (PhaseGates.createPhaseGateState init).(PhaseGates.smokeMaxFixAttempts)).
Proof.
  intros Hinv limit out.
  pose proof (runPhaseSmokeGate_spec currentMode completed w) as G. fold out in G.
  split; [|split; [|split; [|split; [|split]]]].
  - destruct G as (new & L & Hv & _). now pose proof (f_equal (fun v => v.1.2) Hv).
  - destruct G as (new & L & Hv & _ & Hlen & _).
    pose proof (f_equal (fun v => v.1.1) Hv) as H1. cbn [fixView fst snd] in H1.
    rewrite H1. unfold fixes, maxFixes in *. fold limit in Hlen |- *.
    destruct new; [exact Hinv | cbn [length] in *; lia].
  - destruct G as (new & L & Hv & Hseq & Hlen & Hl & HlenL & _ & Hout).
    exists new, L. split; [now pose proof (f_equal snd Hv)|].
    split; [exact Hseq|]. split; [exact Hlen|]. split; [exact Hl|]. split; [exact HlenL|].
    destruct out.2; [now destruct Hout | discriminate].
  - intros new Hh Hpos Hlen Herr.
    now apply (exhausted_gate_fails w out new G).
  - intros run start Hrun new Hh Hpos Hlen Herr.
    assert (forall mode finalOutput assignments done,
              run = finish o processEnv cwd agents config store rootTaskId worktreeActive
                           selectedSingle selectedTasks selectedChain
                           mode finalOutput assignments done ->
              exists result, (run start).2 = Return result /\ result.(isError) = true) as F.
    { intros mode finalOutput assignments done' ->.
      now apply (finish_exhausted mode finalOutput assignments done' start new). }
    assert (fixView (run start).1 = fixView start -> False) as Same.
    { intros E. pose proof (f_equal snd E) as E3. cbn [fixView snd] in E3.
      rewrite Hh in E3. symmetry in E3. apply app_same_head in E3. subst new.
      simpl in Hlen. lia. }
    destruct Hrun as [-> | [(selected & ->) | (mode & finalOutput & assignments & done' & ->)]].
    + pose proof (executeChain_ends start) as C. cbv zeta in C.
      destruct C as [E | (w1 & finalOutput & assignments & done' & Hf & E)];
        [now destruct Same|].
      rewrite E in Hh |- *.
      pose proof (f_equal (fun v => v.1.2) Hf) as Hf2. pose proof (f_equal snd Hf) as Hf3.
      cbn [fixView fst snd] in Hf2, Hf3.
      apply (finish_exhausted Policy.chain finalOutput assignments done' w1 new).
      * fold (history w1). unfold history. rewrite Hf3. exact Hh.
      * unfold maxFixes. now rewrite Hf2.
      * unfold maxFixes. now rewrite Hf2.
      * exact Herr.
    + pose proof (executeSingle_ends selected start) as C. cbv zeta in C.
      destruct C as [E | (w1 & finalOutput & assignments & done' & Hf & E)];
        [now destruct Same|].
      rewrite E in Hh |- *.
      pose proof (f_equal (fun v => v.1.2) Hf) as Hf2. pose proof (f_equal snd Hf) as Hf3.
      cbn [fixView fst snd] in Hf2, Hf3.
      apply (finish_exhausted Policy.single finalOutput assignments done' w1 new).
      * unfold history. rewrite Hf3. exact Hh.
      * unfold maxFixes. now rewrite Hf2.
      * unfold maxFixes. now rewrite Hf2.
      * exact Herr.
    + now apply (F mode finalOutput assignments done').
  - intros init. cbn. split; [reflexivity | lia].
Qed.

End FixLoop.

End Frame.

(** *** Delegation in isolated mode *)

Section Grows.

Context (store : ContextMemory.SharedContextStore) (P : Launch -> Prop).















End Grows.



Section Guards.

Context (o : Outside) (agents : list AgentConfig)
        (selectedSingle : option Policy.ExecutionTaskItem)
        (selectedTasks selectedChain : list Policy.ExecutionTaskItem)
        (agentScope : AgentScope) (confirmProjectAgents hasUI answer : bool)
        (hasChain hasTasks hasSingle : bool).




End Guards.

Section Isolated.

Context (o : Outside) (processEnv : gmap string string) (cwd : string)
        (agents : list AgentConfig) (limit : Z) (memoryDir : option string)
        (store : ContextMemory.SharedContextStore) (rootTaskId : string)
        (worktreeActive : bool)
        (selectedSingle : option Policy.ExecutionTaskItem)
        (selectedTasks selectedChain : list Policy.ExecutionTaskItem).

Let config : SharedContextConfig :=
  {| Subagent.mode := ContextMemory.isolated; Subagent.limit := limit;
     Subagent.memoryDir := memoryDir |}.

























End Isolated.

(** *** A call of the tool in isolated mode *)

Section IsolatedRun.

Context (o : Outside) (processEnv : gmap string string) (cwd : string)
        (agents : list AgentConfig) (limit : Z) (memoryDir : option string)
        (store : ContextMemory.SharedContextStore) (rootTaskId : string)
        (worktreeActive : bool)
        (selectedSingle : option Policy.ExecutionTaskItem)
        (selectedTasks selectedChain : list Policy.ExecutionTaskItem)
        (agentScope : AgentScope) (confirmProjectAgents hasUI answer : bool)
        (hasChain hasTasks hasSingle : bool).

Let config : SharedContextConfig :=
  {| Subagent.mode := ContextMemory.isolated; Subagent.limit := limit;
     Subagent.memoryDir := memoryDir |}.


End IsolatedRun.


(** Four steps and three tokens: the call is refused before anything is
    started. *)
Example chain_refused_with_three_tokens :
  let out := executeChainMode Samples.outside ∅ "/repo" [Samples.worker] Samples.config
                              Samples.store1 "root" false None [] Samples.fourSteps
                              scope_user true true true true false false
                              (Samples.world 3) in
  out.2 = Return {| text := "Insufficient subagent budget for chain: need at least 4, have 3.";
                    isError := false; results := [] |}
  /\ launches out.1 = []
  /\ ledger out.1 = Samples.emptyLedger.
Proof. vm_compute. auto. Qed.

(** With no token left the guard on the budget answers before the chain
    block is reached. *)
Example chain_refused_without_tokens :
  let out := executeChainMode Samples.outside ∅ "/repo" [Samples.worker] Samples.config
                              Samples.store1 "root" false None [] Samples.fourSteps
                              scope_user true true true true false false
                              (Samples.world 0) in
  out.2 = Return {| text := "Subagent budget exhausted: no remaining agent tokens.";
                    isError := false; results := [] |}
  /\ launches out.1 = [].
Proof. vm_compute. auto. Qed.

(** A chain of two steps run with 5 tokens: the first child gets the 3
    tokens beyond the two steps, the second none, and the parent is left
    with none. *)
Example chain_of_two :
  let out := executeChain Samples.outside ∅ "/repo" [Samples.worker] Samples.config
                          Samples.store1 "root" false None [] Samples.twoSteps
                          (Samples.world 5) in
  map (fun l => l.(l_budget).(c_remainingTokens)) (launches out.1) = [3; 0]
  /\ (budget out.1).(remainingTokens) = 0
  /\ (budget out.1).(fingerprints)
     = ["worker::collect facts"; "worker::implement using done"].
Proof. vm_compute. auto. Qed.

Lemma smoke_fix_attempts_bounded_witness :
  let out := runPhaseSmokeGate Samples.outside ∅ "/repo" [Samples.worker] Samples.config
                               Samples.store1 "root" false
                               (Some (Samples.step "Implement the parser")) [] []
                               Policy.single [] (Samples.world 4) in
  (out.1.(phaseGateState).(PhaseGates.smokeFixAttempts) <=? 2)%Z = true.
Proof.
  apply Z.leb_le.
  exact (proj1 (proj2 (smoke_fix_attempts_bounded Samples.outside ∅ "/repo" [Samples.worker]
                         Samples.config Samples.store1 "root" false
                         (Some (Samples.step "Implement the parser")) [] []
                         Policy.single [] (Samples.world 4)
                         ltac:(vm_compute; discriminate)))).
Defined.

(** The same gate, run: smoke fails, two fix attempts are made and
    recorded, smoke still fails, and the gate reports the failure. *)
Example smoke_gate_exhausted :
  let out := runPhaseSmokeGate Samples.outside ∅ "/repo" [Samples.worker] Samples.config
                               Samples.store1 "root" false
                               (Some (Samples.step "Implement the parser")) [] []
                               Policy.single [] (Samples.world 4) in
  map (fun e => (e.(PhaseGates.attempt), e.(PhaseGates.outcome)))
      out.1.(phaseGateState).(PhaseGates.smokeFixHistory)
  = [ (1, PhaseGates.fix_error); (2, PhaseGates.fix_error) ]
  /\ out.1.(phaseGateState).(PhaseGates.smokeFixAttempts) = 2
  /\ length (launches out.1) = 2%nat
  /\ out.2 = Return {| ok := false;
                       message := Some "Phase smoke gate failed after 2/2 fix attempts: npm test (exit 1)." |}.
Proof. vm_compute. auto. Qed.

End SubagentFacts.

